(** * Windows service management: the manager and its test double

    A shallow embedding of [pkg/daemon/manager] (the manager backed by the
    service control manager of the host) and of [pkg/daemon/fake] (the
    in-memory test double), with the properties of the state-reconciliation
    engine [EnsureServiceState], of the dependent enumeration and of the
    service-set operations. *)

From Stdlib Require Import NArith Lia.
From stdpp Require Import base option list gmap strings fin_maps pretty relations.

Local Open Scope N_scope.

(** ** Errors

    Go's [error] values.  [errors.New] and [fmt.Errorf] build a fresh error
    from a message, [errors.Wrap] and [errors.Wrapf] put a message in front
    of a cause, and the Windows API reports an error number. *)
Inductive error : Type :=
  | errors_New (msg : string)
  | errors_Wrap (cause : error) (msg : string)
  | Errno (code : N).

Global Instance error_eq_dec : EqDecision error.
Proof. solve_decision. Defined.

(** ** golang.org/x/sys/windows/svc *)
Module svc.
(** [svc.State] is a [uint32]; the constants are those of the Windows API. *)
Definition Stopped : N := 1.
Definition StartPending : N := 2.
Definition StopPending : N := 3.
Definition Running : N := 4.
Definition ContinuePending : N := 5.
Definition PausePending : N := 6.
Definition Paused : N := 7.

(** [svc.Cmd] *)
Definition Stop : N := 1.
Definition Pause : N := 2.
Definition Continue : N := 3.

(** [svc.Status]; the code reads and writes the field [State] only. *)
Record Status : Type := { State : N }.
End svc.

(** ** golang.org/x/sys/windows/svc/mgr *)
Module mgr.
(** [mgr.Config], with the fields the code touches. *)
Record Config : Type :=
  { BinaryPathName : string;
    Dependencies : list string }.

(** [mgr.Service]: a service of the host, with its [windows.Handle]. *)
Record Service : Type :=
  { Name : string;
    Handle : N }.
End mgr.

(** ** golang.org/x/sys/windows *)
Module windows.
Definition ERROR_MORE_DATA : error := Errno 234.
Definition SERVICE_STATE_ALL : N := 3.
End windows.

(** The message of [fmt.Errorf("unexpected state request: %d", state)]. *)
Definition unexpected_state_request (state : N) : error :=
  errors_New ("unexpected state request: " +:+ pretty state).

(** The name as [%q] prints it (escapes apart). *)
Definition quoted (s : string) : string :=
  let q := String (Ascii.ascii_of_nat 34) EmptyString in q +:+ s +:+ q.

(** * The test double: pkg/daemon/fake *)
Module fake.

(** [FakeService].  The Go struct also holds [serviceList], a pointer back
    to the registry that holds the service; here the registry is the state
    every method is run in. *)
Record FakeService : Type :=
  { name : string;
    config : mgr.Config;
    status : svc.Status }.

(** [fakeServiceList]: the state of all services of an instance.  The mutex
    [m] has no counterpart: one call runs at a time. *)
Record fakeServiceList : Type :=
  { svcs : gmap string FakeService }.

(** A method call on a service handle, as the journal records it. *)
Inductive Call : Type :=
  | CallQuery (service : string) (reported : option N)
  | CallStart (service : string)
  | CallControl (service : string) (cmd : N).

(** [testMgr].  [journal] is ghost state: the handle method calls made so
    far, oldest first.  The Go code keeps no such record; it is here so
    that statements can say which calls a run makes.

    A service handle (a [winsvc.Service] holding a [*FakeService]) is the
    registry key under which the manager holds the service. *)
Record testMgr : Type :=
  { svcList : fakeServiceList;
    journal : list Call }.

Definition record (c : Call) (t : testMgr) : testMgr :=
  {| svcList := svcList t; journal := journal t ++ [c] |}.

(** [write] overwrites the given service to the svcs map *)
Definition write (name : string) (service : FakeService) (l : fakeServiceList)
  : fakeServiceList :=
  {| svcs := <[name := service]> (svcs l) |}.

(** [read] returns the entry with the given name, if it exists *)
Definition read (name : string) (l : fakeServiceList) : option FakeService :=
  svcs l !! name.

(** [remove] deletes the entry with the given name, throwing an error if it
    doesn't exist *)
Definition remove (name : string) (l : fakeServiceList)
  : option error * fakeServiceList :=
  match svcs l !! name with
  | None => (Some (errors_New "service does not exist"), l)
  | Some _ => (None, {| svcs := delete name (svcs l) |})
  end.

Definition newFakeServiceList : fakeServiceList := {| svcs := ∅ |}.

Definition setState (state : N) (f : FakeService) : FakeService :=
  {| name := name f; config := config f; status := {| svc.State := state |} |}.

Definition isStopped (l : fakeServiceList) (k : string) : Prop :=
  ∃ f, svcs l !! k = Some f ∧ svc.State (status f) = svc.Stopped.

(** ** The methods of [FakeService]

    [fake/service.go] is not among the sources; its methods follow the
    service handle contract of the specification. *)

(** Modelled from the spec: [FakeService.Config] (fake/service.go is
    missing).  "fetch its declared configuration (including its declared
    dependency list)". *)
Definition Config (f : FakeService) : error + mgr.Config :=
  inr (config f).

(** Modelled from the spec: [FakeService.Query] (fake/service.go is
    missing).  "Query ... always returns the most recently known state";
    its error is "not found" when the service is gone. *)
Definition Query (service : string) (t : testMgr)
  : (error + svc.Status) * testMgr :=
  match read service (svcList t) with
  | None => (inl (errors_New "not found"), record (CallQuery service None) t)
  | Some f =>
      (inr (status f),
       record (CallQuery service (Some (svc.State (status f)))) t)
  end.

(** Modelled from the spec: [FakeService.Start] (fake/service.go is
    missing).  The engine of the test double returns as soon as [Start]
    does, and the service is then expected to be running ("app transitions
    to running"): the double completes the transition at once. *)
Definition Start (service : string) (t : testMgr) : option error * testMgr :=
  let t := record (CallStart service) t in
  match read service (svcList t) with
  | None => (Some (errors_New "not found"), t)
  | Some f =>
      (None,
       {| svcList := write service (setState svc.Running f) (svcList t);
          journal := journal t |})
  end.

(** A service other than [service] that declares [target] and is running. *)
Definition runningDependent (service target : string)
    (kf : string * FakeService) : Prop :=
  kf.1 ≠ service
  ∧ target ∈ mgr.Dependencies (config kf.2)
  ∧ svc.State (status kf.2) = svc.Running.

Global Instance runningDependent_dec service target kf :
  Decision (runningDependent service target kf).
Proof. unfold runningDependent. apply _. Defined.

(** Modelled from the spec: [FakeService.Control] (fake/service.go is
    missing).  Stopping an already-stopped service is the error "invalid
    state transition"; a service with running dependents is refused
    ("the OS will refuse to stop a service with running dependents", a
    dependent being "a service that declares another service as a
    prerequisite"); otherwise the stop completes at once, as the engine of
    the double does not poll.  Other signals are not driven by this
    subsystem and leave the state as it is. *)
Definition Control (service : string) (cmd : N) (t : testMgr)
  : (error + svc.Status) * testMgr :=
  let t := record (CallControl service cmd) t in
  match read service (svcList t) with
  | None => (inl (errors_New "not found"), t)
  | Some f =>
      if decide (cmd = svc.Stop) then
        if decide (svc.State (status f) = svc.Stopped) then
          (inl (errors_New "invalid state transition"), t)
        else if decide (Exists (runningDependent service (name f))
                          (map_to_list (svcs (svcList t)))) then
          (inl (errors_New "service has dependents"), t)
        else
          (inr {| svc.State := svc.Stopped |},
           {| svcList := write service (setState svc.Stopped f) (svcList t);
              journal := journal t |})
      else (inr (status f), t)
  end.

(** ** The manager of the test double: fake/manager.go *)
Section testMgr.

(** Go visits the entries of a map in an order it does not specify.
    [range m] is the order in which a [for ... range] statement visits
    the map [m]: some arrangement of its entries. *)
Variable range : gmap string FakeService → list (string * FakeService).
Hypothesis range_perm : ∀ m, range m ≡ₚ map_to_list m.

(** [listServiceNames] returns a slice of all service names *)
Definition listServiceNames (l : fakeServiceList) : list string :=
  foldl (λ names entry, names ++ [entry.1]) [] (range (svcs l)).

(** [CreateService] installs new service [name] on the system; the
    handle it returns is the key [name]. *)
Definition CreateService (name exepath : string) (config : mgr.Config)
    (args : list string) (t : testMgr) : (error + string) * testMgr :=
  match read name (svcList t) with
  | Some _ => (inl (errors_New "service already exists"), t)
  | None =>
      let config :=
        {| mgr.BinaryPathName := exepath;
           mgr.Dependencies := mgr.Dependencies config |} in
      let service :=
        {| name := name;
           config := config;
           status := {| svc.State := svc.Stopped |} |} in
      (inr name,
       {| svcList := write name service (svcList t);
          journal := journal t |})
  end.

Definition GetServices (t : testMgr) : error + gset string :=
  let svcsList := listServiceNames (svcList t) in
  inr (foldl (λ (svcsMap : gset string) svc, {[svc]} ∪ svcsMap) ∅ svcsList).

Definition OpenService (name : string) (t : testMgr) : error + string :=
  match read name (svcList t) with
  | None => inl (errors_New "service does not exist")
  | Some _ => inr name
  end.

(** The inner loop of [listDependentServices], over
    [config.Dependencies]. *)
Fixpoint appendDeclaring (serviceName name : string)
    (declared : list string) (dependencies : list string) : list string :=
  match declared with
  | [] => dependencies
  | s :: declared =>
      appendDeclaring serviceName name declared
        (if decide (s = serviceName) then dependencies ++ [name]
         else dependencies)
  end.

(** The outer loop of [listDependentServices], over the registry. *)
Fixpoint scanServices (serviceName : string)
    (entries : list (string * FakeService)) (dependencies : list string)
  : error + list string :=
  match entries with
  | [] => inr dependencies
  | (name, svc) :: entries =>
      if decide (name = serviceName) then
        scanServices serviceName entries dependencies
      else
        match Config svc with
        | inl err => inl err
        | inr config =>
            scanServices serviceName entries
              (appendDeclaring serviceName name (mgr.Dependencies config)
                 dependencies)
        end
  end.

Definition listDependentServices (serviceName : string) (t : testMgr)
  : error + list string :=
  scanServices serviceName (range (svcs (svcList t))) [].

(** The loop of [EnsureServiceState] over the dependent services;
    [ensureStopped] is the recursive call.  [None] is a recursive call
    that has not returned. *)
Fixpoint stopDependents
    (ensureStopped : string → testMgr → option (option error * testMgr))
    (dependentServices : list string) (t : testMgr)
  : option (option error * testMgr) :=
  match dependentServices with
  | [] => Some (None, t)
  | dependentServiceName :: dependentServices =>
      match OpenService dependentServiceName t with
      | inl _ =>
          Some (Some (errors_New ("error opening dependent service "
                                  +:+ dependentServiceName)), t)
      | inr dependentSvc =>
          match ensureStopped dependentSvc t with
          | None => None
          | Some (Some err, t) =>
              Some (Some (errors_Wrap err
                            ("unable to stop dependent service "
                             +:+ dependentServiceName)), t)
          | Some (None, t) =>
              stopDependents ensureStopped dependentServices t
          end
      end
  end.

(** [EnsureServiceState].  The recursion of the Go function is not
    bounded by anything in the code; [fuel] bounds the depth of the
    calls, and [None] is a run that needs more than [fuel] allows. *)
Fixpoint EnsureServiceState (fuel : nat) (service : string) (state : N)
    (t : testMgr) : option (option error * testMgr) :=
  match fuel with
  | O => None
  | S fuel =>
      match Query service t with
      | (inl err, t) =>
          Some (Some (errors_Wrap err "error querying service state"), t)
      | (inr status, t) =>
          if decide (svc.State status = state) then Some (None, t)
          else if decide (state = svc.Running) then
            Some (Start service t)
          else if decide (state = svc.Stopped) then
            match read service (svcList t) with
            | None => Some (Some (errors_New "service is not correct type"), t)
            | Some fakeService =>
                match listDependentServices (name fakeService) t with
                | inl err => Some (Some err, t)
                | inr dependentServices =>
                    match stopDependents
                            (λ dependentSvc,
                               EnsureServiceState fuel dependentSvc svc.Stopped)
                            dependentServices t with
                    | None => None
                    | Some (Some err, t) => Some (Some err, t)
                    | Some (None, t) =>
                        match Control service svc.Stop t with
                        | (inl err, t) => Some (Some err, t)
                        | (inr _, t) => Some (None, t)
                        end
                    end
                end
            end
          else Some (Some (unexpected_state_request state), t)
      end
  end.

Definition DeleteService (fuel : nat) (name : string) (t : testMgr)
  : option (option error * testMgr) :=
  match read name (svcList t) with
  | None => Some (None, t)
  | Some _ =>
      match EnsureServiceState fuel name svc.Stopped t with
      | None => None
      | Some (Some err, t) =>
          Some (Some (errors_Wrap err ("failed to stop service "
                                       +:+ quoted name)), t)
      | Some (None, t) =>
          let '(err, l) := remove name (svcList t) in
          Some (err, {| svcList := l; journal := journal t |})
      end
  end.

Definition NewTestMgr (existingServices : gmap string FakeService) : testMgr :=
  {| svcList := {| svcs := existingServices |}; journal := [] |}.

(** The loop of [NewTestMgr] over [existingServices], which enters the
    services one by one into the map of the list [l], in the order in
    which the [for ... range] statement visits them. *)
Definition registerExisting (existingServices : gmap string FakeService)
    (l : fakeServiceList) : fakeServiceList :=
  foldl (λ l entry, {| svcs := <[entry.1 := entry.2]> (svcs l) |}) l
    (range existingServices).

End testMgr.

End fake.

(** * The manager of the host: pkg/daemon/manager *)
Module manager.

(** A [winsvc.Service] value: a [*mgr.Service], or some other
    implementation of the interface. *)
Inductive Service : Type :=
  | Native (s : mgr.Service)
  | Foreign (id : N).

(** What one call of [EnumDependentServicesW] leaves behind: the return
    value [r1], the error of [Call] (always non-nil), the value of
    [*pcbBytesNeeded] after the call, and the names of the records
    written to [lpServices], whose number [*lpServicesReturned]
    receives. *)
Record EnumReply : Type :=
  { r1 : N;
    err : error;
    pcbBytesNeeded : N;
    lpServices : list string }.

(** The service control manager of the host, and the rest of the host
    with it: what the Windows API and the [mgr] package do in a state
    [OS] of the host.  A call may change the state; what other processes
    do between two calls is part of that change. *)
Class Host (OS : Type) : Type :=
  { Service_Query : Service → OS → (error + svc.Status) * OS;
    Service_Start : Service → OS → option error * OS;
    Service_Control : Service → N → OS → (error + svc.Status) * OS;
    Service_Delete : mgr.Service → OS → option error * OS;
    Service_Close : mgr.Service → OS → option error * OS;
    Mgr_CreateService :
      string → string → mgr.Config → list string → OS
      → (error + mgr.Service) * OS;
    Mgr_ListServices : OS → (error + list string) * OS;
    Mgr_OpenService : string → OS → (error + mgr.Service) * OS;
    enumDependentServicesW : N → N → N → OS → EnumReply * OS }.

(** A call on the host, as the journal records it. *)
Inductive Call : Type :=
  | CallQuery (service : Service) (reported : option N)
  | CallStart (service : Service)
  | CallControl (service : Service) (cmd : N)
  | CallDelete (service : mgr.Service)
  | CallClose (service : mgr.Service)
  | CallOpenService (name : string)
  | CallEnumDependentServices (hService : N) (cbBufSize : N) (reply : EnumReply).

(** How a Go call ends: with a value, with an error, or in a run-time
    panic. *)
Inductive result (A : Type) : Type :=
  | Ok (a : A)
  | Err (e : error)
  | Panic.
Arguments Ok {A} a.
Arguments Err {A} e.
Arguments Panic {A}.

Section manager.
Context {OS : Type} {scm : Host OS}.

(** The state a call runs in: the host, and the journal of the calls
    made on it so far, oldest first.  The journal is ghost state. *)
Record world : Type :=
  { host : OS;
    journal : list Call }.

Definition call {A : Type} (c : A → Call) (op : OS → A * OS) (w : world)
  : A * world :=
  let '(a, os) := op (host w) in
  (a, {| host := os; journal := journal w ++ [c a] |}).

Definition reported (r : error + svc.Status) : option N :=
  match r with inl _ => None | inr status => Some (svc.State status) end.

Definition Query (service : Service) : world → (error + svc.Status) * world :=
  call (λ r, CallQuery service (reported r)) (Service_Query service).
Definition Start (service : Service) : world → option error * world :=
  call (λ _, CallStart service) (Service_Start service).
Definition Control (service : Service) (cmd : N)
  : world → (error + svc.Status) * world :=
  call (λ _, CallControl service cmd) (Service_Control service cmd).
Definition Delete (service : mgr.Service) : world → option error * world :=
  call (λ _, CallDelete service) (Service_Delete service).
Definition Close (service : mgr.Service) : world → option error * world :=
  call (λ _, CallClose service) (Service_Close service).

(** The number of polls [WaitForState] makes before it gives up: the
    interval and the timeout are constants of [pkg/retry], which is not
    among the sources. *)
Variable pollBudget : nat.

(** The polling loop of [WaitForState], with [budget] polls left. *)
Fixpoint pollState (budget : nat) (service : Service) (state : N) (w : world)
  : option error * world :=
  match budget with
  | O => (Some (errors_New "transition timeout"), w)
  | S budget =>
      match Query service w with
      | (inl err, w) => (Some err, w)
      | (inr status, w) =>
          if decide (svc.State status = state) then (None, w)
          else pollState budget service state w
      end
  end.

(** Modelled from the spec: [winsvc.WaitForState] (pkg/daemon/winsvc is
    missing).  "poll Query() in a loop until the reported state equals
    target, or a retry/timeout budget is exhausted, at which point this
    is a fatal failure for that service". *)
Definition WaitForState (service : Service) (state : N) (w : world)
  : option error * world :=
  pollState pollBudget service state w.

Definition CreateService (name exepath : string) (config : mgr.Config)
    (args : list string) (w : world) : (error + Service) * world :=
  let '(r, os) := Mgr_CreateService name exepath config args (host w) in
  (match r with inl err => inl err | inr service => inr (Native service) end,
   {| host := os; journal := journal w |}).

Definition GetServices (w : world) : (error + gset string) * world :=
  let '(r, os) := Mgr_ListServices (host w) in
  let w := {| host := os; journal := journal w |} in
  match r with
  | inl err => (inl err, w)
  | inr svcList =>
      (inr (foldl (λ (svcs : gset string) service, {[service]} ∪ svcs)
              ∅ svcList), w)
  end.

Definition OpenService (name : string) : world → (error + mgr.Service) * world :=
  call (λ _, CallOpenService name) (Mgr_OpenService name).

(** [enumDependentServicesSyscall], called with a buffer of [cbBufSize]
    bytes. *)
Definition enumDependentServicesSyscall (hService dwServiceState cbBufSize : N)
  : world → EnumReply * world :=
  call (CallEnumDependentServices hService cbBufSize)
    (enumDependentServicesW hService dwServiceState cbBufSize).

Definition uint32 (n : N) : N := n mod 2 ^ 32.

(** How the sizing loop of [listDependentServices] ends. *)
Inductive LoopExit : Type :=
  | Filled (bufferLen : N) (services : list string)
  | Failed (e : error).

(** The [for] loop of [listDependentServices], entered with a buffer of
    [bufferLen] bytes.  Nothing in the loop counts the attempts; [fuel]
    bounds them, and [None] is a loop that has not left after [fuel]
    attempts. *)
Fixpoint enumLoop (fuel : nat) (serviceHandle : N) (bufferLen : N) (w : world)
  : option (LoopExit * world) :=
  match fuel with
  | O => None
  | S fuel =>
      let '(reply, w) :=
        enumDependentServicesSyscall serviceHandle windows.SERVICE_STATE_ALL
          bufferLen w in
      let bytesNeeded := uint32 (pcbBytesNeeded reply) in
      if decide (r1 reply ≠ 0) then Some (Filled bufferLen (lpServices reply), w)
      else if decide (err reply ≠ windows.ERROR_MORE_DATA) then
        Some (Failed (errors_Wrap (err reply)
                        "received unexpected error from enumDependentServicesSyscall"),
              w)
      else if decide (bytesNeeded ≤ bufferLen) then Some (Failed (err reply), w)
      else enumLoop fuel serviceHandle bytesNeeded w
  end.

(** [listDependentServices] returns a list of names of all services
    dependent on the given service.  With services returned into an
    empty buffer, [&serviceBuffer[0]] is out of range. *)
Definition listDependentServices (fuel : nat) (serviceHandle : N) (w : world)
  : option (result (list string) * world) :=
  match enumLoop fuel serviceHandle 0 w with
  | None => None
  | Some (Failed err, w) => Some (Err err, w)
  | Some (Filled bufferLen services, w) =>
      match services with
      | [] => Some (Ok [], w)
      | _ :: _ =>
          if decide (bufferLen = 0) then Some (Panic, w)
          else Some (Ok services, w)
      end
  end.

(** The loop of [EnsureServiceState] over the dependent services;
    [ensureStopped] is the recursive call. *)
Fixpoint stopDependents
    (ensureStopped : Service → world → option (result unit * world))
    (dependentServices : list string) (w : world)
  : option (result unit * world) :=
  match dependentServices with
  | [] => Some (Ok (), w)
  | dependentServiceName :: dependentServices =>
      match OpenService dependentServiceName w with
      | (inl _, w) =>
          Some (Err (errors_New ("error opening dependent service "
                                 +:+ dependentServiceName)), w)
      | (inr dependentSvc, w) =>
          match ensureStopped (Native dependentSvc) w with
          | None => None
          | Some (Panic, w) => Some (Panic, w)
          | Some (Err err, w) =>
              Some (Err (errors_Wrap err
                           ("unable to stop dependent service "
                            +:+ dependentServiceName)), w)
          | Some (Ok _, w) =>
              stopDependents ensureStopped dependentServices w
          end
      end
  end.

Definition returned (r : option error * world) : result unit * world :=
  match r with
  | (Some err, w) => (Err err, w)
  | (None, w) => (Ok (), w)
  end.

(** [EnsureServiceState] ensures the service is in the given state.
    [fuel] bounds the depth of the recursive calls and the attempts of
    each sizing loop; [None] is a run that needs more. *)
Fixpoint EnsureServiceState (fuel : nat) (service : Service) (state : N)
    (w : world) : option (result unit * world) :=
  match fuel with
  | O => None
  | S fuel =>
      match Query service w with
      | (inl err, w) =>
          Some (Err (errors_Wrap err "error querying service state"), w)
      | (inr status, w) =>
          if decide (svc.State status = state) then Some (Ok (), w)
          else if decide (state = svc.Running) then
            match Start service w with
            | (Some err, w) => Some (Err err, w)
            | (None, w) => Some (returned (WaitForState service state w))
            end
          else if decide (state = svc.Stopped) then
            match service with
            | Foreign _ =>
                Some (Err (errors_New "service is not correct type"), w)
            | Native winSvc =>
                match listDependentServices fuel (mgr.Handle winSvc) w with
                | None => None
                | Some (Panic, w) => Some (Panic, w)
                | Some (Err err, w) =>
                    Some (Err (errors_Wrap err
                                 "error finding dependent services"), w)
                | Some (Ok dependentServices, w) =>
                    match stopDependents
                            (λ dependentSvc,
                               EnsureServiceState fuel dependentSvc svc.Stopped)
                            dependentServices w with
                    | None => None
                    | Some (Panic, w) => Some (Panic, w)
                    | Some (Err err, w) => Some (Err err, w)
                    | Some (Ok _, w) =>
                        match Control service svc.Stop w with
                        | (inl err, w) => Some (Err err, w)
                        | (inr _, w) =>
                            Some (returned (WaitForState service state w))
                        end
                    end
                end
            end
          else Some (Err (unexpected_state_request state), w)
      end
  end.

(** [defer service.Close()]: the handle is closed on every way out
    once the service is open. *)
Definition deferClose (service : mgr.Service) (r : result unit * world)
  : result unit * world :=
  (r.1, (Close service r.2).2).

(** [DeleteService] marks a Windows service of the given name for
    deletion.  No-op if the service already doesn't exist. *)
Definition DeleteService (fuel : nat) (name : string) (w : world)
  : option (result unit * world) :=
  match GetServices w with
  | (inl err, w) => Some (Err err, w)
  | (inr existingSvcs, w) =>
      if decide (name ∈ existingSvcs) then
        match OpenService name w with
        | (inl err, w) =>
            Some (Err (errors_Wrap err ("failed to open service "
                                        +:+ quoted name)), w)
        | (inr service, w) =>
            match EnsureServiceState fuel (Native service) svc.Stopped w with
            | None => None
            | Some (Panic, w) => Some (deferClose service (Panic, w))
            | Some (Err err, w) =>
                Some (deferClose service
                        (Err (errors_Wrap err ("failed to stop service "
                                               +:+ quoted name)), w))
            | Some (Ok _, w) =>
                match Delete service w with
                | (Some err, w) =>
                    Some (deferClose service
                            (Err (errors_Wrap err ("failed to delete service "
                                                   +:+ quoted name)), w))
                | (None, w) => Some (deferClose service (Ok (), w))
                end
            end
        end
      else Some (Ok (), w)
  end.

End manager.
End manager.

(** * The vocabulary of the statements about the test double *)
Module fake_spec.
Import fake.

(** Every service is registered under its own name, as [CreateService]
  registers it. *)
Definition wellNamed (l : fakeServiceList) : Prop :=
map_Forall (λ k f, name f = k) (svcs l).

(** [d] is a dependent of [s]: another service, whose declared dependency
  list contains [s]. *)
Definition dependentOf (l : fakeServiceList) (d s : string) : Prop :=
d ≠ s ∧ ∃ g, svcs l !! d = Some g ∧ s ∈ mgr.Dependencies (config g).


(** [x] declares [y] as a dependency. *)
Definition declares (l : fakeServiceList) (x y : string) : Prop :=
∃ g, svcs l !! x = Some g ∧ y ∈ mgr.Dependencies (config g).

(** The recursion goes from a service to its dependents; the registry is
  acyclic when no service is reached from itself that way. *)
Definition acyclic (l : fakeServiceList) : Prop :=
∀ x, ¬ tc (λ x d, dependentOf l d x) x x.

(** What the entry [kf] of the registry adds to the dependents of
  [serviceName]. *)
Definition declaring (serviceName : string) (kf : string * FakeService)
: list string :=
if decide (kf.1 = serviceName) then []
else (λ _, kf.1) <$> filter (λ s, s = serviceName)
                       (mgr.Dependencies (config kf.2)).

(** Whether a service is stopped can be computed. *)
Global Instance isStopped_dec l k : Decision (isStopped l k).
Proof.
unfold isStopped. destruct (svcs l !! k) as [f|].
- destruct (decide (svc.State (status f) = svc.Stopped)).
  + left. eauto.
  + right. intros (f' & [= <-] & ?). done.
- right. intros (f' & [=] & _).
Defined.

(** One step of the recursion that goes on: [d] is a dependent of [x],
  and neither is stopped. *)
Definition liveDependent (l : fakeServiceList) (x d : string) : Prop :=
dependentOf l d x ∧ ¬ isStopped l x ∧ ¬ isStopped l d.

(** A set of services, none of them stopped, each with a dependent in
  the set: the services of one or more cycles.  A dependent being
  another service, such a cycle has two services at least. *)
Definition closedLive (l : fakeServiceList) (C : string → Prop) : Prop :=
∀ a, C a → is_Some (svcs l !! a) ∧ ¬ isStopped l a
           ∧ ∃ b, C b ∧ dependentOf l b a.

(** The registry is settled: a stopped service has stopped dependents
  only. *)
Definition settled (l : fakeServiceList) : Prop :=
∀ x d, isStopped l x → dependentOf l d x → isStopped l d.

(** What a run with target [svc.Stopped] may change: the registry keeps its keys, and every service its name and
  configuration; a service that is not stopped afterwards has not
  been touched. *)
Record evolves (l l' : fakeServiceList) : Prop :=
{ evolves_skeleton :
    ∀ k, (λ f, (name f, config f)) <$> svcs l' !! k
         = (λ f, (name f, config f)) <$> svcs l !! k;
  evolves_live :
    ∀ k f', svcs l' !! k = Some f' →
            svc.State (status f') ≠ svc.Stopped →
            svcs l !! k = Some f' }.

(** The calls of a loop that succeeds, in turn. *)
Inductive stoppedInTurn
  (ensureStopped : string → testMgr → option (option error * testMgr))
: list string → testMgr → testMgr → Prop :=
| stoppedInTurn_nil t : stoppedInTurn ensureStopped [] t t
| stoppedInTurn_cons d dependentSvc deps t t1 t2 :
    OpenService d t = inr dependentSvc →
    ensureStopped dependentSvc t = Some (None, t1) →
    stoppedInTurn ensureStopped deps t1 t2 →
    stoppedInTurn ensureStopped (d :: deps) t t2.


End fake_spec.

(** * The vocabulary of the statements about the manager of the host *)
Module manager_spec.
Import manager.

Section predicates.
Context {OS : Type} {scm : Host OS}.

(** The calls of a loop over the dependents that succeeds, in turn. *)
Inductive stoppedInTurn
    (ensureStopped : Service → world → option (result unit * world))
  : list string → world → world → Prop :=
  | stoppedInTurn_nil w : stoppedInTurn ensureStopped [] w w
  | stoppedInTurn_cons d dependentSvc deps w w1 w2 w3 :
      OpenService d w = (inr dependentSvc, w1) →
      ensureStopped (Native dependentSvc) w1 = Some (Ok (), w2) →
      stoppedInTurn ensureStopped deps w2 w3 →
      stoppedInTurn ensureStopped (d :: deps) w w3.

(** The state [state] is never reached: in a state of the host that
    satisfies [Inv], [Query] reports another state, and [Inv] still
    holds. *)
Definition neverReaches (service : Service) (state : N) (Inv : OS → Prop)
  : Prop :=
  ∀ os, Inv os →
        ∃ status os', Service_Query service os = (inr status, os')
                      ∧ svc.State status ≠ state ∧ Inv os'.
End predicates.

(** Attempts of the sizing loop that were answered "more data" with a
    size larger than the buffer: [resized h len attempts next] are such
    attempts from a buffer of [len] bytes on, each with a buffer of the
    size the attempt before reported, and [next] is the size the last of
    them reported ([len] when there is none). *)
Inductive resized (h : N) : N → list Call → N → Prop :=
  | resized_nil len : resized h len [] len
  | resized_cons len reply attempts next :
      r1 reply = 0 →
      err reply = windows.ERROR_MORE_DATA →
      len < uint32 (pcbBytesNeeded reply) →
      resized h (uint32 (pcbBytesNeeded reply)) attempts next →
      resized h len (CallEnumDependentServices h len reply :: attempts) next.

(** The calls that stopping a service may make: a [Query], the opening
    of a service, the enumeration of dependents and a [Control] with the
    signal [svc.Stop]; none that starts, deletes or closes a service. *)
Definition stopCall (c : Call) : Prop :=
  match c with
  | CallQuery _ _ | CallOpenService _ | CallEnumDependentServices _ _ _ => True
  | CallControl _ cmd => cmd = svc.Stop
  | CallStart _ | CallDelete _ | CallClose _ => False
  end.

End manager_spec.

(** * Registries and hosts to run the code on *)
Module scenario.

(** A service of the test double. *)
Definition service (n : string) (declared : list string) (state : N)
  : fake.FakeService :=
  {| fake.name := n;
     fake.config := {| mgr.BinaryPathName := "C:/k/" +:+ n +:+ ".exe";
                       mgr.Dependencies := declared |};
     fake.status := {| svc.State := state |} |}.

Definition registry (services : list fake.FakeService)
  : gmap string fake.FakeService :=
  list_to_map ((λ f, (fake.name f, f)) <$> services).

(** A chain: [a] depends on [b], and [b] on [c]. *)
Definition chain (a b c : N) : fake.testMgr :=
  fake.NewTestMgr
    (registry [service "a" ["b"] a; service "b" ["c"] b; service "c" [] c]).

(** Two services that depend on each other, both running. *)
Definition ring : fake.testMgr :=
  fake.NewTestMgr
    (registry [service "a" ["b"] svc.Running; service "b" ["a"] svc.Running]).

(** A running service that declares itself as a dependency. *)
Definition selfish : fake.testMgr :=
  fake.NewTestMgr (registry [service "a" ["a"] svc.Running]).

(** One service, in the state given. *)
Definition single (state : N) : fake.testMgr :=
  fake.NewTestMgr (registry [service "s" [] state]).

(** [X] and [Y] declare [Z] as a dependency, [W] does not. *)
Definition fanIn : fake.testMgr :=
  fake.NewTestMgr
    (registry [service "X" ["Z"] svc.Running; service "Y" ["W"; "Z"] svc.Running;
               service "Z" [] svc.Running; service "W" [] svc.Running]).

(** The services of the example of the specification. *)
Definition webCacheApp : fake.testMgr :=
  fake.NewTestMgr
    (registry [service "web" [] svc.Stopped; service "cache" [] svc.Stopped;
               service "app" ["web"; "cache"] svc.Stopped]).

(** The rank of the services of [chain]: dependents are lower. *)
Definition chainRank (n : string) : nat :=
  if decide (n = "c") then 2%nat else if decide (n = "b") then 1%nat else 0%nat.

(** ** Hosts *)

(** "More data": the buffer is too small, [needed] bytes are needed. *)
Definition moreData (needed : N) : manager.EnumReply :=
  {| manager.r1 := 0;
     manager.err := windows.ERROR_MORE_DATA;
     manager.pcbBytesNeeded := needed;
     manager.lpServices := [] |}.

(** Success, with the names of the services written to the buffer. *)
Definition filled (names : list string) : manager.EnumReply :=
  {| manager.r1 := 1;
     manager.err := Errno 0;
     manager.pcbBytesNeeded := 0;
     manager.lpServices := names |}.

(** A host in which nothing ever changes: every service is in the state
    [state], every request is accepted and has no effect, and the
    dependent enumeration answers [enum hService cbBufSize]. *)
Definition fixedHost (state : N) (handleOf : string → N)
    (enum : N → N → manager.EnumReply) : manager.Host unit :=
  {| manager.Service_Query := λ _ os, (inr {| svc.State := state |}, os);
     manager.Service_Start := λ _ os, (None, os);
     manager.Service_Control := λ _ _ os, (inr {| svc.State := state |}, os);
     manager.Service_Delete := λ _ os, (None, os);
     manager.Service_Close := λ _ os, (None, os);
     manager.Mgr_CreateService := λ name _ _ _ os,
       (inr {| mgr.Name := name; mgr.Handle := handleOf name |}, os);
     manager.Mgr_ListServices := λ os, (inr [], os);
     manager.Mgr_OpenService := λ name os,
       (inr {| mgr.Name := name; mgr.Handle := handleOf name |}, os);
     manager.enumDependentServicesW := λ hService _ cbBufSize os,
       (enum hService cbBufSize, os) |}.

(** A host that asks for one byte more at every attempt, until the buffer
    has [n] bytes. *)
Definition growing (n : N) : manager.Host unit :=
  fixedHost svc.Running (λ _, 1)
    (λ _ cbBufSize, if decide (cbBufSize < n) then moreData (cbBufSize + 1)
                    else filled []).

(** A host that answers "more data" and asks for no bytes at all. *)
Definition stingy : manager.Host unit :=
  fixedHost svc.Running (λ _, 1) (λ _ _, moreData 0).

(** A host whose services never leave the state [svc.Stopped]. *)
Definition frozen : manager.Host unit :=
  fixedHost svc.Stopped (λ _, 1) (λ _ _, filled []).

(** A host with two running services, [a] (handle 1) and [b] (handle 2),
    each enumerated as the dependent of the other. *)
Definition ringHandle (name : string) : N :=
  if decide (name = "a") then 1 else 2.

Definition ringHost : manager.Host unit :=
  fixedHost svc.Running ringHandle
    (λ hService cbBufSize,
       if decide (cbBufSize = 0) then moreData 36
       else filled [if decide (hService = 1) then "b" else "a"]).

(** A host that keeps the state of its services: [handle ↦ state].
    [names] are the names it knows, [dependents h] the names the
    enumeration returns for the handle [h]; a record takes 36 bytes of the
    buffer.  A start and a stop complete at once. *)
Definition tableHost (names : list string) (handleOf : string → N)
    (dependents : N → list string) : manager.Host (gmap N N) :=
  {| manager.Service_Query := λ service os,
       match service with
       | manager.Native s =>
           match os !! mgr.Handle s with
           | Some state => (inr {| svc.State := state |}, os)
           | None => (inl (Errno 1060), os)
           end
       | manager.Foreign _ => (inl (Errno 6), os)
       end;
     manager.Service_Start := λ service os,
       match service with
       | manager.Native s => (None, <[mgr.Handle s := svc.Running]> os)
       | manager.Foreign _ => (Some (Errno 6), os)
       end;
     manager.Service_Control := λ service cmd os,
       match service with
       | manager.Native s =>
           if decide (cmd = svc.Stop) then
             (inr {| svc.State := svc.Stopped |},
              <[mgr.Handle s := svc.Stopped]> os)
           else (inl (Errno 1052), os)
       | manager.Foreign _ => (inl (Errno 6), os)
       end;
     manager.Service_Delete := λ s os, (None, delete (mgr.Handle s) os);
     manager.Service_Close := λ _ os, (None, os);
     manager.Mgr_CreateService := λ name _ _ _ os,
       match os !! handleOf name with
       | Some _ => (inl (Errno 1073), os)
       | None =>
           (inr {| mgr.Name := name; mgr.Handle := handleOf name |},
            <[handleOf name := svc.Stopped]> os)
       end;
     manager.Mgr_ListServices := λ os,
       (inr (filter (λ name, is_Some (os !! handleOf name)) names), os);
     manager.Mgr_OpenService := λ name os,
       match os !! handleOf name with
       | Some _ => (inr {| mgr.Name := name; mgr.Handle := handleOf name |}, os)
       | None => (inl (Errno 1060), os)
       end;
     manager.enumDependentServicesW := λ hService _ cbBufSize os,
       let names := dependents hService in
       let needed := 36 * N.of_nat (length names) in
       (if decide (cbBufSize < needed) then moreData needed else filled names,
        os) |}.

(** [web] (handle 1) and its dependent [app] (handle 2), both running. *)
Definition webHandle (name : string) : N :=
  if decide (name = "web") then 1 else if decide (name = "app") then 2 else 3.

Definition webHost : manager.Host (gmap N N) :=
  tableHost ["web"; "app"] webHandle
    (λ h, if decide (h = 1) then ["app"] else []).

Definition webUp : gmap N N := <[1 := svc.Running]> (<[2 := svc.Running]> ∅).

Definition web : mgr.Service := {| mgr.Name := "web"; mgr.Handle := 1 |}.

Definition boot {OS : Type} (os : OS) : manager.world :=
  {| manager.host := os; manager.journal := [] |}.

(** A host that refuses what it is asked to do, with "access denied":
    every service is in the state [state], a start, a stop and a delete
    fail, no service can be opened, the listing answers [listing] and the
    dependent enumeration [enum hService cbBufSize]. *)
Definition refusing (state : N) (listing : error + list string)
    (enum : N → N → manager.EnumReply) : manager.Host unit :=
  {| manager.Service_Query := λ _ os, (inr {| svc.State := state |}, os);
     manager.Service_Start := λ _ os, (Some (Errno 5), os);
     manager.Service_Control := λ _ _ os, (inl (Errno 5), os);
     manager.Service_Delete := λ _ os, (Some (Errno 5), os);
     manager.Service_Close := λ _ os, (None, os);
     manager.Mgr_CreateService := λ _ _ _ _ os, (inl (Errno 5), os);
     manager.Mgr_ListServices := λ os, (listing, os);
     manager.Mgr_OpenService := λ _ os, (inl (Errno 1060), os);
     manager.enumDependentServicesW := λ hService _ cbBufSize os,
       (enum hService cbBufSize, os) |}.

(** The enumeration fails, and not for want of space. *)
Definition denied : manager.EnumReply :=
  {| manager.r1 := 0;
     manager.err := Errno 5;
     manager.pcbBytesNeeded := 0;
     manager.lpServices := [] |}.

End scenario.

(** * Tactics for statements about given data *)

(** A decidable statement about given data, settled by evaluation. *)
Ltac by_computation := refine (bool_decide_unpack _ _); vm_compute; exact I.

(** In evaluated form, which of the given entries a registry lookup
    returned. *)
Ltac which_service H :=
  apply elem_of_map_to_list in H; vm_compute in H;
  repeat (apply elem_of_cons in H as [H|H]; [injection H as ? ?; subst|]);
  [..|by apply elem_of_nil in H].

(** * Properties of the test double *)
Module fake_theory.
Import fake fake_spec.

Lemma appendDeclaring_eq serviceName name declared acc :
  appendDeclaring serviceName name declared acc
  = acc ++ ((λ _, name) <$> filter (λ s, s = serviceName) declared).
Proof.
  revert acc. induction declared as [|s declared IH]; intros acc; simpl.
  - by rewrite app_nil_r.
  - rewrite IH, filter_cons. case_decide; simpl; [|done].
    by rewrite <- app_assoc.
Qed.

Lemma scanServices_eq serviceName entries acc :
  scanServices serviceName entries acc
  = inr (acc ++ (entries ≫= declaring serviceName)).
Proof.
  revert acc. induction entries as [|[k f] entries IH]; intros acc.
  - simpl. by rewrite app_nil_r.
  - rewrite bind_cons. cbn [scanServices Config]. unfold declaring at 1.
    cbn [fst snd]. case_decide.
    + by rewrite IH.
    + rewrite IH, appendDeclaring_eq. by rewrite <- app_assoc.
Qed.

Lemma elem_of_declaring serviceName kf x :
  x ∈ declaring serviceName kf
  ↔ x = kf.1 ∧ x ≠ serviceName
    ∧ serviceName ∈ mgr.Dependencies (config kf.2).
Proof.
  unfold declaring. case_decide as Hk.
  - split; [intros H; inversion H|]. intros (-> & ? & _). done.
  - rewrite list_elem_of_fmap. split.
    + intros (s & -> & [-> Hs]%list_elem_of_filter). done.
    + intros (-> & _ & Hs). exists serviceName. split; [done|].
      by apply list_elem_of_filter.
Qed.

Lemma declaring_length serviceName kf :
  NoDup (mgr.Dependencies (config kf.2)) →
  (length (declaring serviceName kf) ≤ 1)%nat.
Proof.
  intros Hnd. unfold declaring. case_decide; [simpl; lia|].
  rewrite length_fmap.
  induction Hnd as [|s l Hs Hnd IH]; [simpl; lia|].
  rewrite filter_cons. case_decide; [|done]. subst s. simpl.
  destruct (filter (λ s, s = serviceName) l) as [|y l'] eqn:Hf; [simpl; lia|].
  assert (y ∈ filter (λ s, s = serviceName) l) as [-> ?]%list_elem_of_filter
    by (rewrite Hf; left).
  done.
Qed.

Section facts.
Variable range : gmap string FakeService → list (string * FakeService).
Hypothesis range_perm : ∀ m, range m ≡ₚ map_to_list m.

Lemma elem_of_range m k f : (k, f) ∈ range m ↔ m !! k = Some f.
Proof using range_perm. rewrite range_perm. apply elem_of_map_to_list. Qed.

Lemma NoDup_range_keys m : NoDup (range m).*1.
Proof using range_perm. rewrite range_perm. apply NoDup_fst_map_to_list. Qed.

(** The dependent enumeration always returns a list. *)
Lemma listDependentServices_eq serviceName t :
  listDependentServices range serviceName t
  = inr (range (svcs (svcList t)) ≫= declaring serviceName).
Proof. unfold listDependentServices. by rewrite scanServices_eq. Qed.

Lemma elem_of_listDependentServices serviceName t l x :
  listDependentServices range serviceName t = inr l →
  x ∈ l ↔ dependentOf (svcList t) x serviceName.
Proof using range_perm.
  rewrite listDependentServices_eq. intros [= <-].
  rewrite list_elem_of_bind. unfold dependentOf. split.
  - intros ([k f] & (-> & ? & ?)%elem_of_declaring & Hin%elem_of_range).
    simpl in *. eauto.
  - intros (? & g & ? & ?). exists (x, g). split.
    + by apply elem_of_declaring.
    + by apply elem_of_range.
Qed.

Lemma NoDup_listDependentServices serviceName t l :
  map_Forall (λ _ f, NoDup (mgr.Dependencies (config f))) (svcs (svcList t)) →
  listDependentServices range serviceName t = inr l →
  NoDup l.
Proof using range_perm.
  intros Hnd. rewrite listDependentServices_eq. intros [= <-].
  apply NoDup_bind.
  - intros [k1 f1] [k2 f2] y H1 H2
           (-> & _)%elem_of_declaring (Hk & _)%elem_of_declaring.
    simpl in *. subst k2.
    apply elem_of_range in H1, H2. congruence.
  - intros [k f] Hin%elem_of_range.
    specialize (Hnd _ _ Hin). simpl in Hnd.
    pose proof (declaring_length serviceName (k, f) Hnd) as Hlen.
    destruct (declaring serviceName (k, f)) as [|a [|b l']];
      [constructor| |simpl in Hlen; lia].
    apply NoDup_singleton.
  - apply NoDup_fmap_1 with (f := fst). apply NoDup_range_keys.
Qed.

(** *** One call of the engine, unfolded *)

Lemma svcList_record c t : svcList (record c t) = svcList t.
Proof. done. Qed.

Lemma journal_record c t : journal (record c t) = journal t ++ [c].
Proof. done. Qed.

Lemma Query_present service t f :
  read service (svcList t) = Some f →
  Query service t
  = (inr (status f), record (CallQuery service (Some (svc.State (status f)))) t).
Proof. unfold Query. by intros ->. Qed.

Lemma Query_absent service t :
  read service (svcList t) = None →
  Query service t
  = (inl (errors_New "not found"), record (CallQuery service None) t).
Proof. unfold Query. by intros ->. Qed.

Lemma EnsureServiceState_absent fuel service state t :
  read service (svcList t) = None →
  EnsureServiceState range (S fuel) service state t
  = Some (Some (errors_Wrap (errors_New "not found")
                  "error querying service state"),
          record (CallQuery service None) t).
Proof. intros H. simpl. by rewrite (Query_absent _ _ H). Qed.

Lemma EnsureServiceState_satisfied fuel service state t f :
  read service (svcList t) = Some f →
  svc.State (status f) = state →
  EnsureServiceState range (S fuel) service state t
  = Some (None, record (CallQuery service (Some state)) t).
Proof.
  intros H Hst. simpl. rewrite (Query_present _ _ _ H).
  rewrite decide_True by done. by rewrite Hst.
Qed.

Lemma EnsureServiceState_stop fuel service t f :
  read service (svcList t) = Some f →
  svc.State (status f) ≠ svc.Stopped →
  EnsureServiceState range (S fuel) service svc.Stopped t
  = match stopDependents
            (λ dependentSvc,
               EnsureServiceState range fuel dependentSvc svc.Stopped)
            (range (svcs (svcList t)) ≫= declaring (name f))
            (record (CallQuery service (Some (svc.State (status f)))) t) with
    | None => None
    | Some (Some err, t) => Some (Some err, t)
    | Some (None, t) =>
        match Control service svc.Stop t with
        | (inl err, t) => Some (Some err, t)
        | (inr _, t) => Some (None, t)
        end
    end.
Proof.
  intros H Hst. cbn [EnsureServiceState]. rewrite (Query_present _ _ _ H).
  rewrite decide_False by done.
  rewrite decide_False by done. rewrite decide_True by done.
  rewrite svcList_record, H, listDependentServices_eq.
  by rewrite svcList_record.
Qed.

(** *** The loop over the dependents *)

Lemma stopDependents_inv (I : testMgr → Prop) ensureStopped deps t r t' :
  (∀ d t r t', d ∈ deps → I t → ensureStopped d t = Some (r, t') → I t') →
  I t →
  stopDependents ensureStopped deps t = Some (r, t') →
  I t'.
Proof.
  revert t. induction deps as [|d deps IH]; intros t Hstep HI; simpl.
  - by intros [= <- <-].
  - unfold OpenService. destruct (read d (svcList t)); [|by intros [= <- <-]].
    destruct (ensureStopped d t) as [[[err|] t1]|] eqn:Hd; [| |done].
    + intros [= <- <-]. eapply Hstep; [left|done|done].
    + apply IH.
      * intros d0 t0 r0 t0' Hin. apply Hstep. by right.
      * eapply Hstep; [left|done|done].
Qed.

Lemma evolves_refl l : evolves l l.
Proof. by split. Qed.

Lemma evolves_trans l1 l2 l3 : evolves l1 l2 → evolves l2 l3 → evolves l1 l3.
Proof.
  intros [Hs1 Hl1] [Hs2 Hl2]. split.
  - intros k. by rewrite Hs2, Hs1.
  - intros k f Hk Hst. apply Hl1; [|done]. by apply Hl2.
Qed.

Lemma evolves_stopped l l' k : evolves l l' → isStopped l k → isStopped l' k.
Proof.
  intros [Hs Hl] (f & Hf & Hst). specialize (Hs k). rewrite Hf in Hs.
  destruct (svcs l' !! k) as [f'|] eqn:Hf'; [|done].
  exists f'. split; [done|].
  destruct (decide (svc.State (status f') = svc.Stopped)) as [|Hne]; [done|].
  specialize (Hl _ _ Hf' Hne). congruence.
Qed.

Lemma evolves_lookup l l' k f :
  evolves l l' → svcs l !! k = Some f →
  ∃ f', svcs l' !! k = Some f' ∧ name f' = name f ∧ config f' = config f.
Proof.
  intros [Hs _] Hf. specialize (Hs k). rewrite Hf in Hs.
  destruct (svcs l' !! k) as [f'|]; [|done].
  injection Hs as ??. eauto.
Qed.

Lemma evolves_lookup_inv l l' k f' :
  evolves l l' → svcs l' !! k = Some f' →
  ∃ f, svcs l !! k = Some f ∧ name f' = name f ∧ config f' = config f.
Proof.
  intros [Hs _] Hf. specialize (Hs k). rewrite Hf in Hs.
  destruct (svcs l !! k) as [f|]; [|done].
  injection Hs as ??. eauto.
Qed.

Lemma evolves_dependentOf l l' d s :
  evolves l l' → dependentOf l' d s ↔ dependentOf l d s.
Proof.
  intros Hev. unfold dependentOf. split; intros (? & g & Hg & ?).
  - destruct (evolves_lookup_inv _ _ _ _ Hev Hg) as (g' & ? & _ & Hc).
    split; [done|]. exists g'. by rewrite <- Hc.
  - destruct (evolves_lookup _ _ _ _ Hev Hg) as (g' & ? & _ & Hc).
    split; [done|]. exists g'. by rewrite Hc.
Qed.

Lemma evolves_wellNamed l l' : evolves l l' → wellNamed l → wellNamed l'.
Proof.
  intros Hev Hwn k f' Hf'.
  destruct (evolves_lookup_inv _ _ _ _ Hev Hf') as (f & Hf & -> & _).
  by apply Hwn in Hf.
Qed.

Lemma evolves_stop l k f :
  svcs l !! k = Some f → evolves l (write k (setState svc.Stopped f) l).
Proof.
  intros Hf. split; simpl.
  - intros k'. destruct (decide (k = k')) as [<-|].
    + by rewrite lookup_insert_eq, Hf.
    + by rewrite lookup_insert_ne.
  - intros k' f'. destruct (decide (k = k')) as [<-|].
    + rewrite lookup_insert_eq. intros [= <-]. done.
    + by rewrite lookup_insert_ne.
Qed.

(** [Control(svc.Stop)], case by case. *)
Lemma Control_stop service t :
  let t0 := record (CallControl service svc.Stop) t in
  match Control service svc.Stop t with
  | (inl _, t') => t' = t0
  | (inr _, t') =>
      ∃ f, read service (svcList t) = Some f
           ∧ svc.State (status f) ≠ svc.Stopped
           ∧ t' = {| svcList := write service (setState svc.Stopped f) (svcList t);
                     journal := journal t0 |}
  end.
Proof.
  unfold Control. cbn zeta. rewrite svcList_record.
  destruct (read service (svcList t)) as [f|]; [|done].
  rewrite decide_True by done.
  repeat case_decide; try done. eauto.
Qed.

Lemma stopDependents_journal ensureStopped deps t r t' :
  (∀ d t r t', ensureStopped d t = Some (r, t') →
               ∃ j, journal t' = journal t ++ j) →
  stopDependents ensureStopped deps t = Some (r, t') →
  ∃ j, journal t' = journal t ++ j.
Proof.
  intros Hstep.
  apply (stopDependents_inv (λ t', ∃ j, journal t' = journal t ++ j)).
  - intros d t0 r0 t0' _ [j Hj] [j' Hj']%Hstep.
    exists (j ++ j'). by rewrite Hj', Hj, app_assoc.
  - exists []. by rewrite app_nil_r.
Qed.

(** The journal only grows. *)
Lemma EnsureServiceState_journal fuel service state t r t' :
  EnsureServiceState range fuel service state t = Some (r, t') →
  ∃ j, journal t' = journal t ++ j.
Proof.
  revert service state t r t'.
  induction fuel as [|fuel IH]; intros service state t r t'; [done|].
  cbn [EnsureServiceState]. unfold Query.
  destruct (read service (svcList t)) as [f|] eqn:Hf;
    [|intros [= <- <-]; eexists; apply journal_record].
  case_decide; [intros [= <- <-]; eexists; apply journal_record|].
  case_decide.
  { unfold Start. cbn zeta. rewrite !svcList_record, Hf.
    intros [= <- <-]. simpl. eexists. by rewrite <- app_assoc. }
  case_decide; [|intros [= <- <-]; eexists; apply journal_record].
  rewrite svcList_record, Hf, listDependentServices_eq.
  destruct (stopDependents _ _ _) as [[[err|] t1]|] eqn:Hloop; [| |done].
  - intros [= <- <-].
    apply stopDependents_journal in Hloop as [j Hj]; [|by eauto].
    rewrite Hj, journal_record, <- app_assoc. eauto.
  - apply stopDependents_journal in Hloop as [j Hj]; [|by eauto].
    pose proof (Control_stop service t1) as HC.
    destruct (Control service svc.Stop t1) as [[err|st] t2].
    + intros [= <- <-]. rewrite HC, journal_record, Hj, journal_record.
      rewrite <- !app_assoc. eauto.
    + destruct HC as (f1 & _ & _ & ->). intros [= <- <-]. simpl.
      rewrite Hj, journal_record, <- !app_assoc. eauto.
Qed.

(** A run with target [svc.Stopped] leaves the registry as [evolves]
    allows. *)
Lemma EnsureServiceState_evolves fuel service t r t' :
  EnsureServiceState range fuel service svc.Stopped t = Some (r, t') →
  evolves (svcList t) (svcList t').
Proof.
  revert service t r t'.
  induction fuel as [|fuel IH]; intros service t r t'; [done|].
  destruct (read service (svcList t)) as [f|] eqn:Hf.
  2:{ rewrite EnsureServiceState_absent by done.
      intros [= <- <-]. apply evolves_refl. }
  destruct (decide (svc.State (status f) = svc.Stopped)) as [Hst|Hst].
  { rewrite (EnsureServiceState_satisfied _ _ _ _ f) by done.
    intros [= <- <-]. apply evolves_refl. }
  rewrite (EnsureServiceState_stop _ _ _ f) by done.
  destruct (stopDependents _ _ _) as [[r1 t1]|] eqn:Hloop; [|done].
  assert (evolves (svcList t) (svcList t1)) as Hev.
  { apply (stopDependents_inv (λ t1, evolves (svcList t) (svcList t1)))
      in Hloop; [done| |apply evolves_refl].
    intros d t0 r0 t0' _ Hev Hd. eapply evolves_trans; [done|]. by eapply IH. }
  destruct r1 as [err|]; [by intros [= <- <-]|].
  pose proof (Control_stop service t1) as HC.
  destruct (Control service svc.Stop t1) as [[err|st] t2].
  - intros [= <- <-]. by rewrite HC.
  - destruct HC as (f1 & Hf1 & _ & ->). intros [= <- <-]. simpl.
    eapply evolves_trans; [done|]. by apply evolves_stop.
Qed.

(** A run with target [svc.Stopped] that succeeds leaves the service
    stopped. *)
Lemma EnsureServiceState_stopped fuel service t t' :
  EnsureServiceState range fuel service svc.Stopped t = Some (None, t') →
  isStopped (svcList t') service.
Proof.
  destruct fuel as [|fuel]; [done|].
  destruct (read service (svcList t)) as [f|] eqn:Hf.
  2:{ by rewrite EnsureServiceState_absent. }
  destruct (decide (svc.State (status f) = svc.Stopped)) as [Hst|Hst].
  { rewrite (EnsureServiceState_satisfied _ _ _ _ f) by done.
    intros [= <-]. by exists f. }
  rewrite (EnsureServiceState_stop _ _ _ f) by done.
  destruct (stopDependents _ _ _) as [[[err|] t1]|]; [done| |done].
  pose proof (Control_stop service t1) as HC.
  destruct (Control service svc.Stop t1) as [[err|st] t2]; [done|].
  destruct HC as (f1 & Hf1 & _ & ->). intros [= <-]. simpl.
  exists (setState svc.Stopped f1). split; [apply lookup_insert_eq|done].
Qed.

(** *** Termination on an acyclic registry *)

(** An acyclic declared dependency relation is acyclic in the sense of
    [acyclic], which does not count a service that declares itself. *)
Lemma acyclic_declared l : (∀ x, ¬ tc (declares l) x x) → acyclic l.
Proof.
  intros Hdecl x Hx. apply (Hdecl x).
  assert (∀ a b, tc (λ x d, dependentOf l d x) a b → tc (declares l) b a) as Hrev.
  { intros a b Hab. induction Hab as [a b (_ & g & ? & ?)|a c b (_ & g & ? & ?) _ IH].
    - apply tc_once. by exists g.
    - eapply tc_r; [done|]. by exists g. }
  by apply Hrev.
Qed.

(** A rank that goes down from a service to its dependents shows the
    registry acyclic. *)
Lemma acyclic_ranked l (rank : string → nat) :
  (∀ x d, dependentOf l d x → (rank d < rank x)%nat) → acyclic l.
Proof.
  intros Hrank x Hx.
  assert (∀ a b, tc (λ x d, dependentOf l d x) a b → (rank b < rank a)%nat)
    as Hlt.
  { intros a b Hab. induction Hab as [a b Hab|a c b Hac _ IH].
    - by apply Hrank.
    - apply Hrank in Hac. lia. }
  apply Hlt in Hx. lia.
Qed.

Lemma registered_length (m : gmap string FakeService) (path : list string) :
  NoDup path → (∀ y, y ∈ path → is_Some (m !! y)) →
  (length path ≤ size m)%nat.
Proof.
  intros Hnd Hin. rewrite <- length_map_to_list.
  rewrite <- (length_fmap fst). apply submseteq_length.
  apply NoDup_submseteq; [done|]. intros y [f Hf]%Hin.
  apply list_elem_of_fmap. exists (y, f). split; [done|].
  by apply elem_of_map_to_list.
Qed.

Lemma stopDependents_returns (I : testMgr → Prop) ensureStopped deps t :
  (∀ d t, d ∈ deps → I t →
          ∃ r t', ensureStopped d t = Some (r, t') ∧ I t') →
  I t →
  ∃ r t', stopDependents ensureStopped deps t = Some (r, t').
Proof.
  revert t. induction deps as [|d deps IH]; intros t Hstep HI; simpl.
  - eauto.
  - unfold OpenService. destruct (read d (svcList t)); [|eauto].
    destruct (Hstep d t) as (r1 & t1 & -> & HI1); [left|done|].
    destruct r1; [eauto|]. apply IH; [|done].
    intros d0 t0 Hin. apply Hstep. by right.
Qed.

Lemma EnsureServiceState_returns_on_path l0 fuel path service t :
  wellNamed l0 → acyclic l0 →
  evolves l0 (svcList t) →
  NoDup path → service ∉ path →
  (∀ y, y ∈ path → is_Some (svcs l0 !! y)) →
  (∀ y, y ∈ path → tc (λ x d, dependentOf l0 d x) y service) →
  (size (svcs l0) < fuel + length path)%nat →
  ∃ r t', EnsureServiceState range fuel service svc.Stopped t = Some (r, t').
Proof using range_perm.
  intros Hwn Hacyc. revert path service t.
  induction fuel as [|fuel IH]; intros path service t Hev Hnd Hnotin Hdom Hreach Hsize.
  { pose proof (registered_length _ _ Hnd Hdom). simpl in Hsize. lia. }
  destruct (read service (svcList t)) as [f|] eqn:Hf.
  2:{ rewrite EnsureServiceState_absent by done. eauto. }
  destruct (decide (svc.State (status f) = svc.Stopped)) as [Hst|Hst].
  { rewrite (EnsureServiceState_satisfied _ _ _ _ f) by done. eauto. }
  rewrite (EnsureServiceState_stop _ _ _ f) by done.
  pose proof (evolves_wellNamed _ _ Hev Hwn _ _ Hf) as Hname.
  simpl in Hname.
  destruct (stopDependents_returns (λ t1, evolves l0 (svcList t1))
              (λ d, EnsureServiceState range fuel d svc.Stopped)
              (range (svcs (svcList t)) ≫= declaring (name f))
              (record (CallQuery service (Some (svc.State (status f)))) t))
    as (r1 & t1 & ->); [|done|].
  - intros d t0 Hd Hev0.
    assert (dependentOf l0 d service) as Hdep.
    { apply (evolves_dependentOf _ _ _ _ Hev).
      rewrite <- Hname.
      by apply (elem_of_listDependentServices (name f) t
                  _ d (listDependentServices_eq _ _)). }
    destruct (IH (service :: path) d t0) as (r & t' & Hrun); [done| | | | | |].
    + by constructor.
    + intros [->|Hin]%elem_of_cons.
      * by destruct Hdep.
      * apply (Hacyc d). eapply tc_r; [by apply Hreach|done].
    + intros y [->|Hin]%elem_of_cons; [|by auto].
      destruct (evolves_lookup_inv _ _ _ _ Hev Hf) as (? & ? & _). eauto.
    + intros y [->|Hin]%elem_of_cons; [by apply tc_once|].
      eapply tc_r; [by apply Hreach|done].
    + simpl. lia.
    + exists r, t'. split; [done|].
      eapply evolves_trans; [done|]. by eapply EnsureServiceState_evolves.
  - destruct r1; [eauto|]. destruct (Control service svc.Stop t1) as [[?|?] ?]; eauto.
Qed.

(** On an acyclic registry a call with target [svc.Stopped] returns;
    as many levels as there are services, and one more, are enough. *)
Lemma EnsureServiceState_returns service t :
  wellNamed (svcList t) → acyclic (svcList t) →
  ∃ r t', EnsureServiceState range (S (size (svcs (svcList t)))) service
            svc.Stopped t = Some (r, t').
Proof using range_perm.
  intros Hwn Hacyc.
  apply (EnsureServiceState_returns_on_path (svcList t) _ []);
    [done|done|apply evolves_refl|constructor|apply not_elem_of_nil
    | | |simpl; lia];
    intros y Hy; by apply not_elem_of_nil in Hy.
Qed.

(** *** Completed calls of the loop *)

Lemma stopDependents_run (I : testMgr → Prop) (le : relation testMgr)
    ensureStopped deps t r t' :
  Reflexive le → Transitive le →
  (∀ d t0 r0 t0', d ∈ deps → I t0 → ensureStopped d t0 = Some (r0, t0') →
                  I t0' ∧ le t0 t0') →
  I t →
  stopDependents ensureStopped deps t = Some (r, t') →
  I t' ∧ le t t'
  ∧ (r = None →
     ∀ d, d ∈ deps →
          ∃ t0 t0', I t0 ∧ le t t0
                    ∧ ensureStopped d t0 = Some (None, t0') ∧ le t0' t').
Proof.
  intros Hrefl Htrans.
  revert t. induction deps as [|d deps IH]; intros t Hstep HI; simpl.
  - intros [= <- <-]. split_and!; [done|done|].
    intros _ d Hd. by apply not_elem_of_nil in Hd.
  - unfold OpenService. destruct (read d (svcList t)).
    2:{ intros [= <- <-]. done. }
    destruct (ensureStopped d t) as [[[err|] t1]|] eqn:Hd; [| |done].
    + intros [= <- <-]. destruct (Hstep d t _ _ ltac:(left) HI Hd). done.
    + destruct (Hstep d t _ _ ltac:(left) HI Hd) as [HI1 Hle1].
      intros Hrest. apply IH in Hrest as (HI' & Hle' & Hall); [|by eauto using list_elem_of_further|done].
      split_and!; [done|by etrans|].
      intros Hr d0 [->|Hin]%elem_of_cons.
      * exists t, t1. done.
      * destruct (Hall Hr d0 Hin) as (t0 & t0' & ? & ? & ? & ?).
        exists t0, t0'. split_and!; [done|by etrans|done|done].
Qed.

Lemma stopDependents_no_error (I : testMgr → Prop) ensureStopped deps t r t' :
  (∀ d t0 r0 t0', d ∈ deps → I t0 → ensureStopped d t0 = Some (r0, t0') →
                  I t0' ∧ r0 = None) →
  (∀ d t0, d ∈ deps → I t0 → is_Some (read d (svcList t0))) →
  I t →
  stopDependents ensureStopped deps t = Some (r, t') →
  r = None.
Proof.
  revert t. induction deps as [|d deps IH]; intros t Hstep Hopen HI; simpl.
  - by intros [= <- <-].
  - unfold OpenService.
    destruct (Hopen d t ltac:(left) HI) as [f ->].
    destruct (ensureStopped d t) as [[r1 t1]|] eqn:Hd; [|done].
    destruct (Hstep d t _ _ ltac:(left) HI Hd) as [HI1 ->].
    apply IH; [by eauto using list_elem_of_further..|done].
Qed.

Lemma stopDependents_success ensureStopped deps t t' :
  stopDependents ensureStopped deps t = Some (None, t')
  ↔ stoppedInTurn ensureStopped deps t t'.
Proof.
  split.
  - revert t. induction deps as [|d deps IH]; intros t; simpl.
    + intros [= <-]. constructor.
    + destruct (OpenService d t) as [|h] eqn:Ho; [done|].
      destruct (ensureStopped h t) as [[[err|] t1]|] eqn:Hd; [done| |done].
      intros Hrest. econstructor; eauto.
  - induction 1 as [|d h deps t t1 t2 Ho Hd _ IH]; simpl; [done|].
    by rewrite Ho, Hd.
Qed.

(** *** Services stopped by a run are reached through live dependents *)

Lemma liveDependent_evolves l l' x d :
  evolves l l' → liveDependent l' x d → liveDependent l x d.
Proof.
  intros Hev (Hd & Hx & Hd'). split_and!.
  - by apply (evolves_dependentOf _ _ _ _ Hev).
  - intros H. by apply Hx, (evolves_stopped l).
  - intros H. by apply Hd', (evolves_stopped l).
Qed.

Lemma rtc_liveDependent_live l x y :
  rtc (liveDependent l) x y → ¬ isStopped l y → ¬ isStopped l x.
Proof. intros [->|(z & (_ & ? & _) & _)]%rtc_inv; done. Qed.

Lemma not_isStopped l k f :
  svcs l !! k = Some f → svc.State (status f) ≠ svc.Stopped → ¬ isStopped l k.
Proof. intros Hf Hst (f' & Hf' & Hst'). congruence. Qed.

Lemma EnsureServiceState_reaches fuel service t r t' y :
  wellNamed (svcList t) →
  EnsureServiceState range fuel service svc.Stopped t = Some (r, t') →
  isStopped (svcList t') y → ¬ isStopped (svcList t) y →
  rtc (liveDependent (svcList t)) service y.
Proof using range_perm.
  revert service t r t' y.
  induction fuel as [|fuel IH]; intros service t r t' y Hwn; [done|].
  destruct (read service (svcList t)) as [f|] eqn:Hf.
  2:{ rewrite EnsureServiceState_absent by done. by intros [= <- <-]. }
  destruct (decide (svc.State (status f) = svc.Stopped)) as [Hst|Hst].
  { rewrite (EnsureServiceState_satisfied _ _ _ _ f) by done.
    by intros [= <- <-]. }
  rewrite (EnsureServiceState_stop _ _ _ f) by done.
  pose proof (Hwn _ _ Hf) as Hname. simpl in Hname.
  set (deps := range (svcs (svcList t)) ≫= declaring (name f)).
  destruct (stopDependents _ _ _) as [[r1 t1]|] eqn:Hloop; [|done].
  apply (stopDependents_inv
           (λ t1, evolves (svcList t) (svcList t1)
                  ∧ ∀ y, isStopped (svcList t1) y → ¬ isStopped (svcList t) y →
                         ∃ d, d ∈ deps ∧ rtc (liveDependent (svcList t)) d y))
    in Hloop as [Hev Hnew].
  - assert (∀ y, isStopped (svcList t1) y → ¬ isStopped (svcList t) y →
                 rtc (liveDependent (svcList t)) service y) as Hnew'.
    { intros y' Hy' Hny'. destruct (Hnew y' Hy' Hny') as (d & Hd & Hrtc).
      eapply rtc_l; [|done]. split_and!.
      - rewrite <- Hname.
        by apply (elem_of_listDependentServices (name f) t
                    _ d (listDependentServices_eq _ _)).
      - by eapply not_isStopped.
      - by eapply rtc_liveDependent_live. }
    destruct r1 as [err|]; [intros [= <- <-]; by auto|].
    pose proof (Control_stop service t1) as HC.
    destruct (Control service svc.Stop t1) as [[err|st] t2].
    + intros [= <- <-]. rewrite HC. by auto.
    + destruct HC as (f1 & Hf1 & _ & ->). intros [= <- <-]. simpl.
      intros (g & Hg & Hgst) Hny.
      destruct (decide (service = y)) as [<-|Hne]; [done|].
      simpl in Hg. rewrite lookup_insert_ne in Hg by done.
      apply Hnew'; [|done]. by exists g.
  - intros d t0 r0 t0' Hd [Hev Hnew] Hrun. split.
    + eapply evolves_trans; [done|]. by eapply EnsureServiceState_evolves.
    + intros y' Hy' Hny'.
      destruct (decide (isStopped (svcList t0) y')) as [Hy0|Hy0]; [by auto|].
      exists d. split; [done|].
      eapply rtc_subrel; [|eapply IH; [|done|done|done]].
      * intros a b. by apply liveDependent_evolves.
      * by eapply evolves_wellNamed.
  - split; [apply evolves_refl|]. intros y' Hy' Hny'. done.
Qed.

Lemma stopDependents_reaches fuel deps t r t' :
  wellNamed (svcList t) →
  stopDependents (λ d, EnsureServiceState range fuel d svc.Stopped) deps t
  = Some (r, t') →
  evolves (svcList t) (svcList t')
  ∧ ∀ y, isStopped (svcList t') y → ¬ isStopped (svcList t) y →
         ∃ d, d ∈ deps ∧ rtc (liveDependent (svcList t)) d y.
Proof using range_perm.
  intros Hwn Hloop.
  apply (stopDependents_inv
           (λ t1, evolves (svcList t) (svcList t1)
                  ∧ ∀ y, isStopped (svcList t1) y → ¬ isStopped (svcList t) y →
                         ∃ d, d ∈ deps ∧ rtc (liveDependent (svcList t)) d y))
    in Hloop; [done| |].
  - intros d t0 r0 t0' Hd [Hev Hnew] Hrun. split.
    + eapply evolves_trans; [done|]. by eapply EnsureServiceState_evolves.
    + intros y' Hy' Hny'.
      destruct (decide (isStopped (svcList t0) y')) as [Hy0|Hy0]; [by auto|].
      exists d. split; [done|].
      eapply rtc_subrel; [|eapply EnsureServiceState_reaches; [|done|done|done]].
      * intros a b. by apply liveDependent_evolves.
      * by eapply evolves_wellNamed.
  - split; [apply evolves_refl|]. intros y' Hy' Hny'. done.
Qed.

(** *** Live cycles *)

Lemma closedLive_of_cycle l s :
  tc (liveDependent l) s s → ∃ C, closedLive l C ∧ C s.
Proof.
  intros Hcyc.
  exists (λ y, rtc (liveDependent l) s y ∧ rtc (liveDependent l) y s).
  split; [|done].
  intros a [Hsa Has].
  assert (tc (liveDependent l) a a) as Ha.
  { eapply tc_rtc_l; [done|]. eapply tc_rtc_r; done. }
  assert (∃ b, liveDependent l a b ∧ rtc (liveDependent l) b a)
    as (b & Hab & Hba).
  { inversion Ha as [? ? H|? b ? H H']; subst.
    - exists a. split; [done|constructor].
    - exists b. split; [done|]. by apply tc_rtc. }
  assert (∃ c, liveDependent l c a) as (c & Hca).
  { apply rtc_inv_r in Hba as [->|(c & _ & ?)]; eauto. }
  destruct Hab as (Hdep & Hla & _). destruct Hca as ((_ & g & Hg & _) & _).
  split_and!; [by eauto|done|].
  exists b. split_and!; [|by etrans|done].
  eapply rtc_r; [done|]. split_and!; [done..|].
  apply rtc_inv in Hba as [->|(z & (_ & ? & _) & _)]; done.
Qed.

Lemma closedLive_stop l C k f :
  closedLive l C → ¬ C k → svcs l !! k = Some f →
  closedLive (write k (setState svc.Stopped f) l) C.
Proof.
  intros Hcl Hk Hf a Ha. destruct (Hcl a Ha) as (Hsome & Hlive & b & Hb & Hdep).
  assert (k ≠ a) as Hne by (by intros ->).
  split_and!.
  - simpl. by rewrite lookup_insert_ne.
  - unfold isStopped. simpl. by rewrite lookup_insert_ne.
  - exists b. split; [done|].
    by apply (evolves_dependentOf _ _ _ _ (evolves_stop _ _ _ Hf)).
Qed.

Lemma Control_stop_ok service t f :
  read service (svcList t) = Some f →
  svc.State (status f) ≠ svc.Stopped →
  (∀ k g, svcs (svcList t) !! k = Some g → k ≠ service →
          name f ∈ mgr.Dependencies (config g) →
          svc.State (status g) ≠ svc.Running) →
  Control service svc.Stop t
  = (inr {| svc.State := svc.Stopped |},
     {| svcList := write service (setState svc.Stopped f) (svcList t);
        journal := journal t ++ [CallControl service svc.Stop] |}).
Proof.
  intros Hf Hst Hdeps. unfold Control. cbn zeta.
  rewrite svcList_record, Hf.
  rewrite decide_True by done. rewrite decide_False by done.
  rewrite decide_False; [done|].
  intros ([k g] & Hin & Hk & Hd & Hrun)%Exists_exists. simpl in *.
  apply elem_of_map_to_list in Hin. by eapply Hdeps.
Qed.

(** Two facts, by induction on the depth of the run.  A run that returns
    leaves every live cycle as it is and was not asked for a service of
    one; and a run on a registered service that returns, returns
    success. *)
Lemma EnsureServiceState_sound fuel :
  (∀ C service t r t',
     wellNamed (svcList t) → closedLive (svcList t) C →
     EnsureServiceState range fuel service svc.Stopped t = Some (r, t') →
     closedLive (svcList t') C ∧ ¬ C service)
  ∧ (∀ service t r t',
       wellNamed (svcList t) → is_Some (svcs (svcList t) !! service) →
       EnsureServiceState range fuel service svc.Stopped t = Some (r, t') →
       r = None).
Proof using range_perm.
  induction fuel as [|fuel [IHZ IHR]]; [done|].
  assert (∀ C service t r t',
     wellNamed (svcList t) → closedLive (svcList t) C →
     EnsureServiceState range (S fuel) service svc.Stopped t = Some (r, t') →
     closedLive (svcList t') C ∧ ¬ C service) as HZ.
  { intros C service t r t' Hwn Hcl.
    destruct (read service (svcList t)) as [f|] eqn:Hf.
    2:{ rewrite EnsureServiceState_absent by done. intros [= <- <-].
        split; [done|]. intros [[f' Hf'] _]%Hcl. unfold read in Hf. congruence. }
    destruct (decide (svc.State (status f) = svc.Stopped)) as [Hst|Hst].
    { rewrite (EnsureServiceState_satisfied _ _ _ _ f) by done.
      intros [= <- <-]. split; [done|].
      intros (_ & Hlive & _)%Hcl. apply Hlive. by exists f. }
    rewrite (EnsureServiceState_stop _ _ _ f) by done.
    pose proof (Hwn _ _ Hf) as Hname. simpl in Hname.
    set (deps := range (svcs (svcList t)) ≫= declaring (name f)).
    assert (∀ d, d ∈ deps ↔ dependentOf (svcList t) d service) as Hdeps.
    { intros d. rewrite <- Hname.
      apply (elem_of_listDependentServices (name f) t),
        listDependentServices_eq. }
    destruct (stopDependents _ _ _) as [[r1 t1]|] eqn:Hloop; [|done].
    intros Hrun.
    pose proof Hloop as Hloop'.
    apply (stopDependents_run
             (λ t1, evolves (svcList t) (svcList t1)
                    ∧ closedLive (svcList t1) C)
             (λ _ _, True)) in Hloop' as ([Hev Hcl1] & _ & Hall);
      [|done|done| |split; [apply evolves_refl|done]].
    2:{ intros d t0 r0 t0' Hd [Hev0 Hcl0] Hrun0. split; [|done]. split.
        - eapply evolves_trans; [done|]. by eapply EnsureServiceState_evolves.
        - eapply IHZ; [|done|done]. by eapply evolves_wellNamed. }
    assert (¬ C service) as HnC.
    { intros HC. destruct (Hcl _ HC) as (_ & _ & b & Hb & Hdep).
      apply Hdeps in Hdep.
      assert (r1 = None) as ->.
      { eapply (stopDependents_no_error
                  (λ t1, evolves (svcList t) (svcList t1))); [| | |done].
        - intros d t0 r0 t0' Hd Hev0 Hrun0. cbv beta in Hrun0. split.
          + apply (evolves_trans _ _ _ Hev0).
            by eapply EnsureServiceState_evolves.
          + eapply IHR; [by eapply evolves_wellNamed| |done].
            apply Hdeps in Hd as (_ & g & Hg & _).
            destruct (evolves_lookup _ _ _ _ Hev0 Hg) as (? & ? & _). eauto.
        - intros d t0 Hd Hev0.
          apply Hdeps in Hd as (_ & g & Hg & _).
          destruct (evolves_lookup _ _ _ _ Hev0 Hg) as (? & ? & _).
          unfold read. eauto.
        - apply evolves_refl. }
      destruct (Hall eq_refl b Hdep) as (t0 & t0' & [Hev0 Hcl0] & _ & Hrun0 & _).
      eapply IHZ in Hrun0 as [_ Hnb]; [by apply Hnb| |done].
      by eapply evolves_wellNamed. }
    split; [|done].
    destruct r1 as [err|]; [by injection Hrun as <- <-|].
    pose proof (Control_stop service t1) as HCtl.
    destruct (Control service svc.Stop t1) as [[err|st] t2].
    - injection Hrun as <- <-. by rewrite HCtl.
    - destruct HCtl as (f1 & Hf1 & _ & ->). injection Hrun as <- <-.
      by apply closedLive_stop. }
  split; [done|].
  intros service t r t' Hwn [f Hf] Hrun. pose proof Hrun as Hrun0.
  destruct (decide (svc.State (status f) = svc.Stopped)) as [Hst|Hst].
  { rewrite (EnsureServiceState_satisfied _ _ _ _ f) in Hrun by done.
    by injection Hrun as <- <-. }
  rewrite (EnsureServiceState_stop _ _ _ f) in Hrun by done.
  pose proof (Hwn _ _ Hf) as Hname. simpl in Hname.
  set (deps := range (svcs (svcList t)) ≫= declaring (name f)) in *.
  assert (∀ d, d ∈ deps ↔ dependentOf (svcList t) d service) as Hdeps.
  { intros d. rewrite <- Hname.
    apply (elem_of_listDependentServices (name f) t),
      listDependentServices_eq. }
  destruct (stopDependents _ _ _) as [[r1 t1]|] eqn:Hloop; [|done].
  assert (r1 = None) as ->.
  { eapply (stopDependents_no_error
              (λ t1, evolves (svcList t) (svcList t1))); [| | |done].
    - intros d t0 r0 t0' Hd Hev0 Hrun1. cbv beta in Hrun1. split.
      + apply (evolves_trans _ _ _ Hev0).
        by eapply EnsureServiceState_evolves.
      + eapply IHR; [by eapply evolves_wellNamed| |done].
        apply Hdeps in Hd as (_ & g & Hg & _).
        destruct (evolves_lookup _ _ _ _ Hev0 Hg) as (? & ? & _). eauto.
    - intros d t0 Hd Hev0.
      apply Hdeps in Hd as (_ & g & Hg & _).
      destruct (evolves_lookup _ _ _ _ Hev0 Hg) as (? & ? & _).
      unfold read. eauto.
    - apply evolves_refl. }
  pose proof Hloop as Hloop'.
  apply stopDependents_reaches in Hloop' as [Hev Hnew]; [|done].
  apply (stopDependents_run (λ _, True)
           (λ a b, evolves (svcList a) (svcList b))) in Hloop
    as (_ & _ & Hall).
  2:{ intros a. apply evolves_refl. }
  2:{ intros a b c. apply evolves_trans. }
  2:{ intros d t0 r0 t0' _ _ Hrun1. split; [done|].
      by eapply EnsureServiceState_evolves. }
  2:done.
  specialize (Hall eq_refl).
  destruct (evolves_lookup _ _ _ _ Hev Hf) as (f1 & Hf1 & Hname1 & _).
  rewrite (Control_stop_ok _ _ f1) in Hrun; [by injection Hrun as <- <-|done| |].
  - intros Hst1.
    destruct (Hnew service) as (d & Hd & Hrtc);
      [by exists f1|by eapply not_isStopped|].
    destruct (closedLive_of_cycle (svcList t) service) as (C & HC & HCs).
    { eapply tc_rtc_r; [|done]. apply tc_once. split_and!.
      - by apply Hdeps.
      - by eapply not_isStopped.
      - eapply rtc_liveDependent_live; [done|]. by eapply not_isStopped. }
    by destruct (HZ _ _ _ _ _ Hwn HC Hrun0).
  - intros k g Hg Hk Hin.
    assert (dependentOf (svcList t1) k service) as Hdep.
    { split; [done|]. exists g. split; [done|]. congruence. }
    apply (evolves_dependentOf _ _ _ _ Hev), Hdeps in Hdep.
    destruct (Hall k Hdep) as (t0 & t0' & _ & _ & Hrun1 & Hev1).
    apply EnsureServiceState_stopped in Hrun1.
    apply (evolves_stopped _ _ _ Hev1) in Hrun1 as (g' & Hg' & Hst').
    assert (g' = g) as -> by congruence. by rewrite Hst'.
Qed.

(** A call for a service of a live cycle never returns, whatever the
    depth allowed. *)
Lemma EnsureServiceState_diverges fuel service t :
  wellNamed (svcList t) →
  tc (liveDependent (svcList t)) service service →
  EnsureServiceState range fuel service svc.Stopped t = None.
Proof using range_perm.
  intros Hwn (C & HC & Hs)%closedLive_of_cycle.
  destruct (EnsureServiceState _ _ _ _ _) as [[r t']|] eqn:Hrun; [|done].
  by destruct (proj1 (EnsureServiceState_sound fuel) _ _ _ _ _ Hwn HC Hrun).
Qed.

(** A call for a registered service that returns, returns success. *)
Lemma EnsureServiceState_succeeds fuel service t r t' :
  wellNamed (svcList t) → is_Some (svcs (svcList t) !! service) →
  EnsureServiceState range fuel service svc.Stopped t = Some (r, t') →
  r = None.
Proof using range_perm. apply EnsureServiceState_sound. Qed.

(** *** Stopped services have stopped dependents *)


(** What one call with target [svc.Stopped] does for a service that is
    not stopped: the loop has called the engine for every dependent in
    turn, every call has returned success, the dependents are stopped,
    and in that state [Control(svc.Stop)] is sent; or the loop has given
    up with an error and [Control] is not sent. *)
Lemma EnsureServiceState_stop_order fuel service t f r t' :
  read service (svcList t) = Some f →
  svc.State (status f) ≠ svc.Stopped →
  EnsureServiceState range (S fuel) service svc.Stopped t = Some (r, t') →
  let t1 := record (CallQuery service (Some (svc.State (status f)))) t in
  ∃ deps, listDependentServices range (name f) t1 = inr deps
  ∧ ((∃ err, r = Some err
             ∧ stopDependents
                 (λ d, EnsureServiceState range fuel d svc.Stopped) deps t1
               = Some (Some err, t'))
     ∨ (∃ tk,
          stoppedInTurn (λ d, EnsureServiceState range fuel d svc.Stopped)
            deps t1 tk
          ∧ evolves (svcList t) (svcList tk)
          ∧ (∀ d, d ∈ deps → isStopped (svcList tk) d)
          ∧ (Control service svc.Stop tk).2 = t'
          ∧ r = match (Control service svc.Stop tk).1 with
                | inl err => Some err
                | inr _ => None
                end)).
Proof.
  intros Hf Hst. rewrite (EnsureServiceState_stop _ _ _ f) by done.
  intros Hrun t1. rewrite listDependentServices_eq. eexists. split; [done|].
  destruct (stopDependents _ _ _) as [[[err|] tk]|] eqn:Hloop; [| |done].
  { left. injection Hrun as <- <-. eauto. }
  right. exists tk.
  pose proof Hloop as Hchain. apply stopDependents_success in Hchain.
  apply (stopDependents_run (λ _, True)
           (λ a b, evolves (svcList a) (svcList b))) in Hloop
    as (_ & Hev & Hall); [|intros a; apply evolves_refl
                          |intros a b c; apply evolves_trans| |done].
  2:{ intros d t0 r0 t0' _ _ Hrun1. split; [done|].
      by eapply EnsureServiceState_evolves. }
  split_and!; [done|done| | |].
  - intros d Hd. destruct (Hall eq_refl d Hd) as (t0 & t0' & _ & _ & Hd1 & Hev1).
    eapply evolves_stopped; [done|]. by eapply EnsureServiceState_stopped.
  - destruct (Control service svc.Stop tk) as [[?|?] ?]; by injection Hrun as <- <-.
  - destruct (Control service svc.Stop tk) as [[?|?] ?]; by injection Hrun as <- <-.
Qed.

Lemma EnsureServiceState_settled fuel service t r t' :
  wellNamed (svcList t) → settled (svcList t) →
  EnsureServiceState range fuel service svc.Stopped t = Some (r, t') →
  settled (svcList t').
Proof using range_perm.
  revert service t r t'.
  induction fuel as [|fuel IH]; intros service t r t' Hwn Hset; [done|].
  destruct (read service (svcList t)) as [f|] eqn:Hf.
  2:{ rewrite EnsureServiceState_absent by done. by intros [= <- <-]. }
  destruct (decide (svc.State (status f) = svc.Stopped)) as [Hst|Hst].
  { rewrite (EnsureServiceState_satisfied _ _ _ _ f) by done.
    by intros [= <- <-]. }
  intros Hrun.
  destruct (EnsureServiceState_stop_order _ _ _ _ _ _ Hf Hst Hrun)
    as (deps & Hdeps & Hcases).
  assert (∀ r1 t1,
            stopDependents (λ d, EnsureServiceState range fuel d svc.Stopped)
              deps (record (CallQuery service (Some (svc.State (status f)))) t)
            = Some (r1, t1) →
            settled (svcList t1)) as Hloop.
  { intros r1 t1 Hloop.
    apply (stopDependents_inv
             (λ t1, evolves (svcList t) (svcList t1) ∧ settled (svcList t1)))
      in Hloop as [_ ?]; [done| |by split; [apply evolves_refl|]].
    intros d t0 r0 t0' _ [Hev0 Hset0] Hrun0. split.
    - apply (evolves_trans _ _ _ Hev0). by eapply EnsureServiceState_evolves.
    - eapply IH; [|done|done]. by eapply evolves_wellNamed. }
  destruct Hcases as [(err & _ & Hfail)|(tk & Hchain & Hev & Hstopped & Ht' & _)];
    [by eauto|].
  apply stopDependents_success, Hloop in Hchain.
  pose proof (Control_stop service tk) as HC.
  destruct (Control service svc.Stop tk) as [[err|st] t2]; simpl in Ht'; subst t2.
  { by rewrite HC. }
  destruct HC as (f1 & Hf1 & _ & ->). simpl.
  pose proof (evolves_stop _ _ _ Hf1) as Hev'.
  intros x d Hx Hd. apply (evolves_dependentOf _ _ _ _ Hev') in Hd.
  apply (evolves_stopped _ _ _ Hev').
  destruct (decide (x = service)) as [->|Hne].
  - apply Hstopped.
    apply (elem_of_listDependentServices _ _ _ d Hdeps).
    rewrite svcList_record. apply (evolves_dependentOf _ _ _ _ Hev).
    by rewrite (Hwn _ _ Hf).
  - eapply Hchain; [|done]. destruct Hx as (g & Hg & ?).
    simpl in Hg. rewrite lookup_insert_ne in Hg by done. by exists g.
Qed.


(** [Control] journals the call and nothing else. *)
Lemma Control_journal service cmd t :
  journal (Control service cmd t).2 = journal t ++ [CallControl service cmd].
Proof.
  unfold Control. cbn zeta. rewrite svcList_record.
  destruct (read service (svcList t)); [|done].
  repeat case_decide; done.
Qed.

(** *** The other targets, and deletion *)

Lemma EnsureServiceState_start fuel service t f :
  read service (svcList t) = Some f →
  svc.State (status f) ≠ svc.Running →
  EnsureServiceState range (S fuel) service svc.Running t
  = Some (None,
          {| svcList := write service (setState svc.Running f) (svcList t);
             journal := journal t
                        ++ [CallQuery service (Some (svc.State (status f)));
                            CallStart service] |}).
Proof.
  intros Hf Hst. cbn [EnsureServiceState]. rewrite (Query_present _ _ _ Hf).
  rewrite decide_False by done. rewrite decide_True by done.
  unfold Start. cbn zeta. rewrite !svcList_record, Hf. simpl.
  by rewrite <- app_assoc.
Qed.

Lemma EnsureServiceState_unsupported fuel service state t f :
  read service (svcList t) = Some f →
  svc.State (status f) ≠ state →
  state ≠ svc.Running → state ≠ svc.Stopped →
  EnsureServiceState range (S fuel) service state t
  = Some (Some (unexpected_state_request state),
          record (CallQuery service (Some (svc.State (status f)))) t).
Proof.
  intros Hf Hst Hr Hs. cbn [EnsureServiceState].
  rewrite (Query_present _ _ _ Hf). by rewrite !decide_False.
Qed.

(** A call that returns success leaves the service in the state asked
    for. *)
Lemma EnsureServiceState_reached fuel service state t t' :
  EnsureServiceState range fuel service state t = Some (None, t') →
  ∃ f', read service (svcList t') = Some f' ∧ svc.State (status f') = state.
Proof.
  destruct fuel as [|fuel]; [done|].
  destruct (read service (svcList t)) as [f|] eqn:Hf.
  2:{ by rewrite EnsureServiceState_absent. }
  destruct (decide (svc.State (status f) = state)) as [Hst|Hst].
  { rewrite (EnsureServiceState_satisfied _ _ _ _ f) by done.
    intros [= <-]. eauto. }
  destruct (decide (state = svc.Running)) as [->|Hr].
  { rewrite (EnsureServiceState_start _ _ _ f) by done.
    intros [= <-]. eexists. split; [apply lookup_insert_eq|done]. }
  destruct (decide (state = svc.Stopped)) as [->|Hs].
  { intros (f' & ? & ?)%EnsureServiceState_stopped. eauto. }
  by rewrite (EnsureServiceState_unsupported _ _ _ _ f).
Qed.

Lemma DeleteService_absent fuel name t :
  read name (svcList t) = None →
  DeleteService range fuel name t = Some (None, t).
Proof. unfold DeleteService. by intros ->. Qed.

Lemma DeleteService_present fuel name t f r t1 :
  read name (svcList t) = Some f →
  EnsureServiceState range fuel name svc.Stopped t = Some (r, t1) →
  DeleteService range fuel name t
  = Some (match r with
          | Some err =>
              (Some (errors_Wrap err ("failed to stop service " +:+ quoted name)),
               t1)
          | None =>
              (None,
               {| svcList := {| svcs := delete name (svcs (svcList t1)) |};
                  journal := journal t1 |})
          end).
Proof.
  intros Hf Hrun. unfold DeleteService. rewrite Hf, Hrun.
  destruct r as [err|]; [done|].
  apply EnsureServiceState_evolves in Hrun.
  destruct (evolves_lookup _ _ _ _ Hrun Hf) as (f1 & Hf1 & _).
  unfold remove. by rewrite Hf1.
Qed.

End facts.
End fake_theory.

(** * Properties of the manager of the host *)
Module manager_theory.
Import manager manager_spec.

Section facts.
Context {OS : Type} {scm : Host OS}.
Variable pollBudget : nat.
Local Abbreviation world := (@manager.world OS).

Lemma call_eq {A : Type} (c : A → Call) (op : OS → A * OS) (w : world) :
  call c op w
  = ((op (host w)).1,
     {| host := (op (host w)).2;
        journal := journal w ++ [c (op (host w)).1] |}).
Proof. unfold call. by destruct (op (host w)). Qed.

Lemma Query_journal service w r w' :
  Query service w = (r, w') →
  journal w' = journal w ++ [CallQuery service (reported r)].
Proof. unfold Query. rewrite call_eq. by intros [= <- <-]. Qed.

Lemma Start_journal service w r w' :
  Start service w = (r, w') → journal w' = journal w ++ [CallStart service].
Proof. unfold Start. rewrite call_eq. by intros [= <- <-]. Qed.

Lemma Control_journal_on_host service cmd w r w' :
  Control service cmd w = (r, w') →
  journal w' = journal w ++ [CallControl service cmd].
Proof. unfold Control. rewrite call_eq. by intros [= <- <-]. Qed.

(** *** The polling loop *)

Lemma pollState_polls budget service state w r w' :
  pollState budget service state w = (r, w') →
  ∃ polls, journal w' = journal w ++ polls
           ∧ (length polls ≤ budget)%nat
           ∧ Forall (λ c, ∃ rep, c = CallQuery service rep) polls
           ∧ (r = None → ∃ polls', polls = polls' ++ [CallQuery service (Some state)]).
Proof.
  revert w. induction budget as [|budget IH]; intros w; simpl.
  - intros [= <- <-]. exists []. rewrite app_nil_r.
    split_and!; [done|done|constructor|done].
  - destruct (Query service w) as [[e|status] w1] eqn:HQ.
    + intros [= <- <-]. apply Query_journal in HQ.
      exists [CallQuery service (reported (inl e))].
      split_and!; [done|simpl; lia|repeat constructor; eauto|done].
    + apply Query_journal in HQ. case_decide as Hst.
      * intros [= <- <-]. exists [CallQuery service (Some state)].
        split_and!; [by rewrite HQ, <- Hst|simpl; lia
                    |repeat constructor; eauto|].
        intros _. by exists [].
      * intros (polls & Hj & Hlen & Hall & Hlast)%IH.
        exists (CallQuery service (reported (inr status)) :: polls).
        split_and!.
        -- by rewrite Hj, HQ, <- app_assoc.
        -- simpl. lia.
        -- constructor; eauto.
        -- intros [polls' ->]%Hlast.
           by exists (CallQuery service (reported (inr status)) :: polls').
Qed.

Lemma pollState_timeout Inv budget service state w :
  neverReaches service state Inv → Inv (host w) →
  ∃ w', pollState budget service state w
        = (Some (errors_New "transition timeout"), w')
        ∧ Inv (host w')
        ∧ ∃ polls, journal w' = journal w ++ polls ∧ length polls = budget.
Proof.
  intros Hnever. revert w. induction budget as [|budget IH]; intros w HInv; simpl.
  - exists w. split_and!; [done|done|]. exists []. by rewrite app_nil_r.
  - destruct (Hnever _ HInv) as (status & os' & HQ & Hst & HInv').
    unfold Query at 1. rewrite call_eq, HQ. simpl.
    rewrite decide_False by done.
    destruct (IH {| host := os';
                    journal := journal w ++ [CallQuery service (Some (svc.State status))] |}
                HInv')
      as (w' & -> & ? & polls & Hj & Hlen).
    exists w'. split_and!; [done|done|].
    exists (CallQuery service (Some (svc.State status)) :: polls).
    split; [|simpl; lia]. rewrite Hj. simpl. by rewrite <- app_assoc.
Qed.

(** *** One call of the engine, unfolded *)

Lemma EnsureServiceState_query_error fuel service state w e w1 :
  Query service w = (inl e, w1) →
  EnsureServiceState pollBudget (S fuel) service state w
  = Some (Err (errors_Wrap e "error querying service state"), w1).
Proof. intros HQ. simpl. by rewrite HQ. Qed.

Lemma EnsureServiceState_satisfied_on_host fuel service state w status w1 :
  Query service w = (inr status, w1) →
  svc.State status = state →
  EnsureServiceState pollBudget (S fuel) service state w = Some (Ok (), w1).
Proof. intros HQ Hst. simpl. rewrite HQ. by rewrite decide_True. Qed.

Lemma EnsureServiceState_unsupported_on_host fuel service state w status w1 :
  Query service w = (inr status, w1) →
  svc.State status ≠ state →
  state ≠ svc.Running → state ≠ svc.Stopped →
  EnsureServiceState pollBudget (S fuel) service state w
  = Some (Err (unexpected_state_request state), w1).
Proof.
  intros HQ Hst Hr Hs. simpl. rewrite HQ. by rewrite !decide_False.
Qed.

Lemma EnsureServiceState_start_on_host fuel service w status w1 :
  Query service w = (inr status, w1) →
  svc.State status ≠ svc.Running →
  EnsureServiceState pollBudget (S fuel) service svc.Running w
  = Some (match Start service w1 with
          | (Some err, w) => (Err err, w)
          | (None, w) => returned (WaitForState pollBudget service svc.Running w)
          end).
Proof.
  intros HQ Hst. cbn [EnsureServiceState]. rewrite HQ.
  rewrite decide_False by done.
  rewrite decide_True by done. by destruct (Start service w1) as [[?|] ?].
Qed.

Lemma EnsureServiceState_stop_on_host fuel winSvc w status w1 :
  Query (Native winSvc) w = (inr status, w1) →
  svc.State status ≠ svc.Stopped →
  EnsureServiceState pollBudget (S fuel) (Native winSvc) svc.Stopped w
  = match listDependentServices fuel (mgr.Handle winSvc) w1 with
    | None => None
    | Some (Panic, w) => Some (Panic, w)
    | Some (Err err, w) =>
        Some (Err (errors_Wrap err "error finding dependent services"), w)
    | Some (Ok dependentServices, w) =>
        match stopDependents
                (λ dependentSvc,
                   EnsureServiceState pollBudget fuel dependentSvc svc.Stopped)
                dependentServices w with
        | None => None
        | Some (Panic, w) => Some (Panic, w)
        | Some (Err err, w) => Some (Err err, w)
        | Some (Ok _, w) =>
            match Control (Native winSvc) svc.Stop w with
            | (inl err, w) => Some (Err err, w)
            | (inr _, w) =>
                Some (returned (WaitForState pollBudget (Native winSvc)
                                  svc.Stopped w))
            end
        end
    end.
Proof.
  intros HQ Hst. cbn [EnsureServiceState]. rewrite HQ.
  rewrite decide_False by done. rewrite decide_False by done.
  by rewrite decide_True.
Qed.

Lemma returned_ok (r : option error * world) (w' : world) :
  returned r = (Ok (), w') → r = (None, w').
Proof. destruct r as [[?|] ?]; simpl; congruence. Qed.

(** A call that returns success has just seen [Query] report the
    state asked for. *)
Lemma EnsureServiceState_ok_queried fuel service state w w' :
  EnsureServiceState pollBudget fuel service state w = Some (Ok (), w') →
  ∃ j, journal w' = j ++ [CallQuery service (Some state)].
Proof.
  assert (∀ w0, returned (WaitForState pollBudget service state w0) = (Ok (), w') →
                ∃ j, journal w' = j ++ [CallQuery service (Some state)]) as Hwait.
  { intros w0 Hw%returned_ok. apply pollState_polls in Hw
      as (polls & Hj & _ & _ & Hlast).
    destruct (Hlast eq_refl) as [polls' ->].
    exists (journal w0 ++ polls'). by rewrite Hj, app_assoc. }
  destruct fuel as [|fuel]; [done|]. cbn [EnsureServiceState].
  destruct (Query service w) as [[e|status] w1] eqn:HQ; [done|].
  apply Query_journal in HQ.
  case_decide as Hst.
  { intros [= <-]. exists (journal w). by rewrite HQ, <- Hst. }
  case_decide as Hrun.
  { destruct (Start service w1) as [[?|] w2]; [done|].
    intros [= Hw]. by eapply Hwait. }
  case_decide as Hstop; [|done].
  destruct service as [winSvc|]; [|done].
  destruct (listDependentServices _ _ _) as [[[deps| |] w2]|]; [|done..].
  destruct (stopDependents _ _ _) as [[[[]| |] w3]|]; [|done..].
  destruct (Control _ _ _) as [[?|?] w4]; [done|].
  intros [= Hw]. by eapply Hwait.
Qed.

(** *** The sizing loop of the dependent enumeration *)

Lemma enumLoop_step fuel h len w :
  let reply := (enumDependentServicesW h windows.SERVICE_STATE_ALL len (host w)).1 in
  let w1 := {| host := (enumDependentServicesW h windows.SERVICE_STATE_ALL len
                          (host w)).2;
               journal := journal w ++ [CallEnumDependentServices h len reply] |} in
  enumLoop (S fuel) h len w
  = if decide (r1 reply ≠ 0) then Some (Filled len (lpServices reply), w1)
    else if decide (err reply ≠ windows.ERROR_MORE_DATA) then
      Some (Failed (errors_Wrap (err reply)
                      "received unexpected error from enumDependentServicesSyscall"),
            w1)
    else if decide (uint32 (pcbBytesNeeded reply) ≤ len) then
      Some (Failed (err reply), w1)
    else enumLoop fuel h (uint32 (pcbBytesNeeded reply)) w1.
Proof.
  cbn [enumLoop]. unfold enumDependentServicesSyscall. by rewrite call_eq.
Qed.

(** How the loop leaves: after attempts that were each answered "more
    data" with a larger size, and were each followed by an attempt with
    a buffer of exactly that size, a last attempt succeeds, or fails
    with another error, or is answered "more data" with a size that is
    not larger than the buffer. *)
Lemma enumLoop_exit fuel h len w exit w' :
  enumLoop fuel h len w = Some (exit, w') →
  ∃ attempts size reply,
    journal w' = journal w ++ attempts ++ [CallEnumDependentServices h size reply]
    ∧ resized h len attempts size
    ∧ match exit with
      | Filled bufferLen services =>
          r1 reply ≠ 0 ∧ bufferLen = size ∧ services = lpServices reply
      | Failed e =>
          r1 reply = 0
          ∧ ((err reply ≠ windows.ERROR_MORE_DATA
              ∧ e = errors_Wrap (err reply)
                      "received unexpected error from enumDependentServicesSyscall")
             ∨ (err reply = windows.ERROR_MORE_DATA
                ∧ uint32 (pcbBytesNeeded reply) ≤ size
                ∧ e = err reply))
      end.
Proof.
  revert len w. induction fuel as [|fuel IH]; intros len w; [done|].
  rewrite enumLoop_step. cbn zeta.
  set (reply := (enumDependentServicesW h windows.SERVICE_STATE_ALL len (host w)).1).
  set (os' := (enumDependentServicesW h windows.SERVICE_STATE_ALL len (host w)).2).
  case_decide as Hr1.
  { intros [= <- <-]. exists [], len, reply.
    split_and!; [done|constructor|done|done|done]. }
  case_decide as Herr.
  { intros [= <- <-]. exists [], len, reply.
    split_and!; [done|constructor|done|by left]. }
  case_decide as Hsize.
  { intros [= <- <-]. exists [], len, reply.
    split_and!; [done|constructor|done|by right]. }
  intros (attempts & size & reply' & Hj & Hres & Hexit)%IH.
  exists (CallEnumDependentServices h len reply :: attempts), size, reply'.
  split_and!; [|constructor; [done|done|lia|done]|done].
  rewrite Hj. simpl. by rewrite <- app_assoc.
Qed.

Lemma uint32_lt n : uint32 n < 2 ^ 32.
Proof. unfold uint32. by apply N.mod_lt. Qed.

(** The sizes grow and stay below [2 ^ 32]: the loop leaves within
    [2 ^ 32 + 1] attempts. *)
Lemma enumLoop_returns fuel h len w :
  (N.to_nat (2 ^ 32 - len) < fuel)%nat →
  ∃ exit w', enumLoop fuel h len w = Some (exit, w').
Proof.
  revert len w. induction fuel as [|fuel IH]; intros len w Hfuel; [lia|].
  rewrite enumLoop_step. cbn zeta.
  repeat case_decide; eauto.
  apply IH.
  pose proof (uint32_lt
    (pcbBytesNeeded
       (enumDependentServicesW h windows.SERVICE_STATE_ALL len (host w)).1)).
  lia.
Qed.

Lemma listDependentServices_returns fuel h w :
  (N.to_nat (2 ^ 32) < fuel)%nat →
  ∃ r w', listDependentServices fuel h w = Some (r, w').
Proof.
  intros Hfuel. unfold listDependentServices.
  destruct (enumLoop_returns fuel h 0 w) as (exit & w' & ->).
  { by rewrite N.sub_0_r. }
  destruct exit as [bufferLen [|? ?]|?]; [eauto| |eauto].
  case_decide; eauto.
Qed.

(** No services returned is a result, not an error. *)
Lemma listDependentServices_none fuel h w bufferLen w' :
  enumLoop fuel h 0 w = Some (Filled bufferLen [], w') →
  listDependentServices fuel h w = Some (Ok [], w').
Proof. unfold listDependentServices. by intros ->. Qed.

(** *** The order of a stop *)

Lemma stopDependents_success_on_host ensureStopped deps (w w' : world) :
  stopDependents ensureStopped deps w = Some (Ok (), w')
  ↔ stoppedInTurn ensureStopped deps w w'.
Proof.
  split.
  - revert w. induction deps as [|d deps IH]; intros w; simpl.
    + intros [= <-]. constructor.
    + destruct (OpenService d w) as [[?|dependentSvc] w1] eqn:Ho; [done|].
      destruct (ensureStopped (Native dependentSvc) w1)
        as [[[[]| |] w2]|] eqn:Hd; [|done..].
      intros Hrest. econstructor; eauto.
  - induction 1 as [|d dependentSvc deps w w1 w2 w3 Ho Hd _ IH]; simpl; [done|].
    by rewrite Ho, Hd.
Qed.


(** *** Deletion *)

Lemma elem_of_foldl_names (names : list string) (acc : gset string) x :
  x ∈ foldl (λ (svcs : gset string) service, {[service]} ∪ svcs) acc names
  ↔ x ∈ acc ∨ x ∈ names.
Proof.
  revert acc. induction names as [|n names IH]; intros acc; simpl.
  - rewrite elem_of_nil. tauto.
  - rewrite IH, elem_of_union, elem_of_singleton, elem_of_cons. tauto.
Qed.

Lemma GetServices_listed w names os' :
  Mgr_ListServices (host w) = (inr names, os') →
  ∃ existingSvcs,
    GetServices w = (inr existingSvcs, {| host := os'; journal := journal w |})
    ∧ ∀ x, x ∈ existingSvcs ↔ x ∈ names.
Proof.
  intros HL. unfold GetServices. rewrite HL. eexists. split; [done|].
  intros x. rewrite elem_of_foldl_names, elem_of_empty. tauto.
Qed.





(** *** Termination and divergence *)

Lemma stopDependents_returns_on_host ensureStopped deps (w : world) :
  (∀ d w0 y w1, d ∈ deps → OpenService d w0 = (inr y, w1) →
                ∃ r w', ensureStopped (Native y) w1 = Some (r, w')) →
  ∃ r w', stopDependents ensureStopped deps w = Some (r, w').
Proof.
  revert w. induction deps as [|d deps IH]; intros w Hstep; simpl; [eauto|].
  destruct (OpenService d w) as [[?|y] w1] eqn:Ho; [eauto|].
  destruct (Hstep d w y w1) as (r1 & w2 & ->); [left|done|].
  destruct r1 as [[]| |]; [|eauto..].
  apply IH. intros d0 w0 y0 w3 Hin. apply Hstep. by right.
Qed.

(** With a rank that goes down from a service to the services its
    enumeration names, every call returns. *)
Lemma EnsureServiceState_returns_ranked (rank : mgr.Service → nat)
    fuel service state w :
  (∀ winSvc fuel0 w0 deps w1 d w2 y w3,
     listDependentServices fuel0 (mgr.Handle winSvc) w0 = Some (Ok deps, w1) →
     d ∈ deps → OpenService d w2 = (inr y, w3) →
     (rank y < rank winSvc)%nat) →
  (match service with Native winSvc => rank winSvc | Foreign _ => O end
   + N.to_nat (2 ^ 32) + 1 < fuel)%nat →
  ∃ r w', EnsureServiceState pollBudget fuel service state w = Some (r, w').
Proof.
  intros Hrank. revert service state w.
  induction fuel as [|fuel IH]; intros service state w Hfuel; [lia|].
  cbn [EnsureServiceState].
  destruct (Query service w) as [[?|status] w1]; [eauto|].
  case_decide; [eauto|].
  case_decide.
  { destruct (Start service w1) as [[?|] ?]; [eauto|].
    destruct (returned _) as [? ?]; eauto. }
  case_decide; [|eauto].
  destruct service as [winSvc|]; [|eauto].
  destruct (listDependentServices_returns fuel (mgr.Handle winSvc) w1)
    as (rl & w2 & Hlist); [lia|].
  rewrite Hlist. destruct rl as [deps| |]; [|eauto..].
  destruct (stopDependents_returns_on_host
              (λ d, EnsureServiceState pollBudget fuel d svc.Stopped) deps w2)
    as (r3 & w3 & ->).
  { intros d w0 y w4 Hd Hopen. apply IH.
    pose proof (Hrank _ _ _ _ _ _ _ _ _ Hlist Hd Hopen). lia. }
  destruct r3 as [[]| |]; [|eauto..].
  destruct (Control _ _ _) as [[?|?] ?]; [eauto|].
  destruct (returned _) as [? ?]; eauto.
Qed.

(** With services that are never stopped and whose enumeration always
    names another of them first, no call for one of them returns. *)
Lemma EnsureServiceState_diverges_cycle (C : mgr.Service → Prop)
    (Inv : OS → Prop) fuel winSvc w :
  (∀ x w0, C x → Inv (host w0) →
           ∃ status w1, Query (Native x) w0 = (inr status, w1)
                        ∧ svc.State status ≠ svc.Stopped ∧ Inv (host w1)) →
  (∀ x fuel0 w0 r w1,
     C x → Inv (host w0) →
     listDependentServices fuel0 (mgr.Handle x) w0 = Some (r, w1) →
     ∃ d rest y w2, r = Ok (d :: rest)
                    ∧ OpenService d w1 = (inr y, w2)
                    ∧ C y ∧ Inv (host w2)) →
  C winSvc → Inv (host w) →
  EnsureServiceState pollBudget fuel (Native winSvc) svc.Stopped w = None.
Proof.
  intros HQ Hlist. revert winSvc w.
  induction fuel as [|fuel IH]; intros winSvc w HC HInv; [done|].
  destruct (HQ _ _ HC HInv) as (status & w1 & HQ1 & Hst & HInv1).
  rewrite (EnsureServiceState_stop_on_host _ _ _ _ _ HQ1 Hst).
  destruct (listDependentServices fuel (mgr.Handle winSvc) w1)
    as [[rl w2]|] eqn:Hl; [|done].
  destruct (Hlist _ _ _ _ _ HC HInv1 Hl)
    as (d & rest & y & w3 & -> & Hopen & HCy & HInv3).
  simpl. rewrite Hopen. by rewrite IH.
Qed.

End facts.
End manager_theory.

(** * The claims *)

(** C7. [CreateService] of the test double: when a service of that name
    exists the call fails with "service already exists" and the manager is
    left exactly as it was, registry and journal; when none exists the call
    succeeds, the new service is registered under the name, stopped, with the
    executable path and the declared dependencies given, and every other
    service is as before.  So a second creation with the same name fails and
    leaves the first as it was. *)
Theorem C7_create_conflict (name exepath : string) (config : mgr.Config)
    (args : list string) (t : fake.testMgr) :
  (∀ f, fake.read name (fake.svcList t) = Some f →
        fake.CreateService name exepath config args t
        = (inl (errors_New "service already exists"), t))
  ∧ (fake.read name (fake.svcList t) = None →
     ∃ t', fake.CreateService name exepath config args t = (inr name, t')
           ∧ fake.read name (fake.svcList t')
             = Some {| fake.name := name;
                       fake.config :=
                         {| mgr.BinaryPathName := exepath;
                            mgr.Dependencies := mgr.Dependencies config |};
                       fake.status := {| svc.State := svc.Stopped |} |}
           ∧ (∀ k, k ≠ name →
                   fake.read k (fake.svcList t') = fake.read k (fake.svcList t))
           ∧ fake.journal t' = fake.journal t
           ∧ ∀ exepath' config' args',
               fake.CreateService name exepath' config' args' t'
               = (inl (errors_New "service already exists"), t')).
Proof.
  split.
  - intros f Hf. unfold fake.CreateService. by rewrite Hf.
  - intros Hnone. unfold fake.CreateService. rewrite Hnone.
    eexists. split; [done|]. simpl. unfold fake.read. simpl.
    split_and!; [apply lookup_insert_eq| |done|].
    + intros k Hk. by rewrite lookup_insert_ne.
    + intros exepath' config' args'. by rewrite lookup_insert_eq.
Qed.

Lemma C7_create_conflict_witness :
  let t := scenario.single svc.Running in
  fake.read "s" (fake.svcList t) = Some (scenario.service "s" [] svc.Running)
  ∧ fake.read "web" (fake.svcList t) = None
  ∧ fake.CreateService "s" "C:/k/other.exe"
      {| mgr.BinaryPathName := ""; mgr.Dependencies := ["web"] |} [] t
    = (inl (errors_New "service already exists"), t)
  ∧ ∃ t', fake.CreateService "web" "C:/k/web.exe"
            {| mgr.BinaryPathName := ""; mgr.Dependencies := [] |} [] t
          = (inr "web", t')
          ∧ fake.read "web" (fake.svcList t')
            = Some (scenario.service "web" [] svc.Stopped).
Proof.
  intros t.
  assert (fake.read "s" (fake.svcList t) = Some (scenario.service "s" [] svc.Running))
    as Hs by (vm_compute; reflexivity).
  assert (fake.read "web" (fake.svcList t) = None) as Hweb by (vm_compute; reflexivity).
  split_and!; [done|done| |].
  - exact (proj1 (C7_create_conflict "s" "C:/k/other.exe"
                    {| mgr.BinaryPathName := ""; mgr.Dependencies := ["web"] |} [] t)
             _ Hs).
  - destruct (proj2 (C7_create_conflict "web" "C:/k/web.exe"
                       {| mgr.BinaryPathName := ""; mgr.Dependencies := [] |} [] t)
                Hweb) as (t' & Hc & Hr & _).
    exists t'. split; [done|]. exact Hr.
Defined.



(** C5, as stated, fails on the test double: the service [a] of
    [scenario.selfish] declares [a] as a dependency, so it is one of the
    services whose declared dependency list contains [a], and the
    enumeration of [a] returns no name at all. *)
Lemma C5_self_dependency_not_returned :
  let t := scenario.selfish in
  (∃ f, fake.svcs (fake.svcList t) !! "a" = Some f
        ∧ "a" ∈ mgr.Dependencies (fake.config f))
  ∧ fake.listDependentServices map_to_list "a" t = inr [].
Proof.
  split; [|by vm_compute].
  exists (scenario.service "a" ["a"] svc.Running).
  split; [by vm_compute|left].
Qed.

(** C5, amended.  In the test double the dependent enumeration of [Z]
    always returns a list, never an error; the names in it are exactly the
    names of the services other than [Z] whose declared dependency list
    contains [Z]; no name is returned twice when no dependency list names a
    service twice; so, when [X] and [Y] are the dependents of [Z], the list
    is [X], [Y] in some order.  An empty list is a result like any other.
    In the manager of the host, a sizing loop that ends in success with no
    service returned makes the enumeration return the empty list, and no
    error. *)
Theorem C5_enumeration :
  (∀ (range : gmap string fake.FakeService → list (string * fake.FakeService))
     (Z : string) (t : fake.testMgr),
     (∀ m, range m ≡ₚ map_to_list m) →
     ∃ l, fake.listDependentServices range Z t = inr l
          ∧ (∀ n, n ∈ l ↔ fake_spec.dependentOf (fake.svcList t) n Z)
          ∧ (map_Forall (λ _ f, NoDup (mgr.Dependencies (fake.config f)))
               (fake.svcs (fake.svcList t)) →
             NoDup l
             ∧ ∀ X Y, X ≠ Y →
                      (∀ n, fake_spec.dependentOf (fake.svcList t) n Z
                            ↔ n = X ∨ n = Y) →
                      l ≡ₚ [X; Y]))
  ∧ (∀ (OS : Type) (H : manager.Host OS) fuel h (w w' : manager.world) bufferLen,
       manager.enumLoop fuel h 0 w = Some (manager.Filled bufferLen [], w') →
       manager.listDependentServices fuel h w = Some (manager.Ok [], w')).
Proof.
  split.
  - intros range Z t Hperm.
    exists (range (fake.svcs (fake.svcList t)) ≫= fake_spec.declaring Z).
    pose proof (fake_theory.listDependentServices_eq range Z t) as Heq.
    split_and!; [done| |].
    + intros n. by apply (fake_theory.elem_of_listDependentServices range Hperm Z t).
    + intros Hnd.
      pose proof (fake_theory.NoDup_listDependentServices range Hperm Z t _ Hnd Heq)
        as Hl.
      split; [done|]. intros X Y HXY Hdeps.
      apply NoDup_Permutation; [done| |].
      * apply NoDup_cons. split; [|apply NoDup_singleton].
        by intros ->%list_elem_of_singleton.
      * intros n.
        rewrite (fake_theory.elem_of_listDependentServices range Hperm Z t _ n Heq).
        rewrite Hdeps, elem_of_cons, list_elem_of_singleton. done.
  - intros OS H fuel h w w' bufferLen.
    apply manager_theory.listDependentServices_none.
Qed.

Lemma C5_enumeration_witness :
  let t := scenario.fanIn in
  (∃ l, fake.listDependentServices map_to_list "Z" t = inr l ∧ l ≡ₚ ["X"; "Y"])
  ∧ (∃ l, fake.listDependentServices map_to_list "W" t = inr l ∧ l ≡ₚ ["Y"])
  ∧ manager.listDependentServices (scm := scenario.frozen) 1 1 (scenario.boot ())
    = Some (manager.Ok [],
            {| manager.host := ();
               manager.journal :=
                 [manager.CallEnumDependentServices 1 0 (scenario.filled [])] |}).
Proof.
  intros t. destruct C5_enumeration as [Hfake Hreal].
  assert (map_Forall (λ _ f, NoDup (mgr.Dependencies (fake.config f)))
            (fake.svcs (fake.svcList t))) as Hnd.
  { by_computation. }
  split_and!.
  - destruct (Hfake map_to_list "Z" t (λ m, reflexivity _)) as (l & Hl & Hin & Hperm).
    exists l. split; [done|].
    apply (proj2 (Hperm Hnd)); [done|].
    intros n. rewrite <- Hin. vm_compute in Hl. injection Hl as <-.
    rewrite elem_of_cons, list_elem_of_singleton. tauto.
  - destruct (Hfake map_to_list "W" t (λ m, reflexivity _)) as (l & Hl & _).
    exists l. split; [done|]. vm_compute in Hl. by injection Hl as <-.
  - apply (Hreal unit scenario.frozen 1%nat 1 (scenario.boot ()) _ 0).
    by vm_compute.
Defined.

(** C3. When [Query] already reports the state asked for, the call returns
    success and the only call it makes on the service is that [Query]: no
    [Start], no [Control]; in the test double the registry is left as it
    was.  Hence a second call, with nothing changed in between, is such a
    no-op again.  In the test double, moreover, any call that returns success
    leaves the service in the state asked for, so that the call after it is
    a no-op.  All this for every target state, [svc.Running] and
    [svc.Stopped] among them. *)
Theorem C3_idempotent :
  (∀ (range : gmap string fake.FakeService → list (string * fake.FakeService))
     fuel fuel' service state t,
     (∀ f, fake.read service (fake.svcList t) = Some f →
           svc.State (fake.status f) = state →
           let t1 := fake.record (fake.CallQuery service (Some state)) t in
           fake.EnsureServiceState range (S fuel) service state t = Some (None, t1)
           ∧ fake.svcList t1 = fake.svcList t
           ∧ fake.EnsureServiceState range (S fuel') service state t1
             = Some (None, fake.record (fake.CallQuery service (Some state)) t1))
     ∧ (∀ t', fake.EnsureServiceState range fuel service state t = Some (None, t') →
              fake.EnsureServiceState range (S fuel') service state t'
              = Some (None, fake.record (fake.CallQuery service (Some state)) t')))
  ∧ (∀ (OS : Type) (H : manager.Host OS) pollBudget fuel fuel' service state
       (w w1 : manager.world) status,
       manager.Query service w = (inr status, w1) →
       svc.State status = state →
       manager.EnsureServiceState pollBudget (S fuel) service state w
       = Some (manager.Ok (), w1)
       ∧ manager.journal w1
         = manager.journal w ++ [manager.CallQuery service (Some state)]
       ∧ ∀ status2 w2,
           manager.Query service w1 = (inr status2, w2) →
           svc.State status2 = state →
           manager.EnsureServiceState pollBudget (S fuel') service state w1
           = Some (manager.Ok (), w2)
           ∧ manager.journal w2
             = manager.journal w1 ++ [manager.CallQuery service (Some state)]).
Proof.
  split.
  - intros range fuel fuel' service state t. split.
    + intros f Hf Hst t1. split_and!; [|done|].
      * by apply (fake_theory.EnsureServiceState_satisfied _ _ _ _ _ f).
      * by apply (fake_theory.EnsureServiceState_satisfied _ _ _ _ _ f).
    + intros t' (f' & Hf' & Hst')%fake_theory.EnsureServiceState_reached.
      by apply (fake_theory.EnsureServiceState_satisfied _ _ _ _ _ f').
  - intros OS H pollBudget fuel fuel' service state w w1 status HQ Hst.
    split_and!.
    + by eapply manager_theory.EnsureServiceState_satisfied_on_host.
    + apply manager_theory.Query_journal in HQ. by rewrite HQ, <- Hst.
    + intros status2 w2 HQ2 Hst2. split.
      * by eapply manager_theory.EnsureServiceState_satisfied_on_host.
      * apply manager_theory.Query_journal in HQ2. by rewrite HQ2, <- Hst2.
Qed.

Lemma C3_idempotent_witness :
  let t := scenario.single svc.Running in
  let w := scenario.boot () in
  let q := fake.CallQuery "s" (Some svc.Running) in
  let s := manager.Native scenario.web in
  fake.read "s" (fake.svcList t) = Some (scenario.service "s" [] svc.Running)
  ∧ fake.EnsureServiceState map_to_list 1 "s" svc.Running t
    = Some (None, fake.record q t)
  ∧ fake.EnsureServiceState map_to_list 1 "s" svc.Running (fake.record q t)
    = Some (None, fake.record q (fake.record q t))
  ∧ (∃ t', fake.EnsureServiceState map_to_list 1 "s" svc.Stopped t = Some (None, t')
           ∧ fake.EnsureServiceState map_to_list 1 "s" svc.Stopped t'
             = Some (None, fake.record (fake.CallQuery "s" (Some svc.Stopped)) t'))
  ∧ ∃ w1, manager.EnsureServiceState (scm := scenario.frozen) 0 1 s svc.Stopped w
          = Some (manager.Ok (), w1)
          ∧ manager.journal w1 = [manager.CallQuery s (Some svc.Stopped)].
Proof.
  intros t w q s. destruct C3_idempotent as [Hfake Hreal].
  assert (fake.read "s" (fake.svcList t) = Some (scenario.service "s" [] svc.Running))
    as Hf by (vm_compute; reflexivity).
  destruct (Hfake map_to_list 0%nat 0%nat "s" svc.Running t) as [Hsat _].
  destruct (Hsat _ Hf eq_refl) as (H1 & _ & H2).
  split_and!; [done|done|done| |].
  - destruct (fake.EnsureServiceState map_to_list 1 "s" svc.Stopped t)
      as [[[e|] t']|] eqn:Hrun;
      [vm_compute in Hrun; discriminate| |vm_compute in Hrun; discriminate].
    exists t'. split; [done|].
    by apply (proj2 (Hfake map_to_list 1%nat 0%nat "s" svc.Stopped t)).
  - exists {| manager.host := ();
              manager.journal := [manager.CallQuery s (Some svc.Stopped)] |}.
    destruct (Hreal unit scenario.frozen 0%nat 0%nat 0%nat s svc.Stopped w
                {| manager.host := ();
                   manager.journal := [manager.CallQuery s (Some svc.Stopped)] |}
                {| svc.State := svc.Stopped |} eq_refl eq_refl) as (Hrun & Hj & _).
    done.
Defined.

(** C4, as stated, fails: a request for [svc.Paused], a state outside
    running and stopped, on a service that [Query] reports as paused returns
    success. *)
Lemma C4_paused_request_succeeds :
  svc.Paused ≠ svc.Running ∧ svc.Paused ≠ svc.Stopped
  ∧ fake.EnsureServiceState map_to_list 1 "s" svc.Paused (scenario.single svc.Paused)
    = Some (None,
            fake.record (fake.CallQuery "s" (Some svc.Paused))
              (scenario.single svc.Paused)).
Proof. split_and!; [done|done|by vm_compute]. Qed.

(** C4, amended.  For a target state other than [svc.Running] and
    [svc.Stopped]: when [Query] reports another state than the target, the
    call returns the error "unexpected state request", at once, having made
    no other call than that [Query]; when [Query] fails, it returns the
    error of [Query], wrapped; and when [Query] already reports the target
    state, it returns success.  In the test double as in the manager of the
    host. *)
Theorem C4_unsupported_state :
  (∀ (range : gmap string fake.FakeService → list (string * fake.FakeService))
     fuel service state t,
     state ≠ svc.Running → state ≠ svc.Stopped →
     match fake.read service (fake.svcList t) with
     | Some f =>
         let t1 := fake.record
                     (fake.CallQuery service (Some (svc.State (fake.status f)))) t in
         fake.EnsureServiceState range (S fuel) service state t
         = Some (if decide (svc.State (fake.status f) = state) then None
                 else Some (unexpected_state_request state),
                 t1)
     | None =>
         fake.EnsureServiceState range (S fuel) service state t
         = Some (Some (errors_Wrap (errors_New "not found")
                         "error querying service state"),
                 fake.record (fake.CallQuery service None) t)
     end)
  ∧ (∀ (OS : Type) (H : manager.Host OS) pollBudget fuel service state
       (w w1 : manager.world) r,
       state ≠ svc.Running → state ≠ svc.Stopped →
       manager.Query service w = (r, w1) →
       manager.EnsureServiceState pollBudget (S fuel) service state w
       = Some (match r with
               | inl e => manager.Err (errors_Wrap e "error querying service state")
               | inr status =>
                   if decide (svc.State status = state) then manager.Ok ()
                   else manager.Err (unexpected_state_request state)
               end,
               w1)
       ∧ manager.journal w1
         = manager.journal w ++ [manager.CallQuery service (manager.reported r)]).
Proof.
  split.
  - intros range fuel service state t Hr Hs.
    destruct (fake.read service (fake.svcList t)) as [f|] eqn:Hf.
    + case_decide as Hst.
      * subst state.
        by apply (fake_theory.EnsureServiceState_satisfied _ _ _ _ _ f).
      * by apply fake_theory.EnsureServiceState_unsupported.
    + by apply fake_theory.EnsureServiceState_absent.
  - intros OS H pollBudget fuel service state w w1 r Hr Hs HQ.
    split; [|by apply manager_theory.Query_journal].
    destruct r as [e|status].
    + by apply manager_theory.EnsureServiceState_query_error.
    + case_decide as Hst.
      * by eapply manager_theory.EnsureServiceState_satisfied_on_host.
      * by eapply manager_theory.EnsureServiceState_unsupported_on_host.
Qed.

Lemma C4_unsupported_state_witness :
  let s := manager.Native scenario.web in
  svc.Paused ≠ svc.Running ∧ svc.Paused ≠ svc.Stopped
  ∧ fake.EnsureServiceState map_to_list 1 "s" svc.Paused (scenario.single svc.Running)
    = Some (Some (unexpected_state_request svc.Paused),
            fake.record (fake.CallQuery "s" (Some svc.Running))
              (scenario.single svc.Running))
  ∧ manager.EnsureServiceState (scm := scenario.frozen) 0 1 s svc.Paused
      (scenario.boot ())
    = Some (manager.Err (unexpected_state_request svc.Paused),
            {| manager.host := ();
               manager.journal := [manager.CallQuery s (Some svc.Stopped)] |}).
Proof.
  intros s. destruct C4_unsupported_state as [Hfake Hreal].
  assert (svc.Paused ≠ svc.Running) as Hr by done.
  assert (svc.Paused ≠ svc.Stopped) as Hs by done.
  split_and!; [done|done| |].
  - exact (Hfake map_to_list 0%nat "s" svc.Paused (scenario.single svc.Running) Hr Hs).
  - exact (proj1 (Hreal unit scenario.frozen 0%nat 0%nat s svc.Paused
                    (scenario.boot ()) _ _ Hr Hs eq_refl)).
Defined.




(** C2, as stated, fails on the test double: asked to start a stopped
    service, its engine returns success right after [Start], and no
    [Query] of the service has reported [svc.Running]: the only [Query] of
    the journal is the first one, which reported [svc.Stopped]. *)
Lemma C2_test_double_does_not_poll :
  ∃ t', fake.EnsureServiceState map_to_list 1 "s" svc.Running
          (scenario.single svc.Stopped)
        = Some (None, t')
        ∧ fake.journal t'
          = [fake.CallQuery "s" (Some svc.Stopped); fake.CallStart "s"]
        ∧ fake.CallQuery "s" (Some svc.Running) ∉ fake.journal t'.
Proof.
  eexists. split_and!; [vm_compute; reflexivity|reflexivity|].
  cbn [fake.journal]. intros Hin.
  repeat (apply elem_of_cons in Hin as [Hin|Hin]; [discriminate|]).
  by apply elem_of_nil in Hin.
Qed.

(** C2, amended.  In the manager of the host a call returns success only
    when the last call it made is a [Query] of the service that reported the
    target state; the wait after [Start] or [Control] makes [pollBudget]
    polls at most, so it ends; and when the state is never the target, the
    call that has issued [Start], or [Control] after the loop over the
    dependents, returns the error "transition timeout".  The test double does
    not poll: its engine returns what [Start] or [Control] returns, and the
    last call of its journal is that [Start] or [Control]. *)
Theorem C2_wait_for_state :
  (∀ (OS : Type) (H : manager.Host OS) pollBudget,
     (∀ fuel service state (w w' : manager.world),
        manager.EnsureServiceState pollBudget fuel service state w
        = Some (manager.Ok (), w') →
        ∃ j, manager.journal w' = j ++ [manager.CallQuery service (Some state)])
     ∧ (∀ service state (w : manager.world),
          ∃ polls,
            manager.journal (manager.WaitForState pollBudget service state w).2
            = manager.journal w ++ polls
            ∧ (length polls ≤ pollBudget)%nat
            ∧ Forall (λ c, ∃ rep, c = manager.CallQuery service rep) polls)
     ∧ (∀ (Inv : OS → Prop) fuel service (w w1 w2 : manager.world) status,
          manager_spec.neverReaches service svc.Running Inv →
          manager.Query service w = (inr status, w1) →
          svc.State status ≠ svc.Running →
          manager.Start service w1 = (None, w2) →
          Inv (manager.host w2) →
          ∃ w', manager.EnsureServiceState pollBudget (S fuel) service svc.Running w
                = Some (manager.Err (errors_New "transition timeout"), w'))
     ∧ (∀ (Inv : OS → Prop) fuel winSvc (w w1 w2 wk wc : manager.world)
          status deps status',
          manager_spec.neverReaches (manager.Native winSvc) svc.Stopped Inv →
          manager.Query (manager.Native winSvc) w = (inr status, w1) →
          svc.State status ≠ svc.Stopped →
          manager.listDependentServices fuel (mgr.Handle winSvc) w1
          = Some (manager.Ok deps, w2) →
          manager_spec.stoppedInTurn
            (λ d, manager.EnsureServiceState pollBudget fuel d svc.Stopped)
            deps w2 wk →
          manager.Control (manager.Native winSvc) svc.Stop wk = (inr status', wc) →
          Inv (manager.host wc) →
          ∃ w', manager.EnsureServiceState pollBudget (S fuel)
                  (manager.Native winSvc) svc.Stopped w
                = Some (manager.Err (errors_New "transition timeout"), w')))
  ∧ (∀ (range : gmap string fake.FakeService → list (string * fake.FakeService))
       fuel service t f,
       fake.read service (fake.svcList t) = Some f →
       (svc.State (fake.status f) ≠ svc.Running →
        ∃ t', fake.EnsureServiceState range (S fuel) service svc.Running t
              = Some (None, t')
              ∧ fake.journal t'
                = fake.journal t
                  ++ [fake.CallQuery service (Some (svc.State (fake.status f)));
                      fake.CallStart service])
       ∧ (svc.State (fake.status f) ≠ svc.Stopped →
          ∀ tk deps,
            fake.listDependentServices range (fake.name f)
              (fake.record
                 (fake.CallQuery service (Some (svc.State (fake.status f)))) t)
            = inr deps →
            fake_spec.stoppedInTurn
              (λ d, fake.EnsureServiceState range fuel d svc.Stopped) deps
              (fake.record
                 (fake.CallQuery service (Some (svc.State (fake.status f)))) t)
              tk →
            fake.EnsureServiceState range (S fuel) service svc.Stopped t
            = Some (match (fake.Control service svc.Stop tk).1 with
                    | inl err => Some err
                    | inr _ => None
                    end,
                    (fake.Control service svc.Stop tk).2)
            ∧ fake.journal (fake.Control service svc.Stop tk).2
              = fake.journal tk ++ [fake.CallControl service svc.Stop])).
Proof.
  split.
  - intros OS H pollBudget. split_and!.
    + apply manager_theory.EnsureServiceState_ok_queried.
    + intros service state w.
      destruct (manager.WaitForState pollBudget service state w) as [r w'] eqn:Hw.
      apply manager_theory.pollState_polls in Hw as (polls & ? & ? & ? & _).
      by exists polls.
    + intros Inv fuel service w w1 w2 status Hnever HQ Hst HS HInv.
      rewrite (manager_theory.EnsureServiceState_start_on_host _ _ _ _ _ _ HQ Hst), HS.
      destruct (manager_theory.pollState_timeout Inv pollBudget service
                  svc.Running w2 Hnever HInv) as (w' & Hw & _).
      exists w'. unfold manager.WaitForState. by rewrite Hw.
    + intros Inv fuel winSvc w w1 w2 wk wc status deps status'
             Hnever HQ Hst Hlist Hloop%manager_theory.stopDependents_success_on_host HC HInv.
      rewrite (manager_theory.EnsureServiceState_stop_on_host _ _ _ _ _ _ HQ Hst).
      rewrite Hlist, Hloop, HC.
      destruct (manager_theory.pollState_timeout Inv pollBudget
                  (manager.Native winSvc) svc.Stopped wc Hnever HInv) as (w' & Hw & _).
      exists w'. unfold manager.WaitForState. by rewrite Hw.
  - intros range fuel service t f Hf. split.
    + intros Hst. eexists.
      split; [by apply fake_theory.EnsureServiceState_start|reflexivity].
    + intros Hst tk deps Hdeps Hloop%fake_theory.stopDependents_success.
      split; [|apply fake_theory.Control_journal].
      rewrite (fake_theory.EnsureServiceState_stop _ _ _ _ f Hf Hst).
      rewrite fake_theory.listDependentServices_eq in Hdeps.
      injection Hdeps as <-. cbn [fake.svcList fake.record] in Hloop.
      rewrite Hloop. by destruct (fake.Control service svc.Stop tk) as [[?|?] ?].
Qed.

Lemma C2_wait_for_state_witness :
  let s := manager.Native scenario.web in
  let w := scenario.boot () in
  manager_spec.neverReaches (scm := scenario.frozen) s svc.Running (λ _, True)
  ∧ (∃ w', manager.EnsureServiceState (scm := scenario.frozen) 3 1 s svc.Running w
           = Some (manager.Err (errors_New "transition timeout"), w'))
  ∧ (∃ w', manager.EnsureServiceState (scm := scenario.growing 0) 3 2 s svc.Stopped w
           = Some (manager.Err (errors_New "transition timeout"), w'))
  ∧ (∃ j, manager.journal
            {| manager.host := scenario.webUp;
               manager.journal := [manager.CallQuery s (Some svc.Running)] |}
          = j ++ [manager.CallQuery s (Some svc.Running)])
  ∧ (∃ t', fake.EnsureServiceState map_to_list 1 "s" svc.Running
             (scenario.single svc.Stopped) = Some (None, t')
           ∧ fake.journal t'
             = [fake.CallQuery "s" (Some svc.Stopped); fake.CallStart "s"])
  ∧ fake.journal
      (fake.Control "s" svc.Stop
         (fake.record (fake.CallQuery "s" (Some svc.Running))
            (scenario.single svc.Running))).2
    = [fake.CallQuery "s" (Some svc.Running); fake.CallControl "s" svc.Stop].
Proof.
  intros s w. destruct C2_wait_for_state as [Hreal Hfake].
  assert (manager_spec.neverReaches (scm := scenario.frozen) s svc.Running
            (λ _, True)) as Hfrozen.
  { intros os _. by exists {| svc.State := svc.Stopped |}, os. }
  assert (manager_spec.neverReaches (scm := scenario.growing 0) s svc.Stopped
            (λ _, True)) as Hup.
  { intros os _. by exists {| svc.State := svc.Running |}, os. }
  split_and!; [done| | | | |].
  - destruct (Hreal unit scenario.frozen 3%nat) as (_ & _ & Hstart & _).
    exact (Hstart (λ _, True) 0%nat s w _ _ {| svc.State := svc.Stopped |}
             Hfrozen eq_refl ltac:(done) eq_refl I).
  - destruct (Hreal unit (scenario.growing 0) 3%nat) as (_ & _ & _ & Hstop).
    refine (Hstop (λ _, True) 1%nat scenario.web w _ _ _ _
              {| svc.State := svc.Running |} [] {| svc.State := svc.Running |}
              Hup eq_refl ltac:(done) eq_refl
              (manager_spec.stoppedInTurn_nil _ _) eq_refl I).
  - destruct (Hreal _ scenario.webHost 1%nat) as (Hok & _).
    apply (Hok 1%nat s svc.Running (scenario.boot scenario.webUp)).
    reflexivity.
  - destruct (Hfake map_to_list 0%nat "s" (scenario.single svc.Stopped)
                (scenario.service "s" [] svc.Stopped) ltac:(vm_compute; reflexivity))
      as [Hstart _].
    exact (Hstart ltac:(done)).
  - destruct (Hfake map_to_list 0%nat "s" (scenario.single svc.Running)
                (scenario.service "s" [] svc.Running) ltac:(vm_compute; reflexivity))
      as [_ Hstop].
    destruct (Hstop ltac:(done) _ [] ltac:(vm_compute; reflexivity)
                (fake_spec.stoppedInTurn_nil _ _)) as [_ Hj].
    exact Hj.
Defined.

(** C8, as stated, fails: on the host [scenario.stingy], whose answer to the
    first attempt is "more data" with no byte needed, the loop leaves on
    that "buffer too small" outcome and returns the error, after one
    attempt. *)
Lemma C8_leaves_on_more_data :
  manager.enumLoop (scm := scenario.stingy) 5 1 0 (scenario.boot ())
  = Some (manager.Failed windows.ERROR_MORE_DATA,
          {| manager.host := ();
             manager.journal :=
               [manager.CallEnumDependentServices 1 0 (scenario.moreData 0)] |}).
Proof. by vm_compute. Qed.

(** C8, amended.  The sizing loop leaves on success of the syscall, on an
    error other than "more data", and on "more data" with a required size
    that is not larger than the buffer it was called with, which it returns
    as the error.  On every other "more data" outcome it tries again, with a
    buffer of exactly the size last reported.  The loop counts no attempts:
    whatever the number [n] of sizes below [2 ^ 32], a host that asks for one
    byte more each time gets [n] attempts and one more. *)
Theorem C8_sizing_loop :
  (∀ (OS : Type) (H : manager.Host OS) fuel h len (w w' : manager.world) exit,
     manager.enumLoop fuel h len w = Some (exit, w') →
     ∃ attempts size reply,
       manager.journal w'
       = manager.journal w ++ attempts
         ++ [manager.CallEnumDependentServices h size reply]
       ∧ manager_spec.resized h len attempts size
       ∧ match exit with
         | manager.Filled bufferLen services =>
             manager.r1 reply ≠ 0 ∧ bufferLen = size
             ∧ services = manager.lpServices reply
         | manager.Failed e =>
             manager.r1 reply = 0
             ∧ ((manager.err reply ≠ windows.ERROR_MORE_DATA
                 ∧ e = errors_Wrap (manager.err reply)
                         "received unexpected error from enumDependentServicesSyscall")
                ∨ (manager.err reply = windows.ERROR_MORE_DATA
                   ∧ manager.uint32 (manager.pcbBytesNeeded reply) ≤ size
                   ∧ e = manager.err reply))
         end)
  ∧ (∀ (OS : Type) (H : manager.Host OS) fuel h len (w : manager.world),
       let reply := (manager.enumDependentServicesW h windows.SERVICE_STATE_ALL
                       len (manager.host w)).1 in
       manager.r1 reply = 0 →
       manager.err reply = windows.ERROR_MORE_DATA →
       len < manager.uint32 (manager.pcbBytesNeeded reply) →
       manager.enumLoop (S fuel) h len w
       = manager.enumLoop fuel h (manager.uint32 (manager.pcbBytesNeeded reply))
           (snd (manager.enumDependentServicesSyscall h windows.SERVICE_STATE_ALL
                   len w)))
  ∧ (∀ n : nat,
       N.of_nat n < 2 ^ 32 →
       ∃ w', manager.enumLoop (scm := scenario.growing (N.of_nat n)) (S n) 1 0
               (scenario.boot ())
             = Some (manager.Filled (N.of_nat n) [], w')
             ∧ length (manager.journal w') = S n
             ∧ manager.enumLoop (scm := scenario.growing (N.of_nat n)) n 1 0
                 (scenario.boot ())
               = None).
Proof.
  split_and!.
  - intros OS H fuel h len w w' exit. apply manager_theory.enumLoop_exit.
  - intros OS H fuel h len w reply Hr1 Herr Hlen.
    rewrite manager_theory.enumLoop_step. cbn zeta. fold reply.
    rewrite decide_False by (by intros ?).
    rewrite decide_False by (by intros ?).
    rewrite decide_False by lia.
    unfold manager.enumDependentServicesSyscall.
    by rewrite manager_theory.call_eq.
  - intros n Hn.
    assert (∀ fuel k (w : manager.world),
              (S k ≤ n)%nat →
              manager.enumLoop (scm := scenario.growing (N.of_nat n)) (S fuel) 1
                (N.of_nat (n - S k)) w
              = manager.enumLoop (scm := scenario.growing (N.of_nat n)) fuel 1
                  (N.of_nat (n - k))
                  {| manager.host := manager.host w;
                     manager.journal :=
                       manager.journal w
                       ++ [manager.CallEnumDependentServices 1 (N.of_nat (n - S k))
                             (scenario.moreData (N.of_nat (n - S k) + 1))] |})
      as Hstep.
    { intros fuel k w Hk. rewrite manager_theory.enumLoop_step. cbn zeta. simpl.
      rewrite (decide_True (P := N.of_nat (n - S k) < N.of_nat n)) by lia. simpl.
      assert (manager.uint32 (N.of_nat (n - S k) + 1) = N.of_nat (n - k)) as ->.
      { unfold manager.uint32. rewrite N.mod_small; lia. }
      by rewrite (decide_False (P := N.of_nat (n - k) ≤ N.of_nat (n - S k))) by lia. }
    assert (∀ k (w : manager.world),
              (k ≤ n)%nat →
              ∃ w', manager.enumLoop (scm := scenario.growing (N.of_nat n)) (S k) 1
                      (N.of_nat (n - k)) w
                    = Some (manager.Filled (N.of_nat n) [], w')
                    ∧ length (manager.journal w')
                      = (length (manager.journal w) + S k)%nat
                    ∧ manager.enumLoop (scm := scenario.growing (N.of_nat n)) k 1
                        (N.of_nat (n - k)) w
                      = None) as Hgrow.
    { induction k as [|k IH]; intros w Hk.
      - rewrite manager_theory.enumLoop_step. cbn zeta. simpl.
        rewrite (decide_False (P := N.of_nat (n - 0) < N.of_nat n)) by lia. simpl.
        eexists. split_and!; [by rewrite Nat.sub_0_r|simpl|done].
        rewrite length_app. simpl. lia.
      - rewrite !Hstep by done.
        match goal with
        | |- context [manager.enumLoop (S k) 1 _ ?W] =>
            destruct (IH W) as (w' & Hrun & Hlen & Hless); [lia|]
        end.
        exists w'. split_and!; [done| |done].
        rewrite Hlen. simpl. rewrite length_app. simpl. lia. }
    destruct (Hgrow n (scenario.boot ()) ltac:(lia)) as (w' & Hrun & Hlen & Hless).
    rewrite Nat.sub_diag in Hrun, Hless. by exists w'.
Qed.

Lemma C8_sizing_loop_witness :
  N.of_nat 3 < 2 ^ 32
  ∧ (∃ w', manager.enumLoop (scm := scenario.growing 3) 4 1 0 (scenario.boot ())
           = Some (manager.Filled 3 [], w')
           ∧ length (manager.journal w') = 4%nat
           ∧ manager.enumLoop (scm := scenario.growing 3) 3 1 0 (scenario.boot ())
             = None)
  ∧ ∃ attempts size reply,
      [manager.CallEnumDependentServices 1 0 (scenario.moreData 36);
       manager.CallEnumDependentServices 1 36 (scenario.filled ["app"])]
      = attempts ++ [manager.CallEnumDependentServices 1 size reply]
      ∧ manager_spec.resized 1 0 attempts size
      ∧ manager.r1 reply ≠ 0 ∧ 36 = size.
Proof.
  destruct C8_sizing_loop as (Hexit & _ & Hgrow).
  assert (N.of_nat 3 < 2 ^ 32) as H3 by done.
  split_and!; [done|exact (Hgrow 3%nat H3)|].
  destruct (Hexit _ scenario.webHost 2%nat 1 0 (scenario.boot scenario.webUp)
              {| manager.host := scenario.webUp;
                 manager.journal :=
                   [manager.CallEnumDependentServices 1 0 (scenario.moreData 36);
                    manager.CallEnumDependentServices 1 36
                      (scenario.filled ["app"])] |}
              (manager.Filled 36 ["app"]) ltac:(vm_compute; reflexivity))
    as (attempts & size & reply & Hj & Hres & Hr1 & Hsize & _).
  exists attempts, size, reply. done.
Defined.




(** C9, as stated, fails on the test double.  The running service [a] of
    [scenario.selfish] declares itself as a dependency: a cycle of the
    declared dependency relation, of a service that is not stopped.  The
    call for [a] returns, and [a] is stopped. *)
Lemma C9_self_cycle_returns :
  let t := scenario.selfish in
  tc (fake_spec.declares (fake.svcList t)) "a" "a"
  ∧ ¬ fake.isStopped (fake.svcList t) "a"
  ∧ ∃ t', fake.EnsureServiceState map_to_list 1 "a" svc.Stopped t = Some (None, t')
          ∧ fake.isStopped (fake.svcList t') "a".
Proof.
  intros t. split_and!.
  - apply tc_once. exists (scenario.service "a" ["a"] svc.Running).
    split; [by vm_compute|left].
  - intros (f & Hf & Hst). vm_compute in Hf. injection Hf as <-. done.
  - eexists. split; [vm_compute; reflexivity|].
    eexists. split; [vm_compute; reflexivity|done].
Qed.

(** C9, amended.  [EnsureServiceState] with target [svc.Stopped] keeps no
    record of the services it is working on.  In the test double, with every
    service registered under its own name: when no service is reached from
    itself by going from a service to a dependent, a dependent being another
    service (as is the case when the declared dependency relation has no
    cycle), the call returns, at a depth of the number of services and one,
    with success and the service stopped if the service is registered; when a
    service is reached from itself that way through services that are not
    stopped, which takes two services at least, no call for it returns,
    whatever the depth allowed.  A service that declares itself is skipped by
    the enumeration and is not such a cycle.  In the manager of the host the
    recursion follows what the host enumerates: the call returns when some
    rank goes down from every service to the services its enumeration names,
    and does not return for services that are never stopped and whose
    enumeration always names another of them first. *)
Theorem C9_no_cycle_check :
  (∀ (range : gmap string fake.FakeService → list (string * fake.FakeService))
     service t,
     (∀ m, range m ≡ₚ map_to_list m) →
     fake_spec.wellNamed (fake.svcList t) →
     ((∀ x, ¬ tc (fake_spec.declares (fake.svcList t)) x x) →
      fake_spec.acyclic (fake.svcList t))
     ∧ (fake_spec.acyclic (fake.svcList t) →
        ∃ r t',
          fake.EnsureServiceState range (S (size (fake.svcs (fake.svcList t))))
            service svc.Stopped t
          = Some (r, t')
          ∧ (is_Some (fake.svcs (fake.svcList t) !! service) →
             r = None ∧ fake.isStopped (fake.svcList t') service))
     ∧ (tc (fake_spec.liveDependent (fake.svcList t)) service service →
        ∀ fuel, fake.EnsureServiceState range fuel service svc.Stopped t = None))
  ∧ (∀ (OS : Type) (H : manager.Host OS) pollBudget,
       (∀ (rank : mgr.Service → nat) fuel service state (w : manager.world),
          (∀ winSvc fuel0 (w0 w1 w2 w3 : manager.world) deps d y,
             manager.listDependentServices fuel0 (mgr.Handle winSvc) w0
             = Some (manager.Ok deps, w1) →
             d ∈ deps → manager.OpenService d w2 = (inr y, w3) →
             (rank y < rank winSvc)%nat) →
          (match service with
           | manager.Native winSvc => rank winSvc
           | manager.Foreign _ => O
           end + N.to_nat (2 ^ 32) + 1 < fuel)%nat →
          ∃ r w', manager.EnsureServiceState pollBudget fuel service state w
                  = Some (r, w'))
       ∧ (∀ (C : mgr.Service → Prop) (Inv : OS → Prop) fuel winSvc
            (w : manager.world),
            (∀ x (w0 : manager.world),
               C x → Inv (manager.host w0) →
               ∃ status w1,
                 manager.Query (manager.Native x) w0 = (inr status, w1)
                 ∧ svc.State status ≠ svc.Stopped ∧ Inv (manager.host w1)) →
            (∀ x fuel0 (w0 w1 : manager.world) r,
               C x → Inv (manager.host w0) →
               manager.listDependentServices fuel0 (mgr.Handle x) w0 = Some (r, w1) →
               ∃ d rest y w2,
                 r = manager.Ok (d :: rest)
                 ∧ manager.OpenService d w1 = (inr y, w2)
                 ∧ C y ∧ Inv (manager.host w2)) →
            C winSvc → Inv (manager.host w) →
            manager.EnsureServiceState pollBudget fuel (manager.Native winSvc)
              svc.Stopped w
            = None)).
Proof.
  split.
  - intros range service t Hperm Hwn. split_and!.
    + apply fake_theory.acyclic_declared.
    + intros Hacyc.
      destruct (fake_theory.EnsureServiceState_returns range Hperm service t Hwn Hacyc)
        as (r & t' & Hrun).
      exists r, t'. split; [done|]. intros Hreg.
      assert (r = None) as ->
          by (by eapply fake_theory.EnsureServiceState_succeeds).
      split; [done|]. by eapply fake_theory.EnsureServiceState_stopped.
    + intros Hcyc fuel. by apply fake_theory.EnsureServiceState_diverges.
  - intros OS H pollBudget. split.
    + intros rank fuel service state w Hrank Hfuel.
      apply (manager_theory.EnsureServiceState_returns_ranked pollBudget rank);
        [|done].
      intros winSvc fuel0 w0 deps w1 d w2 y w3. apply Hrank.
    + intros C Inv fuel winSvc w HQ Hlist HC HInv.
      apply (manager_theory.EnsureServiceState_diverges_cycle pollBudget C Inv);
        [done| |done|done].
      intros x fuel0 w0 r w1. apply Hlist.
Qed.

(** On [scenario.webHost] the services the sizing loop returns for the
    handle 1 are [app], and none for another handle. *)
Lemma webHost_enumLoop fuel h len (w w' : manager.world) bufferLen services :
  manager.enumLoop (scm := scenario.webHost) fuel h len w
  = Some (manager.Filled bufferLen services, w') →
  services = if decide (h = 1) then ["app"] else [].
Proof.
  revert len w. induction fuel as [|fuel IH]; intros len w; [done|].
  rewrite manager_theory.enumLoop_step. cbn zeta. simpl.
  set (names := if decide (h = 1) then ["app"] else []).
  destruct (decide (len < 36 * N.of_nat (length names))) as [Hlt|Hge]; simpl.
  - destruct (decide (manager.uint32 _ ≤ len)); [discriminate|apply IH].
  - by intros [= _ <- _].
Qed.

(** On [scenario.ringHost] the enumeration for the handle of one service
    names the other one, once it returns. *)
Lemma ringHost_listDependentServices fuel h (w w' : manager.world) r :
  manager.listDependentServices (scm := scenario.ringHost) fuel h w = Some (r, w') →
  r = manager.Ok [if decide (h = 1) then "b" else "a"].
Proof.
  unfold manager.listDependentServices.
  destruct fuel as [|[|fuel]]; [done| |].
  - rewrite manager_theory.enumLoop_step. cbn zeta. by simpl.
  - rewrite !manager_theory.enumLoop_step. cbn zeta. simpl. by intros [= <- _].
Qed.

Lemma C9_no_cycle_check_witness :
  let t := scenario.chain svc.Running svc.Running svc.Running in
  let a := {| mgr.Name := "a"; mgr.Handle := 1 |} in
  fake_spec.wellNamed (fake.svcList t)
  ∧ fake_spec.acyclic (fake.svcList t)
  ∧ (∃ t', fake.EnsureServiceState map_to_list 4 "c" svc.Stopped t = Some (None, t')
           ∧ fake.isStopped (fake.svcList t') "c")
  ∧ fake_spec.wellNamed (fake.svcList scenario.ring)
  ∧ tc (fake_spec.liveDependent (fake.svcList scenario.ring)) "a" "a"
  ∧ fake.EnsureServiceState map_to_list 1000 "a" svc.Stopped scenario.ring = None
  ∧ (∃ r w', manager.EnsureServiceState (scm := scenario.webHost) 1
               (N.to_nat (2 ^ 32) + 3)
               (manager.Native scenario.web) svc.Stopped
               (scenario.boot scenario.webUp)
             = Some (r, w'))
  ∧ manager.EnsureServiceState (scm := scenario.ringHost) 1 1000
      (manager.Native a) svc.Stopped (scenario.boot ())
    = None.
Proof.
  intros t a. destruct C9_no_cycle_check as [Hfake Hreal].
  assert (fake_spec.wellNamed (fake.svcList t)) as Hwn by by_computation.
  assert (fake_spec.acyclic (fake.svcList t)) as Hacyc.
  { apply (fake_theory.acyclic_ranked _ scenario.chainRank).
    intros x d (Hne & g & Hg & Hin).
    which_service Hg; simpl in Hin;
      repeat (apply elem_of_cons in Hin as [->|Hin]);
      try (by apply elem_of_nil in Hin); vm_compute; lia. }
  assert (fake_spec.wellNamed (fake.svcList scenario.ring)) as Hwn' by by_computation.
  assert (tc (fake_spec.liveDependent (fake.svcList scenario.ring)) "a" "a") as Hcyc.
  { assert (∀ x, ¬ fake.isStopped (fake.svcList scenario.ring) x) as Hlive.
    { intros x (f & Hf & Hst). which_service Hf; discriminate. }
    apply tc_l with "b"; [|apply tc_once]; (split_and!; [|done|done]).
    - split; [done|]. exists (scenario.service "b" ["a"] svc.Running).
      split; [by vm_compute|left].
    - split; [done|]. exists (scenario.service "a" ["b"] svc.Running).
      split; [by vm_compute|left]. }
  split_and!; [done|done| |done|done| | |].
  - destruct (Hfake map_to_list "c" t (λ m, reflexivity _) Hwn) as (_ & Hret & _).
    destruct (Hret Hacyc) as (r & t' & Hrun & Hreg).
    destruct Hreg as [-> Hstopped]; [eexists; vm_compute; reflexivity|].
    exists t'. split; [|done]. exact Hrun.
  - destruct (Hfake map_to_list "a" scenario.ring (λ m, reflexivity _) Hwn')
      as (_ & _ & Hdiv).
    exact (Hdiv Hcyc 1000%nat).
  - destruct (Hreal _ scenario.webHost 1%nat) as [Hret _].
    apply (Hret (λ s, if decide (mgr.Handle s = 1) then 1%nat else 0%nat)).
    + intros winSvc fuel0 w0 w1 w2 w3 deps d y Hlist Hd Hopen.
      assert (deps = if decide (mgr.Handle winSvc = 1) then ["app"] else [])
        as Hdeps.
      { unfold manager.listDependentServices in Hlist.
        destruct (manager.enumLoop _ _ _ _) as [[[bl services|e] w4]|] eqn:Hloop;
          [|done..].
        apply webHost_enumLoop in Hloop.
        destruct services as [|s0 services].
        - injection Hlist as <- _. by case_decide.
        - destruct (decide (bl = 0)); [done|]. by injection Hlist as <- _. }
      case_decide as Hh; [|subst deps; by apply elem_of_nil in Hd].
      subst deps. apply list_elem_of_singleton in Hd as ->.
      unfold manager.OpenService in Hopen.
      rewrite manager_theory.call_eq in Hopen. simpl in Hopen.
      destruct (manager.host w2 !! scenario.webHandle "app"); [|done].
      injection Hopen as <- _. simpl. lia.
    + cbv beta iota. destruct (decide _); lia.
  - destruct (Hreal _ scenario.ringHost 1%nat) as [_ Hdiv].
    apply (Hdiv (λ x, mgr.Handle x = 1 ∨ mgr.Handle x = 2) (λ _, True));
      [| |by left|done].
    + intros x w0 _ _. eexists _, _. split_and!; [|shelve|done].
      unfold manager.Query. rewrite manager_theory.call_eq. simpl. reflexivity.
      Unshelve. done.
    + intros x fuel0 w0 w1 r Hx _ Hlist.
      pose proof (ringHost_listDependentServices _ _ _ _ _ Hlist) as ->.
      eexists _, [], _, _. split_and!; [done| | |done].
      * unfold manager.OpenService. rewrite manager_theory.call_eq. simpl. reflexivity.
      * simpl. unfold scenario.ringHandle. destruct Hx as [->| ->]; simpl; auto.
Defined.

(** * Further properties of the test double *)

(** ** The list of services: [read], [write], [remove], [listServiceNames] *)

(** [listServiceNames] returns the keys in the order of the visit. *)
Lemma listServiceNames_eq
    (range : gmap string fake.FakeService → list (string * fake.FakeService))
    (l : fake.fakeServiceList) :
  fake.listServiceNames range l = (range (fake.svcs l)).*1.
Proof.
  unfold fake.listServiceNames.
  enough (∀ entries names,
            foldl (λ names (entry : string * fake.FakeService),
                     names ++ [entry.1]) names entries
            = names ++ entries.*1) as Hfold by apply (Hfold _ []).
  induction entries as [|entry entries IH]; intros names; simpl.
  - by rewrite app_nil_r.
  - by rewrite IH, <- app_assoc.
Qed.

(** The set that the loop of [GetServices] builds from a list of names. *)
Lemma foldl_names_eq (names : list string) (acc : gset string) :
  foldl (λ (svcsMap : gset string) svc, {[svc]} ∪ svcsMap) acc names
  = list_to_set names ∪ acc.
Proof.
  revert acc. induction names as [|n names IH]; intros acc; simpl.
  - by rewrite (left_id_L ∅ (∪)).
  - rewrite IH. apply set_eq. intros x. rewrite !elem_of_union. tauto.
Qed.

(** The names [listServiceNames] returns are the registered ones. *)
Lemma elem_of_listServiceNames
    (range : gmap string fake.FakeService → list (string * fake.FakeService))
    (l : fake.fakeServiceList) (n : string) :
  (∀ m, range m ≡ₚ map_to_list m) →
  n ∈ fake.listServiceNames range l ↔ is_Some (fake.read n l).
Proof.
  intros range_perm.
  rewrite listServiceNames_eq, list_elem_of_fmap. unfold fake.read. split.
  - intros ([k f] & -> & Hin).
    apply (fake_theory.elem_of_range range range_perm) in Hin. by exists f.
  - intros [f Hf]. exists (n, f). split; [done|].
    by apply (fake_theory.elem_of_range range range_perm).
Qed.

(** [GetServices] returns the keys of the registry. *)
Lemma GetServices_dom
    (range : gmap string fake.FakeService → list (string * fake.FakeService))
    (t : fake.testMgr) :
  (∀ m, range m ≡ₚ map_to_list m) →
  fake.GetServices range t = inr (dom (fake.svcs (fake.svcList t))).
Proof.
  intros range_perm.
  unfold fake.GetServices. f_equal. rewrite foldl_names_eq.
  apply set_eq. intros n.
  rewrite elem_of_union, elem_of_list_to_set,
    (elem_of_listServiceNames range _ _ range_perm), elem_of_dom.
  unfold fake.read. rewrite elem_of_empty. tauto.
Qed.

(** Entering the entries of a list without repeated keys, one by one. *)
Lemma foldl_insert_eq (entries : list (string * fake.FakeService))
    (l : fake.fakeServiceList) :
  NoDup entries.*1 →
  fake.svcs
    (foldl (λ l (entry : string * fake.FakeService),
              {| fake.svcs := <[entry.1 := entry.2]> (fake.svcs l) |})
       l entries)
  = list_to_map entries ∪ fake.svcs l.
Proof.
  revert l. induction entries as [|[k f] entries IH]; intros l Hnd; simpl.
  - by rewrite (left_id_L ∅ (∪)).
  - apply NoDup_cons in Hnd as [Hk Hnd]. rewrite IH by done. simpl.
    rewrite <- insert_union_l.
    by rewrite insert_union_r by by apply not_elem_of_list_to_map_1.
Qed.

(** X1. The list of services of the test double is a map: [read] after
    [write] returns the service written, and [write] leaves the other
    names alone; [remove] of a name that is not there is the error
    "service does not exist" and changes nothing; [remove] of a name that
    is there succeeds, after it the name is not there, the other names
    are as before and a second [remove] is the error; and [remove] undoes
    the [write] of a new name. *)
Theorem X1_registry_laws (name other : string) (service : fake.FakeService)
    (l : fake.fakeServiceList) :
  fake.read name (fake.write name service l) = Some service
  ∧ (other ≠ name →
     fake.read other (fake.write name service l) = fake.read other l)
  ∧ (fake.read name l = None →
     fake.remove name l = (Some (errors_New "service does not exist"), l)
     ∧ fake.remove name (fake.write name service l) = (None, l))
  ∧ (is_Some (fake.read name l) →
     ∃ l', fake.remove name l = (None, l')
           ∧ fake.read name l' = None
           ∧ (other ≠ name → fake.read other l' = fake.read other l)
           ∧ fake.remove name l'
             = (Some (errors_New "service does not exist"), l')).
Proof.
  destruct l as [m]. unfold fake.read, fake.write, fake.remove. simpl.
  split_and!.
  - apply lookup_insert_eq.
  - intros Hne. by apply lookup_insert_ne.
  - intros Hnone. rewrite Hnone, lookup_insert_eq. split; [done|].
    by rewrite delete_insert_id.
  - intros [f Hf]. rewrite Hf. eexists. split; [done|]. simpl.
    rewrite lookup_delete_eq. split_and!; [done| |done].
    intros Hne. by apply lookup_delete_ne.
Qed.

Lemma X1_registry_laws_witness :
  let l := fake.svcList (scenario.single svc.Running) in
  fake.remove "t" l = (Some (errors_New "service does not exist"), l)
  ∧ ∃ l', fake.remove "s" l = (None, l') ∧ fake.read "s" l' = None.
Proof.
  intros l.
  destruct (X1_registry_laws "t" "s" (scenario.service "t" [] svc.Stopped) l)
    as (_ & _ & Habsent & _).
  destruct (X1_registry_laws "s" "t" (scenario.service "s" [] svc.Stopped) l)
    as (_ & _ & _ & Hpresent).
  split.
  - apply Habsent. reflexivity.
  - destruct Hpresent as (l' & Hrm & Hrd & _); [eexists; reflexivity|].
    exists l'. done.
Defined.

(** X2. [listServiceNames] returns the registered names, each of them
    once and no other, in whatever order the map is visited: as many
    names as there are services. *)
Theorem X2_listServiceNames
    (range : gmap string fake.FakeService → list (string * fake.FakeService))
    (l : fake.fakeServiceList) :
  (∀ m, range m ≡ₚ map_to_list m) →
  NoDup (fake.listServiceNames range l)
  ∧ (∀ n, n ∈ fake.listServiceNames range l ↔ is_Some (fake.read n l))
  ∧ length (fake.listServiceNames range l) = size (fake.svcs l)
  ∧ fake.listServiceNames range l ≡ₚ fake.listServiceNames map_to_list l.
Proof.
  intros range_perm. split_and!.
  - rewrite listServiceNames_eq. by apply fake_theory.NoDup_range_keys.
  - intros n. by apply elem_of_listServiceNames.
  - by rewrite listServiceNames_eq, length_fmap, range_perm, length_map_to_list.
  - by rewrite !listServiceNames_eq, range_perm.
Qed.

Lemma X2_listServiceNames_witness :
  let l := fake.svcList scenario.fanIn in
  (∀ m : gmap string fake.FakeService, reverse (map_to_list m) ≡ₚ map_to_list m)
  ∧ length (fake.listServiceNames (λ m, reverse (map_to_list m)) l) = 4%nat
  ∧ "Z" ∈ fake.listServiceNames (λ m, reverse (map_to_list m)) l.
Proof.
  intros l.
  assert (∀ m : gmap string fake.FakeService,
            reverse (map_to_list m) ≡ₚ map_to_list m) as Hperm
    by (intros m; apply reverse_Permutation).
  destruct (X2_listServiceNames (λ m, reverse (map_to_list m)) l Hperm)
    as (_ & Hin & Hlen & _).
  split_and!; [done| |].
  - rewrite Hlen. reflexivity.
  - apply Hin. eexists. reflexivity.
Defined.

(** X3. [GetServices] of the test double never fails, and returns the set
    of the registered names, in whatever order the map is visited.  These
    are the names that [OpenService] opens, with the name as the handle;
    for every other name [OpenService] is the error "service does not
    exist". *)
Theorem X3_GetServices
    (range : gmap string fake.FakeService → list (string * fake.FakeService))
    (t : fake.testMgr) :
  (∀ m, range m ≡ₚ map_to_list m) →
  fake.GetServices range t = inr (dom (fake.svcs (fake.svcList t)))
  ∧ ∀ name,
      fake.OpenService name t
      = if decide (name ∈ dom (fake.svcs (fake.svcList t))) then inr name
        else inl (errors_New "service does not exist").
Proof.
  intros range_perm. split.
  - by apply GetServices_dom.
  - intros name. unfold fake.OpenService, fake.read.
    destruct (fake.svcs (fake.svcList t) !! name) as [f|] eqn:Hf.
    + rewrite decide_True; [done|]. by apply elem_of_dom.
    + rewrite decide_False; [done|]. by apply not_elem_of_dom.
Qed.

Lemma X3_GetServices_witness :
  fake.GetServices (λ m, reverse (map_to_list m)) scenario.fanIn
  = inr ({["X"; "Y"; "Z"; "W"]} : gset string)
  ∧ fake.OpenService "Z" scenario.fanIn = inr "Z"
  ∧ fake.OpenService "V" scenario.fanIn
    = inl (errors_New "service does not exist").
Proof.
  destruct (X3_GetServices (λ m, reverse (map_to_list m)) scenario.fanIn)
    as [Hget Hopen]; [intros m; apply reverse_Permutation|].
  split_and!.
  - rewrite Hget. vm_compute. reflexivity.
  - rewrite Hopen. reflexivity.
  - rewrite Hopen. reflexivity.
Defined.

(** X4. The loop of [NewTestMgr] enters every given service under its
    key, whatever the order in which the map is visited: the manager made
    holds the services given and no other, so it lists their names. *)
Theorem X4_NewTestMgr
    (range : gmap string fake.FakeService → list (string * fake.FakeService))
    (existingServices : gmap string fake.FakeService) :
  (∀ m, range m ≡ₚ map_to_list m) →
  fake.registerExisting range existingServices fake.newFakeServiceList
  = fake.svcList (fake.NewTestMgr existingServices)
  ∧ fake.GetServices range (fake.NewTestMgr existingServices)
    = inr (dom existingServices).
Proof.
  intros range_perm. split.
  - pose proof (foldl_insert_eq (range existingServices)
                  fake.newFakeServiceList
                  (fake_theory.NoDup_range_keys range range_perm _)) as Hfold.
    unfold fake.registerExisting.
    destruct (foldl _ _ _) as [m]. simpl in Hfold. subst m.
    unfold fake.NewTestMgr. simpl. f_equal.
    rewrite (right_id_L ∅ (∪)).
    rewrite (list_to_map_proper _ (map_to_list existingServices));
      [apply list_to_map_to_list
      |by apply fake_theory.NoDup_range_keys|apply range_perm].
  - by rewrite GetServices_dom.
Qed.

Lemma X4_NewTestMgr_witness :
  fake.registerExisting (λ m, reverse (map_to_list m))
    (scenario.registry [scenario.service "a" ["b"] svc.Running;
                        scenario.service "b" [] svc.Stopped])
    fake.newFakeServiceList
  = fake.svcList
      (fake.NewTestMgr
         (scenario.registry [scenario.service "a" ["b"] svc.Running;
                             scenario.service "b" [] svc.Stopped])).
Proof.
  apply (X4_NewTestMgr (λ m, reverse (map_to_list m))).
  intros m. apply reverse_Permutation.
Defined.

(** ** The manager of the test double *)

(** A run with target [svc.Stopped] keeps the registered names. *)
Lemma evolves_dom (l l' : fake.fakeServiceList) :
  fake_spec.evolves l l' → dom (fake.svcs l') = dom (fake.svcs l).
Proof.
  intros [Hsk _]. apply set_eq. intros k. rewrite !elem_of_dom.
  specialize (Hsk k).
  destruct (fake.svcs l' !! k), (fake.svcs l !! k); simplify_eq/=;
    split; intros [? ?]; by eauto.
Qed.

(** X5. [CreateService] of the test double keeps the registry well named:
    when every service is registered under its own name, a creation that
    succeeds returns the name as the handle, leaves every service
    registered under its own name, the new one among them, and the
    services listed afterwards are the ones listed before and the new
    one, which was not listed before and can now be opened. *)
Theorem X5_CreateService_invariant
    (range : gmap string fake.FakeService → list (string * fake.FakeService))
    (name exepath : string) (config : mgr.Config) (args : list string)
    (t t' : fake.testMgr) (h : string) :
  (∀ m, range m ≡ₚ map_to_list m) →
  fake_spec.wellNamed (fake.svcList t) →
  fake.CreateService name exepath config args t = (inr h, t') →
  h = name
  ∧ fake_spec.wellNamed (fake.svcList t')
  ∧ (name ∉ dom (fake.svcs (fake.svcList t)))
  ∧ fake.GetServices range t'
    = inr ({[name]} ∪ dom (fake.svcs (fake.svcList t)))
  ∧ fake.OpenService name t' = inr name.
Proof.
  intros range_perm Hwn Hcreate. unfold fake.CreateService, fake.read in Hcreate.
  destruct (fake.svcs (fake.svcList t) !! name) as [f|] eqn:Hf; [done|].
  injection Hcreate as <- <-. split_and!; [done| | | |].
  - unfold fake_spec.wellNamed, fake.write. simpl.
    by apply map_Forall_insert_2.
  - by apply not_elem_of_dom.
  - rewrite GetServices_dom by done. unfold fake.write. simpl.
    by rewrite dom_insert_L.
  - unfold fake.OpenService, fake.read, fake.write. simpl.
    by rewrite lookup_insert_eq.
Qed.

Lemma X5_CreateService_invariant_witness :
  ∃ t', fake.CreateService "db" "C:/k/db.exe"
          {| mgr.BinaryPathName := ""; mgr.Dependencies := ["web"] |} []
          scenario.webCacheApp
        = (inr "db", t')
        ∧ fake_spec.wellNamed (fake.svcList t')
        ∧ fake.OpenService "db" t' = inr "db".
Proof.
  destruct (fake.CreateService "db" "C:/k/db.exe"
              {| mgr.BinaryPathName := ""; mgr.Dependencies := ["web"] |} []
              scenario.webCacheApp) as [[e|h] t'] eqn:Hcreate;
    [vm_compute in Hcreate; discriminate|].
  assert (fake_spec.wellNamed (fake.svcList scenario.webCacheApp)) as Hwn0
    by by_computation.
  destruct (X5_CreateService_invariant map_to_list _ _ _ _ _ _ _
              (λ m, reflexivity _) Hwn0 Hcreate)
    as (-> & Hwn & _ & _ & Hopen).
  by exists t'.
Defined.

(** X6. [DeleteService] of the test double returns success or the
    failure to stop the service, wrapped: the error of [remove] is never
    returned, as the service is still there when the engine has stopped
    it.  Every other service stays registered, with its name and its
    configuration, and a well-named registry stays well named.  After a
    success the name is no longer registered, the services listed are the
    ones listed before without it, and deleting it once more is a
    success that changes nothing. *)
Theorem X6_DeleteService
    (range : gmap string fake.FakeService → list (string * fake.FakeService))
    (fuel : nat) (name : string) (t t' : fake.testMgr) (r : option error) :
  (∀ m, range m ≡ₚ map_to_list m) →
  fake.DeleteService range fuel name t = Some (r, t') →
  (r = None
   ∨ ∃ err, r = Some (errors_Wrap err ("failed to stop service "
                                       +:+ quoted name)))
  ∧ (∀ k, k ≠ name →
          (λ f, (fake.name f, fake.config f)) <$> fake.read k (fake.svcList t')
          = (λ f, (fake.name f, fake.config f)) <$> fake.read k (fake.svcList t))
  ∧ (fake_spec.wellNamed (fake.svcList t) →
     fake_spec.wellNamed (fake.svcList t'))
  ∧ (r = None →
     fake.read name (fake.svcList t') = None
     ∧ fake.GetServices range t'
       = inr (dom (fake.svcs (fake.svcList t)) ∖ {[name]})
     ∧ ∀ fuel', fake.DeleteService range fuel' name t' = Some (None, t')).
Proof.
  intros range_perm Hdel.
  destruct (fake.read name (fake.svcList t)) as [f|] eqn:Hf.
  - destruct (fake.EnsureServiceState range fuel name svc.Stopped t)
      as [[r1 t1]|] eqn:Hrun;
      [|unfold fake.DeleteService in Hdel; by rewrite Hf, Hrun in Hdel].
    rewrite (fake_theory.DeleteService_present _ _ _ _ _ _ _ Hf Hrun) in Hdel.
    pose proof (fake_theory.EnsureServiceState_evolves _ _ _ _ _ _ Hrun) as Hev.
    destruct r1 as [err|]; injection Hdel as <- <-.
    + split_and!; [right; by exists err| | |done].
      * intros k _. apply Hev.
      * by apply fake_theory.evolves_wellNamed.
    + split_and!; [by left| | |intros _; split_and!].
      * intros k Hne. unfold fake.read. simpl.
        rewrite lookup_delete_ne by done. apply Hev.
      * intros Hwn. apply (fake_theory.evolves_wellNamed _ _ Hev) in Hwn.
        unfold fake_spec.wellNamed. simpl. by apply map_Forall_delete.
      * unfold fake.read. simpl. apply lookup_delete_eq.
      * rewrite GetServices_dom by done. simpl.
        by rewrite dom_delete_L, (evolves_dom _ _ Hev).
      * intros fuel'. apply fake_theory.DeleteService_absent.
        unfold fake.read. simpl. apply lookup_delete_eq.
  - rewrite (fake_theory.DeleteService_absent _ _ _ _ Hf) in Hdel.
    injection Hdel as <- <-.
    split_and!; [by left|done|done|intros _; split_and!; [done| |]].
    + rewrite GetServices_dom by done. f_equal.
      unfold fake.read in Hf. apply not_elem_of_dom in Hf.
      apply set_eq. intros k.
      rewrite elem_of_difference, elem_of_singleton.
      split; [|tauto]. intros Hk. split; [done|]. by intros ->.
    + intros fuel'. by apply fake_theory.DeleteService_absent.
Qed.

Lemma X6_DeleteService_witness :
  ∃ t', fake.DeleteService map_to_list 3 "c"
          (scenario.chain svc.Running svc.Running svc.Running)
        = Some (None, t')
        ∧ fake.GetServices map_to_list t' = inr ({["a"; "b"]} : gset string)
        ∧ fake.DeleteService map_to_list 0 "c" t' = Some (None, t').
Proof.
  destruct (fake.DeleteService map_to_list 3 "c"
              (scenario.chain svc.Running svc.Running svc.Running))
    as [[[e|] t']|] eqn:Hdel; [vm_compute in Hdel; discriminate| |
                                vm_compute in Hdel; discriminate].
  destruct (X6_DeleteService map_to_list _ _ _ _ _ (λ m, reflexivity _) Hdel)
    as (_ & _ & _ & Hgone).
  destruct (Hgone eq_refl) as (_ & Hlist & Hagain).
  exists t'. split_and!; [done| |apply Hagain].
  rewrite Hlist. vm_compute. reflexivity.
Defined.

(** X7. Creating a service and deleting it again leaves the registry as
    it was: the new service is stopped from the start, so the engine has
    nothing to do but the [Query] that says so, and [remove] takes out
    what [write] has put in. *)
Theorem X7_create_then_delete
    (range : gmap string fake.FakeService → list (string * fake.FakeService))
    (fuel : nat) (name exepath : string) (config : mgr.Config)
    (args : list string) (t : fake.testMgr) :
  fake.read name (fake.svcList t) = None →
  ∃ t1, fake.CreateService name exepath config args t = (inr name, t1)
        ∧ fake.DeleteService range (S fuel) name t1
          = Some (None,
                  {| fake.svcList := fake.svcList t;
                     fake.journal :=
                       fake.journal t
                       ++ [fake.CallQuery name (Some svc.Stopped)] |}).
Proof.
  intros Hf. unfold fake.CreateService. rewrite Hf. eexists. split; [done|].
  set (f := {| fake.name := name |}).
  set (t1 := {| fake.svcList := fake.write name f (fake.svcList t) |}).
  assert (fake.read name (fake.svcList t1) = Some f) as Hf1.
  { unfold fake.read, t1, fake.write. simpl. apply lookup_insert_eq. }
  rewrite (fake_theory.DeleteService_present range (S fuel) name t1 f None
             (fake.record (fake.CallQuery name (Some svc.Stopped)) t1) Hf1);
    [|by apply (fake_theory.EnsureServiceState_satisfied range fuel name
                  svc.Stopped t1 f)].
  do 2 f_equal. unfold t1, fake.write. simpl. f_equal.
  destruct (fake.svcList t) as [m]. simpl. f_equal.
  by apply delete_insert_id.
Qed.

Lemma X7_create_then_delete_witness :
  ∃ t1 t2,
    fake.CreateService "db" "C:/k/db.exe"
      {| mgr.BinaryPathName := ""; mgr.Dependencies := ["web"] |} []
      scenario.webCacheApp
    = (inr "db", t1)
    ∧ fake.DeleteService map_to_list 1 "db" t1 = Some (None, t2)
    ∧ fake.svcList t2 = fake.svcList scenario.webCacheApp.
Proof.
  destruct (X7_create_then_delete map_to_list 0 "db" "C:/k/db.exe"
              {| mgr.BinaryPathName := ""; mgr.Dependencies := ["web"] |} []
              scenario.webCacheApp) as (t1 & Hcreate & Hdel);
    [reflexivity|].
  eexists t1, _. split_and!; [exact Hcreate|exact Hdel|reflexivity].
Defined.

(** X8. What [EnsureServiceState] of the test double may change, for any
    target state and whatever it returns: no service is added or removed,
    and none changes its name or its configuration; a service that is not
    in the target state afterwards is exactly as it was; with a target
    other than [svc.Stopped] no service but the one of the call changes;
    and with a target other than [svc.Running] and [svc.Stopped] the
    registry is left as it was. *)
Theorem X8_EnsureServiceState_frame
    (range : gmap string fake.FakeService → list (string * fake.FakeService))
    (fuel : nat) (service : string) (state : N) (t t' : fake.testMgr)
    (r : option error) :
  fake.EnsureServiceState range fuel service state t = Some (r, t') →
  (∀ k, (λ f, (fake.name f, fake.config f)) <$> fake.read k (fake.svcList t')
        = (λ f, (fake.name f, fake.config f)) <$> fake.read k (fake.svcList t))
  ∧ (∀ k f', fake.read k (fake.svcList t') = Some f' →
             svc.State (fake.status f') ≠ state →
             fake.read k (fake.svcList t) = Some f')
  ∧ (state ≠ svc.Stopped →
     ∀ k, k ≠ service →
          fake.read k (fake.svcList t') = fake.read k (fake.svcList t))
  ∧ (state ≠ svc.Running → state ≠ svc.Stopped →
     fake.svcList t' = fake.svcList t).
Proof.
  intros Hrun. destruct (decide (state = svc.Stopped)) as [->|Hns].
  { destruct (fake_theory.EnsureServiceState_evolves _ _ _ _ _ _ Hrun)
      as [Hsk Hlive].
    split_and!; [exact Hsk|exact Hlive|done|done]. }
  destruct fuel as [|fuel]; [done|].
  destruct (fake.read service (fake.svcList t)) as [f|] eqn:Hf.
  - destruct (decide (svc.State (fake.status f) = state)) as [Hst|Hst].
    + rewrite (fake_theory.EnsureServiceState_satisfied _ _ _ _ _ _ Hf Hst)
        in Hrun.
      injection Hrun as <- <-. by rewrite fake_theory.svcList_record.
    + destruct (decide (state = svc.Running)) as [->|Hnr].
      * rewrite (fake_theory.EnsureServiceState_start _ _ _ _ _ Hf Hst) in Hrun.
        injection Hrun as <- <-. unfold fake.read, fake.write in *. simpl.
        split_and!; [| | |done].
        -- intros k. destruct (decide (k = service)) as [->|Hne].
           ++ by rewrite lookup_insert_eq, Hf.
           ++ by rewrite lookup_insert_ne.
        -- intros k f' Hk Hst'. destruct (decide (k = service)) as [->|Hne].
           ++ rewrite lookup_insert_eq in Hk. by injection Hk as <-.
           ++ by rewrite lookup_insert_ne in Hk.
        -- intros _ k Hne. by rewrite lookup_insert_ne.
      * rewrite (fake_theory.EnsureServiceState_unsupported _ _ _ _ _ _ Hf Hst
                   Hnr Hns) in Hrun.
        injection Hrun as <- <-. by rewrite fake_theory.svcList_record.
  - rewrite (fake_theory.EnsureServiceState_absent _ _ _ _ _ Hf) in Hrun.
    injection Hrun as <- <-. by rewrite fake_theory.svcList_record.
Qed.

Lemma X8_EnsureServiceState_frame_witness :
  ∃ t', fake.EnsureServiceState map_to_list 1 "web" svc.Running
          scenario.webCacheApp
        = Some (None, t')
        ∧ fake.read "app" (fake.svcList t')
          = fake.read "app" (fake.svcList scenario.webCacheApp)
        ∧ fake.read "cache" (fake.svcList t')
          = fake.read "cache" (fake.svcList scenario.webCacheApp).
Proof.
  destruct (fake.EnsureServiceState map_to_list 1 "web" svc.Running
              scenario.webCacheApp) as [[[e|] t']|] eqn:Hrun;
    [vm_compute in Hrun; discriminate| |vm_compute in Hrun; discriminate].
  destruct (X8_EnsureServiceState_frame _ _ _ _ _ _ _ Hrun)
    as (_ & _ & Hothers & _).
  exists t'. split_and!; [done|by apply Hothers..].
Defined.

(** X9. A run with target [svc.Stopped] reaches a service only from the
    service of the call, going from a service that is not stopped to a
    dependent that is not stopped, any number of times: every other
    service is afterwards exactly as it was, whatever the run returns.
    With every service registered under its own name. *)
Theorem X9_stop_leaves_the_rest
    (range : gmap string fake.FakeService → list (string * fake.FakeService))
    (fuel : nat) (service y : string) (t t' : fake.testMgr) (r : option error) :
  (∀ m, range m ≡ₚ map_to_list m) →
  fake_spec.wellNamed (fake.svcList t) →
  fake.EnsureServiceState range fuel service svc.Stopped t = Some (r, t') →
  ¬ rtc (fake_spec.liveDependent (fake.svcList t)) service y →
  fake.read y (fake.svcList t') = fake.read y (fake.svcList t).
Proof.
  intros range_perm Hwn Hrun Hfar.
  pose proof (fake_theory.EnsureServiceState_evolves _ _ _ _ _ _ Hrun)
    as [Hsk Hlive].
  unfold fake.read. specialize (Hsk y).
  destruct (fake.svcs (fake.svcList t') !! y) as [f'|] eqn:Hf';
    [|by destruct (fake.svcs (fake.svcList t) !! y)].
  destruct (decide (svc.State (fake.status f') = svc.Stopped)) as [Hst|Hst];
    [|symmetry; by apply Hlive].
  destruct (fake.svcs (fake.svcList t) !! y) as [f|] eqn:Hf; [|done].
  destruct (decide (svc.State (fake.status f) = svc.Stopped)) as [Hst0|Hst0].
  - simpl in Hsk. injection Hsk as Hn Hc.
    destruct f as [n c [s]], f' as [n' c' [s']]. simpl in *. by subst.
  - destruct Hfar.
    apply (fake_theory.EnsureServiceState_reaches range range_perm fuel service
             t r t' y Hwn Hrun).
    + by exists f'.
    + by apply (fake_theory.not_isStopped _ _ f).
Qed.

Lemma X9_stop_leaves_the_rest_witness :
  let t := scenario.chain svc.Running svc.Running svc.Running in
  ∃ t', fake.EnsureServiceState map_to_list 3 "b" svc.Stopped t = Some (None, t')
        ∧ fake.read "c" (fake.svcList t') = fake.read "c" (fake.svcList t).
Proof.
  intros t.
  destruct (fake.EnsureServiceState map_to_list 3 "b" svc.Stopped t)
    as [[[e|] t']|] eqn:Hrun;
    [vm_compute in Hrun; discriminate| |vm_compute in Hrun; discriminate].
  exists t'. split; [done|].
  apply (X9_stop_leaves_the_rest map_to_list 3 "b" "c" t t' None
           (λ m, reflexivity _)); [by_computation|done|].
  intros Hreach.
  assert (∀ x, rtc (fake_spec.liveDependent (fake.svcList t)) "b" x →
               x ≠ "c") as Hinv; [|by apply (Hinv "c")].
  clear Hrun t'.
  intros x Hx. apply rtc_inv_r in Hx as [<-|(z & _ & Hstep)]; [done|].
  destruct Hstep as ((_ & g & Hg & Hin) & _). intros ->.
  vm_compute in Hg. injection Hg as <-. by apply elem_of_nil in Hin.
Defined.

(** X10. A run with target [svc.Stopped] keeps the registry settled: when
    no stopped service has a dependent that is not stopped before the
    run, none has after it, whatever the run returns.  With every
    service registered under its own name, which the run keeps as well. *)
Theorem X10_stop_keeps_settled
    (range : gmap string fake.FakeService → list (string * fake.FakeService))
    (fuel : nat) (service : string) (t t' : fake.testMgr) (r : option error) :
  (∀ m, range m ≡ₚ map_to_list m) →
  fake_spec.wellNamed (fake.svcList t) →
  fake_spec.settled (fake.svcList t) →
  fake.EnsureServiceState range fuel service svc.Stopped t = Some (r, t') →
  fake_spec.settled (fake.svcList t') ∧ fake_spec.wellNamed (fake.svcList t').
Proof.
  intros range_perm Hwn Hsettled Hrun. split.
  - by apply (fake_theory.EnsureServiceState_settled range range_perm fuel
                service t r t').
  - apply (fake_theory.evolves_wellNamed (fake.svcList t)); [|done].
    by apply (fake_theory.EnsureServiceState_evolves range fuel service t r t').
Qed.

Lemma X10_stop_keeps_settled_witness :
  let t := scenario.chain svc.Running svc.Running svc.Running in
  fake_spec.settled (fake.svcList t)
  ∧ ∃ t', fake.EnsureServiceState map_to_list 3 "b" svc.Stopped t
          = Some (None, t')
          ∧ fake_spec.settled (fake.svcList t').
Proof.
  intros t.
  assert (fake_spec.settled (fake.svcList t)) as Hsettled.
  { intros x d (f & Hf & Hst) _. which_service Hf; discriminate. }
  split; [done|].
  destruct (fake.EnsureServiceState map_to_list 3 "b" svc.Stopped t)
    as [[[e|] t']|] eqn:Hrun;
    [vm_compute in Hrun; discriminate| |vm_compute in Hrun; discriminate].
  exists t'. split; [done|].
  apply (X10_stop_keeps_settled map_to_list 3 "b" t t' None
           (λ m, reflexivity _)); [by_computation|done|done].
Defined.




(** * Further properties of the manager of the host *)

(** X13. [GetServices] of the manager of the host hands on the error of
    the listing as it is, and otherwise returns the set of the names
    listed, a name listed twice being in the set once; it makes no call on
    a service. *)
Theorem X13_GetServices_of_the_host (OS : Type) (H : manager.Host OS)
    (w : @manager.world OS) :
  let w' := {| manager.host := (manager.Mgr_ListServices (manager.host w)).2;
               manager.journal := manager.journal w |} in
  manager.GetServices w
  = (match (manager.Mgr_ListServices (manager.host w)).1 with
     | inl err => inl err
     | inr names => inr (list_to_set names)
     end, w').
Proof.
  unfold manager.GetServices.
  destruct (manager.Mgr_ListServices (manager.host w)) as [[err|names] os'];
    simpl; [done|].
  by rewrite foldl_names_eq, (right_id_L ∅ (∪)).
Qed.

(** X14. The ways out of [DeleteService] of the manager of the host
    before the engine is called.  When the listing fails, its error is
    returned as it is and nothing else is done.  When the name is listed
    and the service cannot be opened, the error of the opening is
    returned, wrapped, and the attempt to open is the only call made: no
    handle is there to be closed. *)
Theorem X14_DeleteService_early_exits (OS : Type) (H : manager.Host OS)
    (pollBudget fuel : nat) (name : string) (w : @manager.world OS) :
  (∀ err os',
     manager.Mgr_ListServices (manager.host w) = (inl err, os') →
     manager.DeleteService pollBudget fuel name w
     = Some (manager.Err err,
             {| manager.host := os'; manager.journal := manager.journal w |}))
  ∧ (∀ names os' err os'',
       manager.Mgr_ListServices (manager.host w) = (inr names, os') →
       name ∈ names →
       manager.Mgr_OpenService name os' = (inl err, os'') →
       manager.DeleteService pollBudget fuel name w
       = Some (manager.Err (errors_Wrap err ("failed to open service "
                                             +:+ quoted name)),
               {| manager.host := os'';
                  manager.journal :=
                    manager.journal w ++ [manager.CallOpenService name] |})).
Proof.
  split.
  - intros err os' Hlist. unfold manager.DeleteService, manager.GetServices.
    by rewrite Hlist.
  - intros names os' err os'' Hlist Hin Hopen.
    destruct (manager_theory.GetServices_listed w names os' Hlist)
      as (existingSvcs & Hget & Hsvcs).
    unfold manager.DeleteService. rewrite Hget.
    rewrite decide_True by by apply Hsvcs.
    unfold manager.OpenService. rewrite manager_theory.call_eq. simpl.
    by rewrite Hopen.
Qed.

Lemma X14_DeleteService_early_exits_witness :
  manager.DeleteService
    (scm := scenario.refusing svc.Running (inl (Errno 5)) (λ _ _, scenario.denied))
    1 1 "web" (scenario.boot ())
  = Some (manager.Err (Errno 5), scenario.boot ())
  ∧ manager.DeleteService
      (scm := scenario.refusing svc.Running (inr ["web"])
                (λ _ _, scenario.denied))
      1 1 "web" (scenario.boot ())
    = Some (manager.Err (errors_Wrap (Errno 1060)
                           ("failed to open service " +:+ quoted "web")),
            {| manager.host := ();
               manager.journal := [manager.CallOpenService "web"] |}).
Proof.
  split.
  - destruct (X14_DeleteService_early_exits unit
                (scenario.refusing svc.Running (inl (Errno 5))
                   (λ _ _, scenario.denied))
                1 1 "web" (scenario.boot ())) as [Hlist _].
    apply (Hlist (Errno 5) ()). reflexivity.
  - destruct (X14_DeleteService_early_exits unit
                (scenario.refusing svc.Running (inr ["web"])
                   (λ _ _, scenario.denied))
                1 1 "web" (scenario.boot ())) as [_ Hopen].
    apply (Hopen ["web"] () (Errno 1060) ());
      [reflexivity|apply list_elem_of_singleton; reflexivity|reflexivity].
Defined.

(** X15. When the action fails, the manager of the host does not wait.
    The error of [Start] is returned as it is, the call having made the
    [Query] and the [Start] and nothing else; and the error of
    [Control], sent when the loop over the dependents has succeeded, is
    returned as it is, that [Control] being the last call made. *)
Theorem X15_action_failure (OS : Type) (H : manager.Host OS)
    (pollBudget fuel : nat) :
  (∀ service (w w1 w2 : @manager.world OS) status err,
     manager.Query service w = (inr status, w1) →
     svc.State status ≠ svc.Running →
     manager.Start service w1 = (Some err, w2) →
     manager.EnsureServiceState pollBudget (S fuel) service svc.Running w
     = Some (manager.Err err, w2)
     ∧ manager.journal w2
       = manager.journal w
         ++ [manager.CallQuery service (Some (svc.State status));
             manager.CallStart service])
  ∧ (∀ winSvc (w w1 w2 wk wc : @manager.world OS) status deps err,
       manager.Query (manager.Native winSvc) w = (inr status, w1) →
       svc.State status ≠ svc.Stopped →
       manager.listDependentServices fuel (mgr.Handle winSvc) w1
       = Some (manager.Ok deps, w2) →
       manager_spec.stoppedInTurn
         (λ d, manager.EnsureServiceState pollBudget fuel d svc.Stopped)
         deps w2 wk →
       manager.Control (manager.Native winSvc) svc.Stop wk = (inl err, wc) →
       manager.EnsureServiceState pollBudget (S fuel) (manager.Native winSvc)
         svc.Stopped w
       = Some (manager.Err err, wc)
       ∧ manager.journal wc
         = manager.journal wk
           ++ [manager.CallControl (manager.Native winSvc) svc.Stop]).
Proof.
  split.
  - intros service w w1 w2 status err HQ Hst HS.
    rewrite (manager_theory.EnsureServiceState_start_on_host pollBudget _ _ _ _
               _ HQ Hst), HS.
    split; [done|].
    rewrite (manager_theory.Start_journal _ _ _ _ HS),
      (manager_theory.Query_journal _ _ _ _ HQ).
    by rewrite <- app_assoc.
  - intros winSvc w w1 w2 wk wc status deps err HQ Hst Hlist Hloop HC.
    rewrite (manager_theory.EnsureServiceState_stop_on_host pollBudget _ _ _ _
               _ HQ Hst), Hlist.
    apply manager_theory.stopDependents_success_on_host in Hloop.
    rewrite Hloop, HC. split; [done|].
    by apply (manager_theory.Control_journal_on_host _ _ _ _ _ HC).
Qed.

Lemma X15_action_failure_witness :
  manager.EnsureServiceState
    (scm := scenario.refusing svc.Stopped (inr []) (λ _ _, scenario.denied))
    5 1 (manager.Native scenario.web) svc.Running (scenario.boot ())
  = Some (manager.Err (Errno 5),
          {| manager.host := ();
             manager.journal :=
               [manager.CallQuery (manager.Native scenario.web)
                  (Some svc.Stopped);
                manager.CallStart (manager.Native scenario.web)] |})
  ∧ manager.EnsureServiceState
      (scm := scenario.refusing svc.Running (inr [])
                (λ _ _, scenario.filled []))
      5 2 (manager.Native scenario.web) svc.Stopped (scenario.boot ())
    = Some (manager.Err (Errno 5),
            {| manager.host := ();
               manager.journal :=
                 [manager.CallQuery (manager.Native scenario.web)
                    (Some svc.Running);
                  manager.CallEnumDependentServices 1 0 (scenario.filled []);
                  manager.CallControl (manager.Native scenario.web)
                    svc.Stop] |}).
Proof.
  split.
  - destruct (X15_action_failure unit
                (scenario.refusing svc.Stopped (inr [])
                   (λ _ _, scenario.denied)) 5 0) as [Hstart _].
    by apply (Hstart (manager.Native scenario.web) (scenario.boot ()) _ _
                {| svc.State := svc.Stopped |} (Errno 5) eq_refl).
  - destruct (X15_action_failure unit
                (scenario.refusing svc.Running (inr [])
                   (λ _ _, scenario.filled [])) 5 1) as [_ Hstop].
    eapply (Hstop scenario.web (scenario.boot ()) _ _ _ _
              {| svc.State := svc.Running |} [] (Errno 5) eq_refl);
      [done|reflexivity|constructor|reflexivity].
Defined.

(** ** The dependent enumeration of the host *)

(** The attempts that were answered "more data" are calls of the
    enumeration for the handle, with buffers that grow: the size the last
    of them asked for is larger than the first buffer by the number of
    attempts at least, and fits 32 bits. *)
Lemma resized_grows (h len : N) (attempts : list manager.Call) (next : N) :
  manager_spec.resized h len attempts next →
  Forall (λ c, ∃ size reply, c = manager.CallEnumDependentServices h size reply)
    attempts
  ∧ ((attempts = [] ∧ next = len)
     ∨ (len + N.of_nat (length attempts) ≤ next ∧ next < 2 ^ 32)).
Proof.
  induction 1 as [len|len reply attempts next Hr1 Herr Hlt Hres [IHc IHn]].
  - split; [done|by left].
  - split; [apply Forall_cons; split; [by eexists _, _|done]|].
    right. destruct IHn as [[-> ->]|[Hle Hnext]].
    + split; [simpl; lia|apply manager_theory.uint32_lt].
    + split; [|done]. rewrite length_cons. lia.
Qed.

(** The calls of [listDependentServices], and what its result says of
    the last of them. *)
Lemma listDependentServices_calls {OS : Type} {scm : manager.Host OS}
    (fuel : nat) (h : N) (w w' : @manager.world OS)
    (r : manager.result (list string)) :
  manager.listDependentServices fuel h w = Some (r, w') →
  ∃ attempts size reply,
    manager.journal w'
    = manager.journal w
      ++ attempts ++ [manager.CallEnumDependentServices h size reply]
    ∧ manager_spec.resized h 0 attempts size
    ∧ match r with
      | manager.Ok deps =>
          manager.r1 reply ≠ 0 ∧ deps = manager.lpServices reply
          ∧ (deps ≠ [] → size ≠ 0)
      | manager.Panic =>
          manager.r1 reply ≠ 0 ∧ manager.lpServices reply ≠ [] ∧ size = 0
      | manager.Err e => manager.r1 reply = 0
      end.
Proof.
  unfold manager.listDependentServices. intros Hlist.
  destruct (manager.enumLoop fuel h 0 w) as [[exit w1]|] eqn:Hloop; [|done].
  apply manager_theory.enumLoop_exit in Hloop
    as (attempts & size & reply & Hj & Hres & Hexit).
  exists attempts, size, reply.
  destruct exit as [bufferLen services|e].
  - destruct Hexit as (Hr1 & -> & ->).
    destruct (manager.lpServices reply) as [|s services].
    + by injection Hlist as <- <-.
    + by destruct (decide (size = 0)) as [->|Hsize]; injection Hlist as <- <-.
  - injection Hlist as <- <-. by destruct Hexit as [Hr1 _].
Qed.

(** X16. A stop that ends before the loop over the dependents.  For a
    service that is no [*mgr.Service] and is not stopped, the call
    returns the error "service is not correct type", having made its
    [Query] and nothing else.  When the enumeration of the dependents
    fails, its error is returned wrapped in "error finding dependent
    services", and when it ends in a panic so does the call: in both
    cases the calls made after the [Query] are calls of the enumeration
    for the handle of the service, so that no dependent has been opened
    and no [Control] sent. *)
Theorem X16_stop_ends_before_the_loop (OS : Type) (H : manager.Host OS)
    (pollBudget fuel : nat) :
  (∀ id (w w1 : @manager.world OS) status,
     manager.Query (manager.Foreign id) w = (inr status, w1) →
     svc.State status ≠ svc.Stopped →
     manager.EnsureServiceState pollBudget (S fuel) (manager.Foreign id)
       svc.Stopped w
     = Some (manager.Err (errors_New "service is not correct type"), w1)
     ∧ manager.journal w1
       = manager.journal w
         ++ [manager.CallQuery (manager.Foreign id) (Some (svc.State status))])
  ∧ (∀ winSvc (w w1 w2 : @manager.world OS) status r,
       manager.Query (manager.Native winSvc) w = (inr status, w1) →
       svc.State status ≠ svc.Stopped →
       manager.listDependentServices fuel (mgr.Handle winSvc) w1
       = Some (r, w2) →
       (∀ deps, r ≠ manager.Ok deps) →
       manager.EnsureServiceState pollBudget (S fuel) (manager.Native winSvc)
         svc.Stopped w
       = Some (match r with
               | manager.Err e =>
                   manager.Err (errors_Wrap e "error finding dependent services")
               | _ => manager.Panic
               end, w2)
       ∧ ∃ calls,
           manager.journal w2 = manager.journal w1 ++ calls
           ∧ Forall (λ c, ∃ size reply,
                        c = manager.CallEnumDependentServices
                              (mgr.Handle winSvc) size reply) calls).
Proof.
  split.
  - intros id w w1 status HQ Hst. split.
    + cbn [manager.EnsureServiceState]. rewrite HQ.
      rewrite decide_False by done. rewrite decide_False by done.
      by rewrite decide_True by done.
    + by rewrite (manager_theory.Query_journal _ _ _ _ HQ).
  - intros winSvc w w1 w2 status r HQ Hst Hlist Hr. split.
    + rewrite (manager_theory.EnsureServiceState_stop_on_host pollBudget _ _ _
                 _ _ HQ Hst), Hlist.
      destruct r as [deps|e|]; [by destruct (Hr deps)|done|done].
    + apply listDependentServices_calls in Hlist
        as (attempts & size & reply & Hj & Hres & _).
      eexists. split; [exact Hj|].
      apply Forall_app. split; [by apply (resized_grows _ _ _ _ Hres)|].
      apply Forall_singleton. by eexists _, _.
Qed.

Lemma X16_stop_ends_before_the_loop_witness :
  manager.EnsureServiceState
    (scm := scenario.refusing svc.Running (inr []) (λ _ _, scenario.denied))
    5 1 (manager.Foreign 7) svc.Stopped (scenario.boot ())
  = Some (manager.Err (errors_New "service is not correct type"),
          {| manager.host := ();
             manager.journal :=
               [manager.CallQuery (manager.Foreign 7) (Some svc.Running)] |})
  ∧ manager.EnsureServiceState
      (scm := scenario.refusing svc.Running (inr []) (λ _ _, scenario.denied))
      5 2 (manager.Native scenario.web) svc.Stopped (scenario.boot ())
    = Some (manager.Err
              (errors_Wrap
                 (errors_Wrap (Errno 5)
                    "received unexpected error from enumDependentServicesSyscall")
                 "error finding dependent services"),
            {| manager.host := ();
               manager.journal :=
                 [manager.CallQuery (manager.Native scenario.web)
                    (Some svc.Running);
                  manager.CallEnumDependentServices 1 0 scenario.denied] |}).
Proof.
  split.
  - destruct (X16_stop_ends_before_the_loop unit
                (scenario.refusing svc.Running (inr [])
                   (λ _ _, scenario.denied)) 5 0) as [Htype _].
    by apply (Htype 7 (scenario.boot ()) _ {| svc.State := svc.Running |}
                eq_refl).
  - destruct (X16_stop_ends_before_the_loop unit
                (scenario.refusing svc.Running (inr [])
                   (λ _ _, scenario.denied)) 5 1) as [_ Hlist].
    by apply (Hlist scenario.web (scenario.boot ()) _ _
                {| svc.State := svc.Running |}
                (manager.Err
                   (errors_Wrap (Errno 5)
                      "received unexpected error from enumDependentServicesSyscall"))
                eq_refl).
Defined.

(** X17. The sizing loop of [listDependentServices] always leaves: every
    attempt that does not end it uses a larger buffer than the one
    before, and a size fits 32 bits.  So the enumeration returns, after
    one call of the syscall at least and [2 ^ 32] at most, all of them
    for the handle given, and the first with an empty buffer. *)
Theorem X17_sizing_loop_leaves (OS : Type) (H : manager.Host OS)
    (fuel : nat) (h : N) (w : @manager.world OS) :
  (N.to_nat (2 ^ 32) < fuel)%nat →
  ∃ r w' reply calls,
    manager.listDependentServices fuel h w = Some (r, w')
    ∧ manager.journal w'
      = manager.journal w
        ++ manager.CallEnumDependentServices h 0 reply :: calls
    ∧ (S (length calls) ≤ N.to_nat (2 ^ 32))%nat
    ∧ Forall (λ c, ∃ size reply,
                 c = manager.CallEnumDependentServices h size reply) calls.
Proof.
  intros Hfuel.
  destruct (manager_theory.listDependentServices_returns fuel h w Hfuel)
    as (r & w' & Hlist).
  destruct (listDependentServices_calls _ _ _ _ _ Hlist)
    as (attempts & size & reply & Hj & Hres & _).
  exists r, w'.
  destruct (resized_grows _ _ _ _ Hres) as [Hcalls Hsize].
  inversion Hres as [len|len reply0 attempts0 next Hr1 Herr Hlt Hres0];
    subst.
  - exists reply, []. split_and!; [done|done|simpl; lia|done].
  - exists reply0,
      (attempts0 ++ [manager.CallEnumDependentServices h size reply]).
    split_and!; [done|done| |].
    + destruct Hsize as [[? _]|[Hle Hlt32]]; [done|].
      rewrite length_app. simpl in *. lia.
    + apply Forall_app. split; [by apply Forall_cons in Hcalls as [_ ?]|].
      apply Forall_singleton. by eexists _, _.
Qed.

Lemma X17_sizing_loop_leaves_witness :
  ∃ r w',
    manager.listDependentServices (scm := scenario.growing 1000)
      (S (N.to_nat (2 ^ 32))) 1 (scenario.boot ())
    = Some (r, w').
Proof.
  destruct (X17_sizing_loop_leaves unit (scenario.growing 1000)
              (S (N.to_nat (2 ^ 32))) 1 (scenario.boot ()))
    as (r & w' & _ & _ & Hlist & _); [lia|].
  by exists r, w'.
Defined.



(** ** The engine of the manager of the host *)

(** Calls that a stop may make, one run after the other. *)
Lemma stopCalls_trans {OS : Type} (w1 w2 w3 : @manager.world OS) :
  (∃ calls, manager.journal w2 = manager.journal w1 ++ calls
            ∧ Forall manager_spec.stopCall calls) →
  (∃ calls, manager.journal w3 = manager.journal w2 ++ calls
            ∧ Forall manager_spec.stopCall calls) →
  ∃ calls, manager.journal w3 = manager.journal w1 ++ calls
           ∧ Forall manager_spec.stopCall calls.
Proof.
  intros (c1 & Hj1 & Hc1) (c2 & Hj2 & Hc2). exists (c1 ++ c2).
  split; [by rewrite Hj2, Hj1, <- app_assoc|by apply Forall_app].
Qed.

(** The calls of the loop over the dependents, when the recursive call
    makes none but those a stop may make. *)
Lemma stopDependents_stopCalls {OS : Type} {scm : manager.Host OS}
    (ensureStopped
       : manager.Service → @manager.world OS
         → option (manager.result unit * manager.world))
    (deps : list string) (w w' : @manager.world OS)
    (r : manager.result unit) :
  (∀ d w0 r0 w0',
     ensureStopped d w0 = Some (r0, w0') →
     ∃ calls, manager.journal w0' = manager.journal w0 ++ calls
              ∧ Forall manager_spec.stopCall calls) →
  manager.stopDependents ensureStopped deps w = Some (r, w') →
  ∃ calls, manager.journal w' = manager.journal w ++ calls
           ∧ Forall manager_spec.stopCall calls.
Proof.
  intros Hrec. revert w.
  induction deps as [|d deps IH]; intros w Hloop; simpl in Hloop.
  { injection Hloop as <- <-. exists []. by rewrite app_nil_r. }
  assert (∃ calls,
            manager.journal (manager.OpenService d w).2
            = manager.journal w ++ calls
            ∧ Forall manager_spec.stopCall calls) as Hopen.
  { exists [manager.CallOpenService d].
    split; [|apply Forall_singleton; exact I].
    unfold manager.OpenService. by rewrite manager_theory.call_eq. }
  destruct (manager.OpenService d w) as [[e|dependentSvc] w1];
    [by injection Hloop as <- <-|].
  destruct (ensureStopped (manager.Native dependentSvc) w1)
    as [[r1 w2]|] eqn:Hd; [|done].
  apply Hrec in Hd. pose proof (stopCalls_trans _ _ _ Hopen Hd) as Hw2.
  destruct r1 as [[]|e|]; [|by injection Hloop as <- <-..].
  apply IH in Hloop. by apply (stopCalls_trans _ _ _ Hw2).
Qed.

(** The calls of a run with target [svc.Stopped] after its [Query]. *)
Lemma EnsureServiceState_stopCalls {OS : Type} {scm : manager.Host OS}
    (pollBudget fuel : nat) (service : manager.Service)
    (w w' : @manager.world OS) (r : manager.result unit) :
  manager.EnsureServiceState pollBudget fuel service svc.Stopped w
  = Some (r, w') →
  ∃ calls, manager.journal w' = manager.journal w ++ calls
           ∧ Forall manager_spec.stopCall calls.
Proof.
  revert service w w' r.
  induction fuel as [|fuel IH]; intros service w w' r Hrun; [done|].
  destruct (manager.Query service w) as [[e|status] w1] eqn:HQ.
  { rewrite (manager_theory.EnsureServiceState_query_error pollBudget _ _ _ _
               _ _ HQ) in Hrun.
    injection Hrun as <- <-. eexists.
    split; [by apply (manager_theory.Query_journal _ _ _ _ HQ)|].
    apply Forall_singleton. exact I. }
  assert (∃ calls, manager.journal w1 = manager.journal w ++ calls
                   ∧ Forall manager_spec.stopCall calls) as Hw1.
  { eexists. split; [by apply (manager_theory.Query_journal _ _ _ _ HQ)|].
    apply Forall_singleton. exact I. }
  destruct (decide (svc.State status = svc.Stopped)) as [Hst|Hst].
  { rewrite (manager_theory.EnsureServiceState_satisfied_on_host pollBudget _
               _ _ _ _ _ HQ Hst) in Hrun.
    by injection Hrun as <- <-. }
  destruct service as [winSvc|id].
  - rewrite (manager_theory.EnsureServiceState_stop_on_host pollBudget _ _ _ _
               _ HQ Hst) in Hrun.
    destruct (manager.listDependentServices fuel _ w1) as [[rl w2]|] eqn:Hlist;
      [|done].
    assert (∃ calls, manager.journal w2 = manager.journal w ++ calls
                     ∧ Forall manager_spec.stopCall calls) as Hw2.
    { apply (stopCalls_trans _ _ _ Hw1).
      apply listDependentServices_calls in Hlist
        as (attempts & size & reply & Hj & Hres & _).
      eexists. split; [exact Hj|].
      apply Forall_app. split; [|apply Forall_singleton; exact I].
      destruct (resized_grows _ _ _ _ Hres) as [Hcalls _].
      eapply Forall_impl; [exact Hcalls|].
      by intros c (size0 & reply0 & ->). }
    destruct rl as [deps|e|]; [|by injection Hrun as <- <-..].
    destruct (manager.stopDependents _ deps w2) as [[rs w3]|] eqn:Hloop;
      [|done].
    assert (∃ calls, manager.journal w3 = manager.journal w ++ calls
                     ∧ Forall manager_spec.stopCall calls) as Hw3.
    { apply (stopCalls_trans _ _ _ Hw2).
      apply (stopDependents_stopCalls _ _ _ _ _
               (λ d w0 r0 w0', IH d w0 w0' r0) Hloop). }
    destruct rs as [[]|e|]; [|by injection Hrun as <- <-..].
    destruct (manager.Control (manager.Native winSvc) svc.Stop w3)
      as [rc wc] eqn:HC.
    assert (∃ calls, manager.journal wc = manager.journal w ++ calls
                     ∧ Forall manager_spec.stopCall calls) as Hwc.
    { apply (stopCalls_trans _ _ _ Hw3). eexists.
      split; [by apply (manager_theory.Control_journal_on_host _ _ _ _ _ HC)|].
      apply Forall_singleton. reflexivity. }
    destruct rc as [e|status']; [by injection Hrun as <- <-|].
    unfold manager.WaitForState in Hrun.
    destruct (manager.pollState pollBudget (manager.Native winSvc) svc.Stopped
                wc) as [rp wp] eqn:Hpoll.
    apply manager_theory.pollState_polls in Hpoll
      as (polls & Hj & _ & Hpolls & _).
    assert (w' = wp) as -> by (destruct rp; by injection Hrun as <- <-).
    apply (stopCalls_trans _ _ _ Hwc). exists polls. split; [done|].
    eapply Forall_impl; [exact Hpolls|]. by intros c (rep & ->).
  - cbn [manager.EnsureServiceState] in Hrun. rewrite HQ in Hrun.
    rewrite decide_False in Hrun by done.
    rewrite decide_False in Hrun by done.
    rewrite decide_True in Hrun by done.
    by injection Hrun as <- <-.
Qed.

(** X19. Stopping never starts anything on the host either.  Whatever
    the host answers and whatever the run returns, the calls that
    [EnsureServiceState] with target [svc.Stopped] makes are [Query],
    the opening of a service, the enumeration of dependents and
    [Control] with the signal [svc.Stop]: no [Start], no other signal,
    and no service is deleted or closed. *)
Theorem X19_stop_never_starts_on_host (OS : Type) (H : manager.Host OS)
    (pollBudget fuel : nat) (service : manager.Service)
    (w w' : @manager.world OS) (r : manager.result unit) :
  manager.EnsureServiceState pollBudget fuel service svc.Stopped w
  = Some (r, w') →
  ∃ calls,
    manager.journal w' = manager.journal w ++ calls
    ∧ Forall manager_spec.stopCall calls
    ∧ (∀ s, manager.CallStart s ∉ calls)
    ∧ (∀ s cmd, manager.CallControl s cmd ∈ calls → cmd = svc.Stop)
    ∧ (∀ s, (manager.CallDelete s ∉ calls) ∧ (manager.CallClose s ∉ calls)).
Proof.
  intros Hrun.
  apply EnsureServiceState_stopCalls in Hrun as (calls & Hj & Hcalls).
  exists calls. split_and!; [done|done|..];
    rewrite Forall_forall in Hcalls.
  - intros s Hin. exact (Hcalls _ Hin).
  - intros s cmd Hin. exact (Hcalls _ Hin).
  - intros s. split; intros Hin; exact (Hcalls _ Hin).
Qed.

Lemma X19_stop_never_starts_on_host_witness :
  ∃ r w',
    manager.EnsureServiceState (scm := scenario.webHost) 1 5
      (manager.Native scenario.web) svc.Stopped (scenario.boot scenario.webUp)
    = Some (r, w')
    ∧ Forall manager_spec.stopCall (manager.journal w').
Proof.
  destruct (manager.EnsureServiceState (scm := scenario.webHost) 1 5
              (manager.Native scenario.web) svc.Stopped
              (scenario.boot scenario.webUp)) as [[r w']|] eqn:Hrun;
    [|vm_compute in Hrun; discriminate].
  destruct (X19_stop_never_starts_on_host _ _ _ _ _ _ _ _ Hrun)
    as (calls & Hj & Hcalls & _).
  exists r, w'. split; [done|]. by rewrite Hj.
Defined.

(** X21. A request for a state other than [svc.Stopped] stays with the
    service: on the host it returns without a recursive call, whatever
    the depth allowed, never in a panic, and the calls it makes are a
    [Query] of the service, at most one [Start] of it, and the polls of
    the wait, [pollBudget] at most; no other service is opened, queried
    or sent a signal, and no dependent is enumerated. *)
Theorem X21_other_targets_stay_with_the_service (OS : Type)
    (H : manager.Host OS) (pollBudget fuel : nat) (service : manager.Service)
    (state : N) (w : @manager.world OS) :
  state ≠ svc.Stopped →
  ∃ r w' calls,
    manager.EnsureServiceState pollBudget (S fuel) service state w
    = Some (r, w')
    ∧ r ≠ manager.Panic
    ∧ manager.journal w' = manager.journal w ++ calls
    ∧ (length calls ≤ pollBudget + 2)%nat
    ∧ Forall (λ c, (∃ reported, c = manager.CallQuery service reported)
                   ∨ c = manager.CallStart service) calls.
Proof.
  intros Hns. cbn [manager.EnsureServiceState].
  destruct (manager.Query service w) as [[e|status] w1] eqn:HQ;
    pose proof (manager_theory.Query_journal _ _ _ _ HQ) as Hj1.
  { eexists _, _, [_]. split_and!; [done|done|exact Hj1|simpl; lia|].
    apply Forall_singleton. left. by eexists. }
  destruct (decide (svc.State status = state)) as [Hst|Hst].
  { eexists _, _, [_]. split_and!; [done|done|exact Hj1|simpl; lia|].
    apply Forall_singleton. left. by eexists. }
  destruct (decide (state = svc.Running)) as [->|Hnr].
  - destruct (manager.Start service w1) as [[err|] w2] eqn:HS;
      pose proof (manager_theory.Start_journal _ _ _ _ HS) as Hj2.
    + eexists _, _, [_; _]. split_and!; [done|done| |simpl; lia|].
      * by rewrite Hj2, Hj1, <- app_assoc.
      * apply Forall_cons. split; [left; by eexists|].
        apply Forall_singleton. by right.
    + unfold manager.WaitForState.
      destruct (manager.pollState pollBudget service svc.Running w2)
        as [rp wp] eqn:Hpoll.
      apply manager_theory.pollState_polls in Hpoll
        as (polls & Hjp & Hlen & Hpolls & _).
      exists (manager.returned (rp, wp)).1, wp,
        (manager.CallQuery service (manager.reported (inr status))
         :: manager.CallStart service :: polls).
      split_and!.
      * by destruct rp.
      * by destruct rp.
      * by rewrite Hjp, Hj2, Hj1, <- !app_assoc.
      * simpl. lia.
      * apply Forall_cons. split; [left; by eexists|].
        apply Forall_cons. split; [by right|].
        eapply Forall_impl; [exact Hpolls|]. intros c [rep ->].
        left. by eexists.
  - rewrite decide_False by done.
    eexists _, _, [_]. split_and!; [done|done|exact Hj1|simpl; lia|].
    apply Forall_singleton. left. by eexists.
Qed.

Lemma X21_other_targets_stay_with_the_service_witness :
  ∃ r w',
    manager.EnsureServiceState (scm := scenario.webHost) 3 1
      (manager.Native scenario.web) svc.Running
      (scenario.boot (<[1 := svc.Stopped]> scenario.webUp))
    = Some (r, w')
    ∧ (length (manager.journal w') ≤ 5)%nat.
Proof.
  destruct (X21_other_targets_stay_with_the_service _ scenario.webHost 3 0
              (manager.Native scenario.web) svc.Running
              (scenario.boot (<[1 := svc.Stopped]> scenario.webUp)))
    as (r & w' & calls & Hrun & _ & Hj & Hlen & _); [done|].
  exists r, w'. split; [done|]. rewrite Hj. simpl. lia.
Defined.

(** X22. In the test double as well a request for a state other than
    [svc.Stopped] returns without a recursive call, whatever the depth
    allowed, and the calls it makes are the [Query] of the service and,
    for the target [svc.Running] on a service that is registered and not
    running, its [Start]: two calls at most. *)
Theorem X22_other_targets_return
    (range : gmap string fake.FakeService → list (string * fake.FakeService))
    (fuel : nat) (service : string) (state : N) (t : fake.testMgr) :
  state ≠ svc.Stopped →
  ∃ r t' reported,
    fake.EnsureServiceState range (S fuel) service state t = Some (r, t')
    ∧ (fake.journal t' = fake.journal t ++ [fake.CallQuery service reported]
       ∨ (state = svc.Running
          ∧ r = None
          ∧ fake.journal t'
            = fake.journal t
              ++ [fake.CallQuery service reported; fake.CallStart service])).
Proof.
  intros Hns.
  destruct (fake.read service (fake.svcList t)) as [f|] eqn:Hf.
  - destruct (decide (svc.State (fake.status f) = state)) as [Hst|Hst].
    + rewrite (fake_theory.EnsureServiceState_satisfied _ _ _ _ _ _ Hf Hst).
      eexists _, _, _. split; [done|]. left.
      apply fake_theory.journal_record.
    + destruct (decide (state = svc.Running)) as [->|Hnr].
      * rewrite (fake_theory.EnsureServiceState_start _ _ _ _ _ Hf Hst).
        eexists _, _, _. split; [done|]. by right.
      * rewrite (fake_theory.EnsureServiceState_unsupported _ _ _ _ _ _ Hf Hst
                   Hnr Hns).
        eexists _, _, _. split; [done|]. left.
        apply fake_theory.journal_record.
  - rewrite (fake_theory.EnsureServiceState_absent _ _ _ _ _ Hf).
    eexists _, _, _. split; [done|]. left. apply fake_theory.journal_record.
Qed.

Lemma X22_other_targets_return_witness :
  ∃ t',
    fake.EnsureServiceState map_to_list 1 "web" svc.Running scenario.webCacheApp
    = Some (None, t')
    ∧ fake.journal t'
      = [fake.CallQuery "web" (Some svc.Stopped); fake.CallStart "web"].
Proof.
  destruct (X22_other_targets_return map_to_list 0 "web" svc.Running
              scenario.webCacheApp)
    as (r & t' & reported & Hrun & Hj); [done|].
  exists t'. vm_compute in Hrun. injection Hrun as <- <-. done.
Defined.

(** X23. In a registry without a cycle, every service registered under
    its own name, [DeleteService] always succeeds, within a depth of the
    number of services and one: the name is no longer registered
    afterwards, and when the service was registered and not stopped,
    each of its dependents has been stopped. *)
Theorem X23_DeleteService_succeeds
    (range : gmap string fake.FakeService → list (string * fake.FakeService))
    (name : string) (t : fake.testMgr) :
  (∀ m, range m ≡ₚ map_to_list m) →
  fake_spec.wellNamed (fake.svcList t) →
  fake_spec.acyclic (fake.svcList t) →
  ∃ t',
    fake.DeleteService range (S (size (fake.svcs (fake.svcList t)))) name t
    = Some (None, t')
    ∧ fake.read name (fake.svcList t') = None
    ∧ ∀ f d,
        fake.read name (fake.svcList t) = Some f →
        svc.State (fake.status f) ≠ svc.Stopped →
        fake_spec.dependentOf (fake.svcList t) d name →
        fake.isStopped (fake.svcList t') d.
Proof.
  intros range_perm Hwn Hacyc.
  destruct (fake.read name (fake.svcList t)) as [f|] eqn:Hf.
  - destruct (fake_theory.EnsureServiceState_returns range range_perm name t
                Hwn Hacyc) as (r & t1 & Hrun).
    assert (r = None) as ->.
    { by apply (fake_theory.EnsureServiceState_succeeds range range_perm _ _ _
                  _ _ Hwn (mk_is_Some _ _ Hf) Hrun). }
    rewrite (fake_theory.DeleteService_present _ _ _ _ _ _ _ Hf Hrun).
    eexists. split; [done|]. split; [apply lookup_delete_eq|].
    intros f0 d [= <-] Hst Hdep.
    destruct (fake_theory.EnsureServiceState_stop_order range _ name t f None
                t1 Hf Hst Hrun)
      as (deps & Hlist & [(err & ? & _)|(tk & _ & _ & Hstopped & Htk & _)]);
      [done|].
    assert (d ∈ deps) as Hd.
    { apply (fake_theory.elem_of_listDependentServices range range_perm _ _ _
               _ Hlist).
      rewrite fake_theory.svcList_record. by rewrite (Hwn name f Hf). }
    apply Hstopped in Hd.
    assert (fake.isStopped (fake.svcList t1) d) as (g & Hg & Hgst).
    { pose proof (fake_theory.Control_stop name tk) as HC. cbv zeta in HC.
      destruct (fake.Control name svc.Stop tk) as [[e|s] tc];
        simpl in Htk; subst tc.
      - by rewrite HC, fake_theory.svcList_record.
      - destruct HC as (fk & Hfk & _ & ->). simpl.
        by apply (fake_theory.evolves_stopped _ _ _
                    (fake_theory.evolves_stop _ _ _ Hfk)). }
    exists g. split; [|done]. simpl.
    rewrite lookup_delete_ne; [done|]. intros ->. by destruct Hdep.
  - rewrite (fake_theory.DeleteService_absent _ _ _ _ Hf).
    by exists t.
Qed.

Lemma X23_DeleteService_succeeds_witness :
  let t := scenario.chain svc.Running svc.Running svc.Running in
  ∃ t', fake.DeleteService map_to_list 4 "c" t = Some (None, t')
        ∧ fake.isStopped (fake.svcList t') "b".
Proof.
  intros t.
  assert (fake_spec.wellNamed (fake.svcList t)) as Hwn by by_computation.
  assert (fake_spec.acyclic (fake.svcList t)) as Hacyc.
  { apply (fake_theory.acyclic_ranked _ scenario.chainRank).
    intros x d (Hne & g & Hg & Hin).
    which_service Hg; simpl in Hin;
      repeat (apply elem_of_cons in Hin as [->|Hin]);
      try (by apply elem_of_nil in Hin); vm_compute; lia. }
  destruct (X23_DeleteService_succeeds map_to_list "c" t (λ m, reflexivity _)
              Hwn Hacyc) as (t' & Hdel & _ & Hdeps).
  exists t'. split; [exact Hdel|].
  apply (Hdeps (scenario.service "c" [] svc.Running) "b");
    [reflexivity|done|].
  split; [done|]. exists (scenario.service "b" ["c"] svc.Running).
  split; [reflexivity|left].
Defined.
